(** * grpc_ares_wrapper: the c-ares based asynchronous DNS resolver of gRPC

    A shallow embedding of
    [src/core/ext/filters/client_channel/resolver/dns/c_ares/grpc_ares_wrapper.c]
    and the proofs of its reference counting, error aggregation and
    address construction.

    The C file is callback driven.  One top-level resolve call owns one
    [grpc_ares_request]; the c-ares library is handed queries and later
    calls [on_hostbyname_done_cb] or [on_srv_query_done_cb].  The embedding
    passes an explicit [world] through every function: the request (or its
    absence once freed), the two caller-owned output slots, the queries the
    library still holds, and the chronological list of calls made to the
    collaborators of the file.  A function returns [None] where the C code
    would touch freed or null memory or misuse the mutex.

    The first part holds the embedding and the vocabulary of the
    statements, the second part the proofs, claim by claim. *)

From Stdlib Require Import ZArith List String Ascii Bool Lia.
Import ListNotations.
Open Scope Z_scope.

(** ** Constants of the platform and of c-ares *)

Definition ARES_SUCCESS : Z := 0.
Definition AF_INET : Z := 2.
Definition AF_INET6 : Z := 10.
Definition ns_c_in : Z := 1.
Definition ns_t_srv : Z := 33.
Definition sizeof_sockaddr_in : Z := 16.
Definition sizeof_sockaddr_in6 : Z := 28.
Definition sizeof_in_addr : nat := 4.
Definition sizeof_in6_addr : nat := 16.

(** ** Errors

    [grpc_error] lives in [src/core/lib/iomgr/error.c]; only its interface
    is used here. *)

Inductive grpc_error_strs : Type :=
| GRPC_ERROR_STR_TARGET_ADDRESS.

#[warnings="-register-all"]
Inductive grpc_error : Type :=
| GRPC_ERROR_NONE
| GrpcError (description : string)
            (strs : list (grpc_error_strs * string))
            (children : list grpc_error).

(** Modelled from the spec: [GRPC_ERROR_CREATE_FROM_COPIED_STRING] and
    [GRPC_ERROR_CREATE_FROM_STATIC_STRING] (error.h) build an error that
    carries the description and nothing else. *)
Definition GRPC_ERROR_CREATE (desc : string) : grpc_error :=
  GrpcError desc [] [].

(** Modelled from the spec: [grpc_error_set_str] (error.c) attaches a
    string as structured detail under the given key. *)
Definition grpc_error_set_str (src : grpc_error) (which : grpc_error_strs)
    (value : string) : grpc_error :=
  match src with
  | GRPC_ERROR_NONE => GrpcError EmptyString [(which, value)] []
  | GrpcError d s c => GrpcError d (s ++ [(which, value)]) c
  end.

(** Modelled from the spec: [grpc_error_add_child] (error.c) makes [src] the
    root and links [child], the prior chain, under it. *)
Definition grpc_error_add_child (src child : grpc_error) : grpc_error :=
  match src with
  | GRPC_ERROR_NONE => child
  | GrpcError d s c => GrpcError d s (c ++ [child])
  end.

Definition is_error_none (e : grpc_error) : bool :=
  match e with GRPC_ERROR_NONE => true | GrpcError _ _ _ => false end.

(** ** Data of the C file *)

Definition closure := nat.
Definition driver := nat.
Definition pollset_set := nat.

(** The execution context a closure is scheduled on: the caller's, or one
    made on the stack with [GRPC_EXEC_CTX_INIT]. *)
Inductive exec_ctx : Type :=
| CallerCtx
| StackCtx.

(** [struct grpc_ares_request].  [mu_locked] is the state of [mu]; the
    output pointer [addrs_out] is the pair of slots kept in the [world]. *)
Record grpc_ares_request : Type := mkRequest {
  on_done : closure;
  lb_addrs_out : bool;
  ev_driver : driver;
  pending_queries : Z;
  mu_locked : bool;
  success : bool;
  error : grpc_error
}.

(** [struct grpc_ares_hostbyname_request]; the parent is the one request of
    the world. *)
Record grpc_ares_hostbyname_request : Type := mkHostRequest {
  hr_host : string;
  hr_port : Z;
  hr_is_balancer : bool
}.

(** [struct hostent]: the null-terminated [h_addr_list] is a list. *)
Record hostent : Type := mkHostent {
  h_addrtype : Z;
  h_addr_list : list (list Byte.byte)
}.

(** One node of c-ares's [struct ares_srv_reply]; [srv_port] is the
    [unsigned short] that [ares_parse_srv_reply] decodes from the wire into
    host byte order. *)
Record ares_srv_reply : Type := mkSrv {
  srv_host : string;
  srv_priority : Z;
  srv_weight : Z;
  srv_port : Z
}.

(** [struct sockaddr_in] and [struct sockaddr_in6], as far as this file
    writes them: family, port and address bytes. *)
Record sockaddr : Type := mkSockaddr {
  sa_family : Z;
  sa_port : Z;
  sa_addr : list Byte.byte
}.

Record grpc_resolved_address : Type := mkResolved {
  addr : sockaddr;
  len : Z
}.

Record grpc_lb_address : Type := mkLb {
  address : grpc_resolved_address;
  is_balancer : bool;
  balancer_name : option string;
  user_data : option nat
}.

(** What [memset (p, 0, sizeof ...)] leaves in an entry. *)
Definition zero_resolved_address : grpc_resolved_address :=
  mkResolved (mkSockaddr 0 0 []) 0.
Definition zero_lb_address : grpc_lb_address :=
  mkLb zero_resolved_address false None None.

(** ** The world around one request *)

(** A query handed to c-ares whose callback has not run yet. *)
Inductive query : Type :=
| QHost (hr : grpc_ares_hostbyname_request) (family : Z)
| QSrv (name : string).

(** Calls to collaborators, and the two callback entries, in the order
    they happen.  [EvRef] and [EvUnref] carry the count before the call. *)
Inductive event : Type :=
| EvRefInit (n : Z)
| EvRef (prior : Z)
| EvUnref (prior : Z)
| EvGetHostByName (hr : grpc_ares_hostbyname_request) (family : Z)
| EvQuery (name : string) (dnsclass type : Z)
| EvHostDone (hr : grpc_ares_hostbyname_request) (status : Z)
| EvSrvDone (status : Z)
| EvParseSrvReply (parse_status : Z) (reply : list ares_srv_reply)
| EvFreeData (reply : list ares_srv_reply)
| EvLogError (what : string) (e : grpc_error)
| EvDriverStart (d : driver)
| EvClosureSched (ctx : exec_ctx) (c : closure) (e : grpc_error)
| EvMuDestroy
| EvDriverDestroy (d : driver)
| EvFree.

(** The two fields [mu] is documented to guard, and a log of the accesses
    by which the two callbacks change them or decide to, each with the
    state of [mu] at that time. *)
Inductive guarded_field : Type := FSuccess | FError.
Inductive access_kind : Type := Load | Store.

Record access : Type := mkAccess {
  acc_field : guarded_field;
  acc_kind : access_kind;
  acc_mu_held : bool
}.

Record world : Type := mkWorld {
  req : option grpc_ares_request;
  addrs : option (list grpc_resolved_address);
  lb_addrs : option (list grpc_lb_address);
  inflight : list query;
  trace : list event;
  accesses : list access
}.

(** How c-ares reports the end of a query.  Its status codes are the
    non-negative [ares_status_t] values, [ARES_SUCCESS = 0]; a failure
    carries no host entry and no answer buffer. *)
Inductive host_outcome : Type :=
| HostSuccess (he : hostent)
| HostFailure (code : positive).

Inductive srv_outcome : Type :=
| SrvSuccess (abuf : list Byte.byte)
| SrvFailure (code : positive).

Inductive outcome : Type :=
| OHost (o : host_outcome)
| OSrv (o : srv_outcome).

(** The collaborators of the file: gpr, the event driver, the capability
    probe and c-ares.  [grpc_ipv6_loopback_available] is a property of the
    running host.  [ares_parse_srv_reply] gives its status and what it
    leaves in the reply holder, [[]] for null: c-ares stores null in the
    holder before it parses.  [gethostbyname_inline] and [query_inline] say
    for which queries c-ares runs the callback before the issuing call
    returns. *)
Record library : Type := mkLibrary {
  gpr_split_host_port : string -> option string * option string;
  grpc_ipv6_loopback_available : bool;
  grpc_ares_ev_driver_create : pollset_set -> grpc_error * driver;
  ares_strerror : Z -> string;
  ares_parse_srv_reply : list Byte.byte -> Z * list ares_srv_reply;
  little_endian : bool;
  gethostbyname_inline : string -> Z -> option host_outcome;
  query_inline : string -> option srv_outcome
}.

(** ** Port strings *)

(** [htons]: the identity on a big-endian host, a swap of the two bytes of
    the 16-bit value on a little-endian one. *)
Definition htons (E : library) (x : Z) : Z :=
  if little_endian E
  then Z.lor (Z.shiftl (Z.land x 255) 8) (Z.land (Z.shiftr x 8) 255)
  else Z.land x 65535.

Definition isspace (c : ascii) : bool :=
  let n := nat_of_ascii c in
  (Nat.eqb n 32 || (Nat.leb 9 n && Nat.leb n 13))%bool.

Definition digit_of (c : ascii) : option Z :=
  let n := Z.of_nat (nat_of_ascii c) in
  if ((48 <=? n) && (n <=? 57))%bool then Some (n - 48) else None.

Fixpoint skip_spaces (s : string) : string :=
  match s with
  | String c s' => if isspace c then skip_spaces s' else s
  | EmptyString => s
  end.

Fixpoint digits (acc : Z) (s : string) : Z :=
  match s with
  | String c s' =>
      match digit_of c with
      | Some d => digits (acc * 10 + d) s'
      | None => acc
      end
  | EmptyString => acc
  end.

(** libc's [atoi] as ISO C describes it: white space, an optional sign, then
    the longest run of decimal digits; no digits give 0.  The value is kept
    exact; the C result is undefined once it leaves the range of [int]. *)
Definition atoi (s : string) : Z :=
  match skip_spaces s with
  | String "-"%char s' => - digits 0 s'
  | String "+"%char s' => digits 0 s'
  | s' => digits 0 s'
  end.

(** The cast [(unsigned short) n]. *)
Definition to_unsigned_short (n : Z) : Z := n mod 65536.

(** The cast [(sa_family_t) n]; [sa_family_t] is an [unsigned short]. *)
Definition to_sa_family_t (n : Z) : Z := n mod 65536.

Definition strhtons (E : library) (port : string) : Z :=
  if String.eqb port "http" then htons E 80
  else if String.eqb port "https" then htons E 443
  else htons E (to_unsigned_short (atoi port)).

(** ** Steps on the world *)

Notation "x <- m ;; k" :=
  (match m with Some x => k | None => None end)
  (at level 61, m at next level, right associativity).
Notation "' p <- m ;; k" :=
  (match m with Some p => k | None => None end)
  (at level 61, p pattern, m at next level, right associativity).

Definition set_req (r : option grpc_ares_request) (w : world) : world :=
  mkWorld r (addrs w) (lb_addrs w) (inflight w) (trace w) (accesses w).
Definition set_addrs (a : option (list grpc_resolved_address)) (w : world)
  : world :=
  mkWorld (req w) a (lb_addrs w) (inflight w) (trace w) (accesses w).
Definition set_lb_addrs (a : option (list grpc_lb_address)) (w : world)
  : world :=
  mkWorld (req w) (addrs w) a (inflight w) (trace w) (accesses w).
Definition set_inflight (q : list query) (w : world) : world :=
  mkWorld (req w) (addrs w) (lb_addrs w) q (trace w) (accesses w).
Definition emit (e : event) (w : world) : world :=
  mkWorld (req w) (addrs w) (lb_addrs w) (inflight w) (trace w ++ [e])
          (accesses w).

Definition with_pending (n : Z) (r : grpc_ares_request) :=
  mkRequest (on_done r) (lb_addrs_out r) (ev_driver r) n (mu_locked r)
            (success r) (error r).
Definition with_mu (b : bool) (r : grpc_ares_request) :=
  mkRequest (on_done r) (lb_addrs_out r) (ev_driver r) (pending_queries r) b
            (success r) (error r).
Definition with_success (b : bool) (r : grpc_ares_request) :=
  mkRequest (on_done r) (lb_addrs_out r) (ev_driver r) (pending_queries r)
            (mu_locked r) b (error r).
Definition with_error (e : grpc_error) (r : grpc_ares_request) :=
  mkRequest (on_done r) (lb_addrs_out r) (ev_driver r) (pending_queries r)
            (mu_locked r) (success r) e.

(** A callback reads or writes a guarded field: the access is logged with
    the state of the mutex. *)
Definition touch (f : guarded_field) (k : access_kind) (w : world)
  : option world :=
  r <- req w ;;
  Some (mkWorld (req w) (addrs w) (lb_addrs w) (inflight w) (trace w)
                (accesses w ++ [mkAccess f k (mu_locked r)])).

(** [gpr_mu_lock] and [gpr_mu_unlock] on [r->mu].  Locking a mutex the
    running code already holds never returns; unlocking one that is not
    held is undefined. *)
Definition gpr_mu_lock (w : world) : option world :=
  r <- req w ;;
  if mu_locked r then None else Some (set_req (Some (with_mu true r)) w).

Definition gpr_mu_unlock (w : world) : option world :=
  r <- req w ;;
  if mu_locked r then Some (set_req (Some (with_mu false r)) w) else None.

(** ** Reference counting *)

Definition grpc_ares_request_ref (w : world) : option world :=
  r <- req w ;;
  Some (emit (EvRef (pending_queries r))
          (set_req (Some (with_pending (pending_queries r + 1) r)) w)).

(** [gpr_unref] answers true when the count it found was 1.  [ctx] is the
    [exec_ctx] argument, [None] for [NULL]. *)
Definition grpc_ares_request_unref (ctx : option exec_ctx) (w : world)
  : option world :=
  r <- req w ;;
  let prior := pending_queries r in
  let w := emit (EvUnref prior) (set_req (Some (with_pending (prior - 1) r)) w) in
  if prior =? 1 then
    let w :=
      match ctx with
      | None => emit (EvClosureSched StackCtx (on_done r) (error r)) w
      | Some c => emit (EvClosureSched c (on_done r) (error r)) w
      end in
    let w := emit EvMuDestroy w in
    let w := emit (EvDriverDestroy (ev_driver r)) w in
    Some (emit EvFree (set_req None w))
  else Some w.

Definition create_hostbyname_request (host : string) (port : Z)
    (is_balancer : bool) (w : world)
  : option (grpc_ares_hostbyname_request * world) :=
  let hr := mkHostRequest host port is_balancer in
  w <- grpc_ares_request_ref w ;;
  Some (hr, w).

Definition destroy_hostbyname_request (ctx : option exec_ctx)
    (hr : grpc_ares_hostbyname_request) (w : world) : option world :=
  grpc_ares_request_unref ctx w.

(** ** Building the output lists *)

(** [for (i = first; i < first + n; i++) body]. *)
Fixpoint for_loop {S : Type} (n : nat) (i : nat) (body : nat -> S -> S)
    (s : S) : S :=
  match n with
  | O => s
  | Datatypes.S n' => for_loop n' (Datatypes.S i) body (body i s)
  end.

(** [a[i] = x]; a write outside of the storage is undefined in C and is
    left without effect here. *)
Fixpoint array_set {A : Type} (i : nat) (x : A) (a : list A) : list A :=
  match a, i with
  | [], _ => []
  | _ :: a', O => x :: a'
  | y :: a', Datatypes.S i' => y :: array_set i' x a'
  end.

(** [gpr_realloc (a, sizeof (A) * n)]: the old cells are kept, the new ones
    hold [junk] until they are written. *)
Definition gpr_realloc {A : Type} (junk : A) (a : list A) (n : nat) : list A :=
  firstn n a ++ repeat junk (n - List.length a).

(** The [sockaddr_in6] or [sockaddr_in] built from entry [j] of the host
    entry, with its [sizeof]. *)
Definition sockaddr_of (hr : grpc_ares_hostbyname_request) (he : hostent)
    (j : nat) : grpc_resolved_address :=
  let bytes := nth j (h_addr_list he) [] in
  if h_addrtype he =? AF_INET6 then
    mkResolved (mkSockaddr (to_sa_family_t (h_addrtype he)) (hr_port hr)
                           (firstn sizeof_in6_addr bytes))
               sizeof_sockaddr_in6
  else
    mkResolved (mkSockaddr (to_sa_family_t (h_addrtype he)) (hr_port hr)
                           (firstn sizeof_in_addr bytes))
               sizeof_sockaddr_in.

(** Modelled from the spec: [grpc_lb_addresses_create (0, NULL)]
    (lb_policy_factory.c) gives a list without entries. *)
Definition grpc_lb_addresses_create : list grpc_lb_address := [].

(** Modelled from the spec: [grpc_lb_addresses_set_address]
    (lb_policy_factory.c) fills entry [index] with the address and its
    length, the is-balancer flag, the balancer name and the user data. *)
Definition grpc_lb_addresses_set_address (addresses : list grpc_lb_address)
    (index : nat) (a : grpc_resolved_address) (is_bal : bool)
    (name : option string) (udata : option nat) : list grpc_lb_address :=
  array_set index (mkLb a is_bal name udata) addresses.

(** Lines 169-222: the load-balancer branch of a successful completion. *)
Definition append_lb_addresses (hr : grpc_ares_hostbyname_request)
    (he : hostent) (w : world) : world :=
  let lb_addresses :=
    match lb_addrs w with
    | None => grpc_lb_addresses_create
    | Some l => l
    end in
  let prev_naddr := List.length lb_addresses in
  let i := List.length (h_addr_list he) in
  let num_addresses := (prev_naddr + i)%nat in
  let addresses := gpr_realloc zero_lb_address lb_addresses num_addresses in
  let body (i : nat) (a : list grpc_lb_address) :=
    let a := array_set i zero_lb_address a in
    grpc_lb_addresses_set_address a i
      (sockaddr_of hr he (i - prev_naddr))
      (hr_is_balancer hr)
      (if hr_is_balancer hr then Some (hr_host hr) else None)
      None in
  set_lb_addrs
    (Some (for_loop (num_addresses - prev_naddr) prev_naddr body addresses)) w.

(** Lines 224-271: the plain branch of a successful completion. *)
Definition append_resolved_addresses (hr : grpc_ares_hostbyname_request)
    (he : hostent) (w : world) : world :=
  let addresses :=
    match addrs w with
    | None => []
    | Some l => l
    end in
  let prev_naddr := List.length addresses in
  let i := List.length (h_addr_list he) in
  let naddrs := (prev_naddr + i)%nat in
  let storage := gpr_realloc zero_resolved_address addresses naddrs in
  let body (i : nat) (a : list grpc_resolved_address) :=
    let a := array_set i zero_resolved_address a in
    array_set i (sockaddr_of hr he (i - prev_naddr)) a in
  set_addrs (Some (for_loop (naddrs - prev_naddr) prev_naddr body storage)) w.

(** ** The completion callbacks *)

(** Lines 274-283 and 320-329, the same text in both callbacks: the error
    built from the status is the new value of [r->error], with the old
    value as its child when there was one. *)
Definition chain_status_error (E : library) (status : Z) (w : world)
  : option world :=
  let error_msg :=
    ("C-ares status is not ARES_SUCCESS: " ++ ares_strerror E status)%string in
  let err := GRPC_ERROR_CREATE error_msg in
  w <- touch FError Load w ;;
  r <- req w ;;
  w <- touch FError Store w ;;
  if is_error_none (error r)
  then Some (set_req (Some (with_error err r)) w)
  else Some (set_req
               (Some (with_error (grpc_error_add_child err (error r)) r)) w).

Definition on_hostbyname_done_cb (E : library)
    (hr : grpc_ares_hostbyname_request) (status : Z) (he : option hostent)
    (w : world) : option world :=
  let w := emit (EvHostDone hr status) w in
  w <- gpr_mu_lock w ;;
  w <- (if status =? ARES_SUCCESS then
          w <- touch FError Load w ;;
          w <- touch FError Store w ;;
          r <- req w ;;
          let w := set_req (Some (with_error GRPC_ERROR_NONE r)) w in
          w <- touch FSuccess Store w ;;
          r <- req w ;;
          let w := set_req (Some (with_success true r)) w in
          he <- he ;;
          if lb_addrs_out r
          then Some (append_lb_addresses hr he w)
          else Some (append_resolved_addresses hr he w)
        else
          w <- touch FSuccess Load w ;;
          r <- req w ;;
          if negb (success r) then chain_status_error E status w
          else Some w) ;;
  w <- gpr_mu_unlock w ;;
  destroy_hostbyname_request None hr w.

(** What c-ares passes to the callback for each outcome. *)
Definition deliver_host (E : library) (hr : grpc_ares_hostbyname_request)
    (o : host_outcome) (w : world) : option world :=
  match o with
  | HostSuccess he => on_hostbyname_done_cb E hr ARES_SUCCESS (Some he) w
  | HostFailure code => on_hostbyname_done_cb E hr (Z.pos code) None w
  end.

(** [ares_gethostbyname] for [hr->host] on the channel of the driver, with
    [on_hostbyname_done_cb] and [hr] as callback and argument: c-ares
    answers at once, or keeps the query. *)
Definition ares_gethostbyname (E : library)
    (hr : grpc_ares_hostbyname_request) (family : Z) (w : world)
  : option world :=
  let w := emit (EvGetHostByName hr family) w in
  match gethostbyname_inline E (hr_host hr) family with
  | Some o => deliver_host E hr o w
  | None => Some (set_inflight (inflight w ++ [QHost hr family]) w)
  end.

(** Lines 300-313: the loop over the records of a parsed SRV reply. *)
Fixpoint srv_reply_loop (E : library) (reply : list ares_srv_reply)
    (w : world) : option world :=
  match reply with
  | [] => Some w
  | srv_it :: next =>
      w <- (if grpc_ipv6_loopback_available E then
              '(hr, w) <- create_hostbyname_request
                            (srv_host srv_it) (srv_port srv_it) true w ;;
              ares_gethostbyname E hr AF_INET6 w
            else Some w) ;;
      '(hr, w) <- create_hostbyname_request
                    (srv_host srv_it) (srv_port srv_it) true w ;;
      w <- ares_gethostbyname E hr AF_INET w ;;
      r <- req w ;;
      let w := emit (EvDriverStart (ev_driver r)) w in
      srv_reply_loop E next w
  end.

Definition on_srv_query_done_cb (E : library) (status : Z)
    (abuf : list Byte.byte) (w : world) : option world :=
  let w := emit (EvSrvDone status) w in
  w <- (if status =? ARES_SUCCESS then
          let '(parse_status, reply) := ares_parse_srv_reply E abuf in
          let w := emit (EvParseSrvReply parse_status reply) w in
          w <- (if parse_status =? ARES_SUCCESS
                then srv_reply_loop E reply w
                else Some w) ;;
          match reply with
          | [] => Some w
          | _ :: _ => Some (emit (EvFreeData reply) w)
          end
        else
          w <- touch FSuccess Load w ;;
          r <- req w ;;
          if negb (success r) then chain_status_error E status w
          else Some w) ;;
  grpc_ares_request_unref (Some StackCtx) w.

Definition deliver_srv (E : library) (o : srv_outcome) (w : world)
  : option world :=
  match o with
  | SrvSuccess abuf => on_srv_query_done_cb E ARES_SUCCESS abuf w
  | SrvFailure code => on_srv_query_done_cb E (Z.pos code) [] w
  end.

(** [ares_query] on the channel of the driver, with [on_srv_query_done_cb]
    and the request as callback and argument. *)
Definition ares_query (E : library) (name : string) (dnsclass type : Z)
    (w : world) : option world :=
  let w := emit (EvQuery name dnsclass type) w in
  match query_inline E name with
  | Some o => deliver_srv E o w
  | None => Some (set_inflight (inflight w ++ [QSrv name]) w)
  end.

(** ** The resolve operations *)

Definition resolve_address_ares_impl (E : library) (name : string)
    (default_port : option string) (interested_parties : pollset_set)
    (on_done_arg : closure) (is_lb_addrs_out : bool) (w : world)
  : option world :=
  let '(host, port) := gpr_split_host_port E name in
  match host with
  | None =>
      let err := grpc_error_set_str
                   (GRPC_ERROR_CREATE "unparseable host:port")
                   GRPC_ERROR_STR_TARGET_ADDRESS name in
      Some (emit (EvClosureSched CallerCtx on_done_arg err) w)
  | Some host =>
      let port_or_error :=
        match port with
        | Some p => inl p
        | None =>
            match default_port with
            | None =>
                inr (grpc_error_set_str
                       (GRPC_ERROR_CREATE "no port in name")
                       GRPC_ERROR_STR_TARGET_ADDRESS name)
            | Some d => inl d
            end
        end in
      match port_or_error with
      | inr err => Some (emit (EvClosureSched CallerCtx on_done_arg err) w)
      | inl port =>
          let '(err, ev_drv) :=
            grpc_ares_ev_driver_create E interested_parties in
          if negb (is_error_none err) then
            Some (emit (EvLogError "grpc_ares_ev_driver_create() failed" err) w)
          else
            let r := mkRequest on_done_arg is_lb_addrs_out ev_drv 1 false
                               false GRPC_ERROR_NONE in
            let w := emit (EvRefInit 1) (set_req (Some r) w) in
            w <- (if grpc_ipv6_loopback_available E then
                    '(hr, w) <- create_hostbyname_request
                                  host (strhtons E port) false w ;;
                    ares_gethostbyname E hr AF_INET6 w
                  else Some w) ;;
            '(hr, w) <- create_hostbyname_request
                          host (strhtons E port) false w ;;
            w <- ares_gethostbyname E hr AF_INET w ;;
            w <- (if is_lb_addrs_out then
                    w <- grpc_ares_request_ref w ;;
                    let service_name := ("_grpclb._tcp." ++ host)%string in
                    ares_query E service_name ns_c_in ns_t_srv w
                  else Some w) ;;
            r <- req w ;;
            let w := emit (EvDriverStart (ev_driver r)) w in
            grpc_ares_request_unref (Some CallerCtx) w
      end
  end.

Definition grpc_resolve_address_ares_impl (E : library) (name : string)
    (default_port : option string) (interested_parties : pollset_set)
    (on_done_arg : closure) (w : world) : option world :=
  resolve_address_ares_impl E name default_port interested_parties
    on_done_arg false w.

Definition grpc_resolve_grpclb_address_ares (E : library) (name : string)
    (default_port : option string) (interested_parties : pollset_set)
    (on_done_arg : closure) (w : world) : option world :=
  resolve_address_ares_impl E name default_port interested_parties
    on_done_arg true w.

(** ** The library completes queries *)

Fixpoint remove_nth {A : Type} (i : nat) (l : list A) : list A :=
  match l, i with
  | [], _ => []
  | _ :: l', O => l'
  | x :: l', Datatypes.S i' => x :: remove_nth i' l'
  end.

(** c-ares ends the [i]-th query it holds with outcome [o] and runs the
    callback registered for it.  [None] also when there is no such query or
    the outcome is of the other kind. *)
Definition complete (E : library) (w : world) (c : nat * outcome)
  : option world :=
  let '(i, o) := c in
  match nth_error (inflight w) i, o with
  | Some (QHost hr _), OHost o =>
      deliver_host E hr o (set_inflight (remove_nth i (inflight w)) w)
  | Some (QSrv _), OSrv o =>
      deliver_srv E o (set_inflight (remove_nth i (inflight w)) w)
  | _, _ => None
  end.

Fixpoint run (E : library) (w : world) (cs : list (nat * outcome))
  : option world :=
  match cs with
  | [] => Some w
  | c :: cs' => w' <- complete E w c ;; run E w' cs'
  end.

(** The world of a caller about to resolve: no request yet, nothing in
    flight, and whatever the caller left in the two output slots. *)
Definition fresh_world (a : option (list grpc_resolved_address))
    (l : option (list grpc_lb_address)) : world :=
  mkWorld None a l [] [] [].

(** ** Reading a trace *)

Definition is_ref_init (e : event) : bool :=
  match e with EvRefInit _ => true | _ => false end.
Definition is_ref (e : event) : bool :=
  match e with EvRef _ => true | _ => false end.
Definition is_unref (e : event) : bool :=
  match e with EvUnref _ => true | _ => false end.
Definition is_issue (e : event) : bool :=
  match e with EvGetHostByName _ _ | EvQuery _ _ _ => true | _ => false end.
Definition is_query (e : event) : bool :=
  match e with EvQuery _ _ _ => true | _ => false end.
Definition is_done (e : event) : bool :=
  match e with EvHostDone _ _ | EvSrvDone _ => true | _ => false end.
Definition is_host_done (e : event) : bool :=
  match e with EvHostDone _ _ => true | _ => false end.
Definition is_sched (e : event) : bool :=
  match e with EvClosureSched _ _ _ => true | _ => false end.
Definition is_teardown (e : event) : bool :=
  match e with
  | EvClosureSched _ _ _ | EvMuDestroy | EvDriverDestroy _ | EvFree => true
  | _ => false
  end.

(** How often events of one kind occur. *)
Definition count (p : event -> bool) (t : list event) : Z :=
  Z.of_nat (List.length (filter p t)).

(** No [gpr_unref] in the trace found the count at 1 (or below). *)
Definition prior_above_one (e : event) : bool :=
  match e with EvUnref p => 1 <? p | _ => true end.

(** Every query in the trace is handed to c-ares right after a [gpr_ref]:
    [prev] tells whether the event before the list was one. *)
Fixpoint refs_before_issues (prev : bool) (t : list event) : bool :=
  match t with
  | [] => true
  | e :: t' =>
      (if is_issue e then prev else true) && refs_before_issues (is_ref e) t'
  end.

Definition ends_with_ref (prev : bool) (t : list event) : bool :=
  match rev t with
  | [] => prev
  | e :: _ => is_ref e
  end.

(** What the last [gpr_unref] of a request appends to the trace. *)
Definition teardown (ctx : exec_ctx) (r : grpc_ares_request) : list event :=
  [EvUnref 1; EvClosureSched ctx (on_done r) (error r); EvMuDestroy;
   EvDriverDestroy (ev_driver r); EvFree].

(** ** What the functions do to an open request *)

Definition ctx_or_stack (ctx : option exec_ctx) : exec_ctx :=
  match ctx with Some c => c | None => StackCtx end.

(** The status-dependent part of a hostname completion: what it leaves in
    [success] and [error]. *)
Definition chained (E : library) (status : Z) (e : grpc_error) : grpc_error :=
  let err :=
    GRPC_ERROR_CREATE
      ("C-ares status is not ARES_SUCCESS: " ++ ares_strerror E status) in
  if is_error_none e then err else grpc_error_add_child err e.

Definition fold_failure (E : library) (status : Z) (r : grpc_ares_request)
  : grpc_ares_request :=
  if success r then r else with_error (chained E status (error r)) r.

Definition fold_host (E : library) (status : Z) (r : grpc_ares_request)
  : grpc_ares_request :=
  if status =? ARES_SUCCESS
  then with_success true (with_error GRPC_ERROR_NONE r)
  else fold_failure E status r.

Definition failure_accesses (held : bool) (r : grpc_ares_request)
  : list access :=
  if success r then [mkAccess FSuccess Load held]
  else [mkAccess FSuccess Load held; mkAccess FError Load held;
        mkAccess FError Store held].

Definition host_accesses (status : Z) (r : grpc_ares_request) : list access :=
  if status =? ARES_SUCCESS
  then [mkAccess FError Load true; mkAccess FError Store true;
        mkAccess FSuccess Store true]
  else failure_accesses true r.

(** The slots after a hostname completion. *)
Definition fold_slots (hr : grpc_ares_hostbyname_request) (status : Z)
    (he : option hostent) (r : grpc_ares_request) (w : world) : world :=
  match he with
  | Some h =>
      if status =? ARES_SUCCESS then
        if lb_addrs_out r then append_lb_addresses hr h w
        else append_resolved_addresses hr h w
      else w
  | None => w
  end.

(** [ares_free_data] on the reply, when the holder is not null. *)
Definition free_reply (reply : list ares_srv_reply) (w : world) : world :=
  match reply with
  | [] => w
  | _ :: _ => emit (EvFreeData reply) w
  end.

(** ** The counting invariant

    [Counted cb drv k a w r]: the request [r] of [w] is open, the running
    code holds [k] of its references, and [a] queries (0 or 1) have been
    handed to c-ares and are being answered without having been put in
    [inflight]. *)
Record Counted (cb : closure) (drv : driver) (k a : Z) (w : world)
    (r : grpc_ares_request) : Prop := mkCounted {
  c_req : req w = Some r;
  c_cb : on_done r = cb;
  c_drv : ev_driver r = drv;
  c_mu : mu_locked r = false;
  c_pending : pending_queries r = Z.of_nat (List.length (inflight w)) + k;
  c_refs : count is_ref (trace w) = count is_issue (trace w);
  c_order : refs_before_issues false (trace w) = true;
  c_unrefs : count is_unref (trace w) + k = count is_done (trace w) + 1 + a;
  c_inflight : Z.of_nat (List.length (inflight w)) + a
               = count is_issue (trace w) - count is_done (trace w);
  c_live : count is_teardown (trace w) = 0;
  c_priors : forallb prior_above_one (trace w) = true;
  c_init : hd_error (trace w) = Some (EvRefInit 1);
  c_init1 : count is_ref_init (trace w) = 1
}.

(** [Finished cb drv w]: the request is gone, and the trace ends with the
    one teardown. *)
Definition Finished (cb : closure) (drv : driver) (w : world) : Prop :=
  req w = None /\ inflight w = [] /\
  exists t ctx e,
    trace w = t ++ [EvUnref 1; EvClosureSched ctx cb e; EvMuDestroy;
                    EvDriverDestroy drv; EvFree] /\
    count is_ref t = count is_issue t /\
    refs_before_issues false t = true /\
    count is_unref t = count is_done t /\
    count is_issue t = count is_done t /\
    count is_teardown t = 0 /\
    forallb prior_above_one t = true /\
    hd_error t = Some (EvRefInit 1) /\
    count is_ref_init t = 1.

(** Between two calls: the request is open and waits for queries, or it is
    finished. *)
Definition Quiescent (cb : closure) (drv : driver) (w : world) : Prop :=
  (exists r, Counted cb drv 0 0 w r /\ inflight w <> []) \/ Finished cb drv w.

(** Events that are neither counted nor part of a teardown. *)
Definition is_neutral (e : event) : bool :=
  match e with
  | EvParseSrvReply _ _ | EvFreeData _ | EvLogError _ _ | EvDriverStart _ =>
      true
  | _ => false
  end.

(** ** Whole runs *)

(** [c] names a query that c-ares holds, with an outcome of its kind. *)
Definition answers (w : world) (c : nat * outcome) : Prop :=
  match nth_error (inflight w) (fst c), snd c with
  | Some (QHost _ _), OHost _ => True
  | Some (QSrv _), OSrv _ => True
  | _, _ => False
  end.

(** The resolve call gets as far as creating its request. *)
Definition creates_request (E : library) (name : string)
    (default_port : option string) (ip : pollset_set) : Prop :=
  fst (gpr_split_host_port E name) <> None /\
  (snd (gpr_split_host_port E name) <> None \/ default_port <> None) /\
  fst (grpc_ares_ev_driver_create E ip) = GRPC_ERROR_NONE.

(** ** A library to run the file against

    Names split at their only colon, IPv6 loopback is there, the driver is
    created, the host is little-endian, the SRV parser finds one target,
    and c-ares keeps every query for later. *)
Definition example_split (s : string) : option string * option string :=
  match index 0 ":" s with
  | Some n =>
      (Some (substring 0 n s),
       Some (substring (Datatypes.S n) (String.length s - n - 1) s))
  | None =>
      if String.eqb s "" then (None, None) else (Some s, None)
  end.

Definition example_library : library :=
  mkLibrary example_split true (fun _ => (GRPC_ERROR_NONE, 7%nat))
    (fun _ => "DNS server returned answer with no data"%string)
    (fun _ => (ARES_SUCCESS, [mkSrv "lb.example.com" 0 0 443]))
    true (fun _ _ => None) (fun _ => None).

(** The world after a load-balancer resolve of "svc.example.com:443" with
    that library: three queries are out. *)
Definition example_open_world : world :=
  Eval vm_compute in
    match grpc_resolve_grpclb_address_ares example_library
            "svc.example.com:443" None 0%nat 5%nat (fresh_world None None)
    with
    | Some w => w
    | None => fresh_world None None
    end.

(** What holds of the world [w1] a resolve call returns with, whatever
    c-ares does afterwards. *)
Definition lifecycle (E : library) (cb : closure) (drv : driver)
    (w1 : world) : Prop :=
  forall cs w, run E w1 cs = Some w ->
    let t := trace w in
    (* the count starts at 1 *)
    hd_error t = Some (EvRefInit 1) /\ count is_ref_init t = 1 /\
    (* one increment per query, right before it is handed over *)
    count is_ref t = count is_issue t /\
    refs_before_issues false t = true /\
    (* one decrement per callback run, and the creator's *)
    count is_unref t = count is_done t + 1 /\
    Z.of_nat (List.length (inflight w)) = count is_issue t - count is_done t /\
    (* c-ares can always go on *)
    (forall c, answers w c -> exists w', complete E w c = Some w') /\
    match req w with
    | Some r =>
        (* open: queries are out, nothing of the teardown has happened *)
        inflight w <> [] /\
        pending_queries r = Z.of_nat (List.length (inflight w)) /\
        count is_teardown t = 0 /\
        forallb prior_above_one t = true
    | None =>
        (* gone: no query is out, and the trace ends with the decrement
           from 1, the callback, and the three releases, found nowhere
           before *)
        inflight w = [] /\
        exists t0 ctx e,
          t = t0 ++ [EvUnref 1; EvClosureSched ctx cb e; EvMuDestroy;
                     EvDriverDestroy drv; EvFree] /\
          count is_teardown t0 = 0 /\
          forallb prior_above_one t0 = true
    end.

(** ** What a function appends to the trace *)

(** Events a callback or a release appends by itself. *)
Definition is_closing (e : event) : bool :=
  is_done e || is_unref e || is_teardown e.

(** [f] selects none of the events that every call appends: entries of
    callbacks, reference counting and the teardown. *)
Definition quiet (f : event -> bool) : Prop :=
  forall e, is_closing e = true \/ is_ref e = true -> f e = false.

(** [r'] is [r] but for the count, the mutex, [success] and [error]. *)
Definition static (r r' : grpc_ares_request) : Prop :=
  on_done r' = on_done r /\ ev_driver r' = ev_driver r /\
  lb_addrs_out r' = lb_addrs_out r.

(** The two queries and the restart of the driver that one SRV target
    record leads to. *)
Definition per_record (E : library) (drv : driver) (s : ares_srv_reply)
  : list event :=
  (if grpc_ipv6_loopback_available E
   then [EvGetHostByName (mkHostRequest (srv_host s) (srv_port s) true)
           AF_INET6]
   else []) ++
  [EvGetHostByName (mkHostRequest (srv_host s) (srv_port s) true) AF_INET;
   EvDriverStart drv].

Definition free_events (reply : list ares_srv_reply) : list event :=
  match reply with
  | [] => []
  | _ :: _ => [EvFreeData reply]
  end.

(** What an SRV callback does besides counting: parse, issue, release. *)
Definition srv_events (E : library) (drv : driver) (status : Z)
    (abuf : list Byte.byte) : list event :=
  if status =? ARES_SUCCESS then
    let ps := fst (ares_parse_srv_reply E abuf) in
    let reply := snd (ares_parse_srv_reply E abuf) in
    [EvParseSrvReply ps reply] ++
    (if ps =? ARES_SUCCESS then flat_map (per_record E drv) reply else []) ++
    free_events reply
  else [].

Definition status_of (o : srv_outcome) : Z :=
  match o with SrvSuccess _ => ARES_SUCCESS | SrvFailure code => Z.pos code end.
Definition abuf_of (o : srv_outcome) : list Byte.byte :=
  match o with SrvSuccess abuf => abuf | SrvFailure _ => [] end.

(** What a resolve call that creates its request does besides counting. *)
Definition resolve_events (E : library) (host port : string) (lb : bool)
    (drv : driver) : list event :=
  [EvRefInit 1] ++
  (if grpc_ipv6_loopback_available E
   then [EvGetHostByName (mkHostRequest host (strhtons E port) false)
           AF_INET6]
   else []) ++
  [EvGetHostByName (mkHostRequest host (strhtons E port) false) AF_INET] ++
  (if lb then
     EvQuery ("_grpclb._tcp." ++ host) ns_c_in ns_t_srv
     :: match query_inline E ("_grpclb._tcp." ++ host) with
        | Some o => srv_events E drv (status_of o) (abuf_of o)
        | None => []
        end
   else []) ++
  [EvDriverStart drv].

(** The port string that governs a resolve call. *)
Definition governing_port (port default_port : option string)
  : option string :=
  match port with Some p => Some p | None => default_port end.

(** [w] is a world that a resolve call on fresh slots, followed by
    completions of c-ares, leads to. *)
Definition reachable (E : library) (name : string)
    (default_port : option string) (ip : pollset_set) (cb : closure)
    (lb : bool) (a : option (list grpc_resolved_address))
    (l : option (list grpc_lb_address)) (w : world) : Prop :=
  exists w1 cs,
    resolve_address_ares_impl E name default_port ip cb lb (fresh_world a l)
    = Some w1 /\ run E w1 cs = Some w.

(** ** Selecting events *)

(** Hostname queries for the target of the call itself. *)
Definition is_direct_query (e : event) : bool :=
  match e with
  | EvGetHostByName hr _ => negb (hr_is_balancer hr)
  | _ => false
  end.

(** Queries handed to c-ares and restarts of the driver. *)
Definition is_issuance (e : event) : bool :=
  match e with
  | EvGetHostByName _ _ | EvQuery _ _ _ | EvDriverStart _ => true
  | _ => false
  end.

(** Calls of the SRV parser and of [ares_free_data]. *)
Definition is_parse_or_free (e : event) : bool :=
  match e with
  | EvParseSrvReply _ _ | EvFreeData _ => true
  | _ => false
  end.

(** The example library, but the event driver cannot be created. *)
Definition example_library_without_driver : library :=
  mkLibrary example_split true
    (fun _ => (GRPC_ERROR_CREATE "ares_init_options failed", 0%nat))
    (ares_strerror example_library) (ares_parse_srv_reply example_library)
    true (fun _ _ => None) (fun _ => None).

(** An IPv4 host entry with one address. *)
Definition example_hostent : hostent :=
  mkHostent AF_INET [[Byte.x0a; Byte.x00; Byte.x00; Byte.x07]].

(** ** The loops that fill the output lists *)

(** The entry that one returned address leads to. *)
Definition address_of (hr : grpc_ares_hostbyname_request) (he : hostent)
    (bytes : list Byte.byte) : grpc_resolved_address :=
  if h_addrtype he =? AF_INET6 then
    mkResolved (mkSockaddr (to_sa_family_t (h_addrtype he)) (hr_port hr)
                           (firstn sizeof_in6_addr bytes))
               sizeof_sockaddr_in6
  else
    mkResolved (mkSockaddr (to_sa_family_t (h_addrtype he)) (hr_port hr)
                           (firstn sizeof_in_addr bytes))
               sizeof_sockaddr_in.

Definition lb_address_of (hr : grpc_ares_hostbyname_request) (he : hostent)
    (bytes : list Byte.byte) : grpc_lb_address :=
  mkLb (address_of hr he bytes) (hr_is_balancer hr)
       (if hr_is_balancer hr then Some (hr_host hr) else None) None.

(** The entries of a slot, none when it is absent. *)
Definition stored {A : Type} (slot : option (list A)) : list A :=
  match slot with Some l => l | None => [] end.

(** ** The outcome invariant *)

Definition is_host_success (e : event) : bool :=
  match e with EvHostDone _ status => status =? ARES_SUCCESS | _ => false end.

Definition is_host_query (q : query) : bool :=
  match q with QHost _ _ => true | QSrv _ => false end.

(** The slot of the output mode holds a list. *)
Definition populated (lb : bool) (w : world) : bool :=
  if lb then match lb_addrs w with Some _ => true | None => false end
  else match addrs w with Some _ => true | None => false end.

(** [Settled lb a0 l0 w r]: [success] tells whether a hostname completion
    has succeeded, [error] is empty when one has and not empty when none
    has but one has failed, and the slot of the mode is populated exactly
    when [success] is set or the caller left a list there; the slot of the
    other mode is what the caller left there. *)
Record Settled (lb : bool) (a0 : option (list grpc_resolved_address))
    (l0 : option (list grpc_lb_address)) (w : world)
    (r : grpc_ares_request) : Prop := mkSettled {
  s_lb : lb_addrs_out r = lb;
  s_succ : success r = existsb is_host_success (trace w);
  s_err : success r = true -> error r = GRPC_ERROR_NONE;
  s_fail : success r = false -> existsb is_host_done (trace w) = true ->
           is_error_none (error r) = false;
  s_slot : populated lb w = success r || populated lb (fresh_world a0 l0);
  s_other : if lb then addrs w = a0 else lb_addrs w = l0
}.

(** A hostname query is out or has completed. *)
Definition Seen (w : world) : Prop :=
  existsb is_host_query (inflight w) || existsb is_host_done (trace w) = true.

(** The request is gone and [on_done] was scheduled with no error exactly
    when a hostname completion had succeeded, which is also when the slot
    is populated, unless the caller left a list there. *)
Definition Closed (lb : bool) (a0 : option (list grpc_resolved_address))
    (l0 : option (list grpc_lb_address)) (w : world) : Prop :=
  exists t0 ctx cb e drv,
    trace w = t0 ++ [EvUnref 1; EvClosureSched ctx cb e; EvMuDestroy;
                     EvDriverDestroy drv; EvFree] /\
    is_error_none e = existsb is_host_success t0 /\
    populated lb w
    = existsb is_host_success t0 || populated lb (fresh_world a0 l0) /\
    existsb is_host_done t0 = true /\
    (if lb then addrs w = a0 else lb_addrs w = l0).

Definition Tally (lb : bool) (a0 : option (list grpc_resolved_address))
    (l0 : option (list grpc_lb_address)) (w : world) : Prop :=
  match req w with
  | Some r => Settled lb a0 l0 w r /\ Seen w
  | None => inflight w = [] -> Closed lb a0 l0 w
  end.

(** The caller left the slot of the output mode absent. *)
Definition slot_absent (lb : bool) (a : option (list grpc_resolved_address))
    (l : option (list grpc_lb_address)) : Prop :=
  match lb with true => l = None | false => a = None end.







(** ** Byte order, the other way

    [ntohs], which the hostname callback applies to [hr->port] for its
    debug lines (lines 201, 220, 254 and 269): the same swap as [htons]. *)
Definition ntohs (E : library) (x : Z) : Z :=
  if little_endian E
  then Z.lor (Z.shiftl (Z.land x 255) 8) (Z.land (Z.shiftr x 8) 255)
  else Z.land x 65535.

(** ** Process-wide initialisation

    [g_basic_init], [g_init_mu] and the calls that [grpc_ares_init] and
    [grpc_ares_cleanup] make, in order.  [g_init_mu] is [None] until
    [gpr_mu_init] has run on it, then [Some held]. *)

Definition ARES_LIB_INIT_ALL : Z := 1.

Inductive global_event : Type :=
| GMuInit
| GMuLock
| GMuUnlock
| GLibraryInit (flags status : Z)
| GLibraryCleanup.

Record globals : Type := mkGlobals {
  g_basic_init : bool;
  g_init_mu : option bool;
  g_calls : list global_event
}.

(** The globals of a process that has not called into the file. *)
Definition pristine : globals := mkGlobals false None [].

Definition call (e : global_event) (g : globals) : globals :=
  mkGlobals (g_basic_init g) (g_init_mu g) (g_calls g ++ [e]).

Definition do_basic_init (g : globals) : globals :=
  call GMuInit (mkGlobals (g_basic_init g) (Some false) (g_calls g)).

(** [gpr_once_init (&g_basic_init, init)]. *)
Definition gpr_once_init (init : globals -> globals) (g : globals) : globals :=
  if g_basic_init g then g
  else init (mkGlobals true (g_init_mu g) (g_calls g)).

(** [gpr_mu_lock (&g_init_mu)] and [gpr_mu_unlock (&g_init_mu)]: no result
    on a mutex that was never initialised, that the caller holds already,
    or that is not held. *)
Definition lock_init_mu (g : globals) : option globals :=
  match g_init_mu g with
  | Some false =>
      Some (call GMuLock (mkGlobals (g_basic_init g) (Some true) (g_calls g)))
  | _ => None
  end.

Definition unlock_init_mu (g : globals) : option globals :=
  match g_init_mu g with
  | Some true =>
      Some (call GMuUnlock
              (mkGlobals (g_basic_init g) (Some false) (g_calls g)))
  | _ => None
  end.

(** [status] is what [ares_library_init] answers. *)
Definition grpc_ares_init (E : library) (status : Z) (g : globals)
  : option (grpc_error * globals) :=
  let g := gpr_once_init do_basic_init g in
  g <- lock_init_mu g ;;
  let g := call (GLibraryInit ARES_LIB_INIT_ALL status) g in
  g <- unlock_init_mu g ;;
  if negb (status =? ARES_SUCCESS) then
    let error_msg :=
      ("ares_library_init failed: " ++ ares_strerror E status)%string in
    Some (GRPC_ERROR_CREATE error_msg, g)
  else Some (GRPC_ERROR_NONE, g).

Definition grpc_ares_cleanup (g : globals) : option globals :=
  g <- lock_init_mu g ;;
  let g := call GLibraryCleanup g in
  unlock_init_mu g.

(** What a process does with the two entry points, one call after the
    other, and the errors the calls of [grpc_ares_init] return. *)
Inductive global_op : Type :=
| OpInit (status : Z)
| OpCleanup.

Fixpoint run_globals (E : library) (ops : list global_op) (g : globals)
  : option (list grpc_error * globals) :=
  match ops with
  | [] => Some ([], g)
  | OpInit status :: ops' =>
      '(err, g) <- grpc_ares_init E status g ;;
      '(errs, g) <- run_globals E ops' g ;;
      Some (err :: errs, g)
  | OpCleanup :: ops' =>
      g <- grpc_ares_cleanup g ;;
      run_globals E ops' g
  end.

(** The calls one operation makes once the mutex exists. *)
Definition calls_of (op : global_op) : list global_event :=
  match op with
  | OpInit status =>
      [GMuLock; GLibraryInit ARES_LIB_INIT_ALL status; GMuUnlock]
  | OpCleanup => [GMuLock; GLibraryCleanup; GMuUnlock]
  end.

Definition init_error (E : library) (status : Z) : grpc_error :=
  if status =? ARES_SUCCESS then GRPC_ERROR_NONE
  else GrpcError ("ares_library_init failed: " ++ ares_strerror E status)
         [] [].

Definition init_errors (E : library) (ops : list global_op)
  : list grpc_error :=
  flat_map (fun op => match op with
                      | OpInit status => [init_error E status]
                      | OpCleanup => []
                      end) ops.

(** ** Invariants of a request, in general

    A judgement [P] on [success], [error], the two slots and the trace, and
    a property [G] of hostname sub-requests, are carried through every
    function when each elementary effect of the file preserves them. *)

Definition judgement : Type :=
  bool -> grpc_error -> option (list grpc_resolved_address) ->
  option (list grpc_lb_address) -> list event -> Prop.

(** [success] and [error] after a hostname completion with [status]. *)
Definition next_success (status : Z) (s : bool) : bool :=
  if status =? ARES_SUCCESS then true else s.

Definition next_error (E : library) (status : Z) (s : bool) (e : grpc_error)
  : grpc_error :=
  if status =? ARES_SUCCESS then GRPC_ERROR_NONE
  else if s then e else chained E status e.

(** [error] after an SRV completion with [status]. *)
Definition next_srv_error (E : library) (status : Z) (s : bool)
    (e : grpc_error) : grpc_error :=
  if status =? ARES_SUCCESS then e
  else if s then e else chained E status e.

(** The two slots after a hostname completion in output mode [lb]. *)
Definition next_addrs (lb : bool) (hr : grpc_ares_hostbyname_request)
    (status : Z) (he : option hostent)
    (a : option (list grpc_resolved_address))
  : option (list grpc_resolved_address) :=
  match he with
  | Some h =>
      if (status =? ARES_SUCCESS) && negb lb
      then Some (stored a ++ map (address_of hr h) (h_addr_list h))
      else a
  | None => a
  end.

Definition next_lb_addrs (lb : bool) (hr : grpc_ares_hostbyname_request)
    (status : Z) (he : option hostent) (l : option (list grpc_lb_address))
  : option (list grpc_lb_address) :=
  match he with
  | Some h =>
      if (status =? ARES_SUCCESS) && lb
      then Some (stored l ++ map (lb_address_of hr h) (h_addr_list h))
      else l
  | None => l
  end.

(** Events of reference counting and restarts of the driver. *)
Definition is_bookkeeping (e : event) : bool :=
  match e with
  | EvRef _ | EvUnref _ | EvDriverStart _ => true
  | _ => false
  end.

(** Events that only the load-balancer mode leads to. *)
Definition is_srv_side (e : event) : bool :=
  match e with
  | EvQuery _ _ _ | EvParseSrvReply _ _ | EvFreeData _ => true
  | _ => false
  end.

Record Preserved (E : library) (lb : bool)
    (G : grpc_ares_hostbyname_request -> Prop) (P : judgement) : Prop :=
  mkPreserved {
  p_book : forall s e a l t ev,
    is_bookkeeping ev = true -> P s e a l t -> P s e a l (t ++ [ev]);
  p_issue : forall s e a l t hr fam,
    G hr -> P s e a l t -> P s e a l (t ++ [EvGetHostByName hr fam]);
  p_srv_side : forall s e a l t ev,
    lb = true -> is_srv_side ev = true -> P s e a l t ->
    P s e a l (t ++ [ev]);
  p_host : forall s e a l t hr status he,
    G hr -> (status = ARES_SUCCESS -> he <> None) -> P s e a l t ->
    P (next_success status s) (next_error E status s e)
      (next_addrs lb hr status he a) (next_lb_addrs lb hr status he l)
      (t ++ [EvHostDone hr status]);
  p_srv : forall s e a l t status,
    lb = true -> P s e a l t ->
    P s (next_srv_error E status s e) a l (t ++ [EvSrvDone status]);
  p_target : forall abuf s,
    lb = true -> fst (ares_parse_srv_reply E abuf) = ARES_SUCCESS ->
    In s (snd (ares_parse_srv_reply E abuf)) ->
    G (mkHostRequest (srv_host s) (srv_port s) true)
}.

(** What [G] asks of a query that c-ares holds. *)
Definition Gq (lb : bool) (G : grpc_ares_hostbyname_request -> Prop)
    (q : query) : Prop :=
  match q with
  | QHost hr _ => G hr
  | QSrv _ => lb = true
  end.

(** The request [r] of [w] is open and the judgement holds. *)
Definition Kept (lb : bool) (G : grpc_ares_hostbyname_request -> Prop)
    (P : judgement) (w : world) (r : grpc_ares_request) : Prop :=
  lb_addrs_out r = lb /\
  P (success r) (error r) (addrs w) (lb_addrs w) (trace w) /\
  Forall (Gq lb G) (inflight w).

(** The request is gone: the trace ends with its teardown, on the context
    [ctx], and the judgement held right before. *)
Definition Ended (lb : bool) (P : judgement) (ctx : exec_ctx) (w : world)
  : Prop :=
  exists t0 r1,
    trace w = t0 ++ teardown ctx r1 /\ lb_addrs_out r1 = lb /\
    P (success r1) (error r1) (addrs w) (lb_addrs w) t0.

Definition Post (lb : bool) (G : grpc_ares_hostbyname_request -> Prop)
    (P : judgement) (ctx : exec_ctx) (w : world) : Prop :=
  match req w with
  | Some r => Kept lb G P w r
  | None => Ended lb P ctx w
  end.

(** ** Judgements about the output and the error *)

(** The judgement that asks nothing. *)
Definition any_request (hr : grpc_ares_hostbyname_request) : Prop := True.
Definition any_state : judgement := fun _ _ _ _ _ => True.

(** The slot of the other output mode is what the caller left there. *)
Definition other_slot_kept (lb : bool)
    (a0 : option (list grpc_resolved_address))
    (l0 : option (list grpc_lb_address)) : judgement :=
  fun _ _ a l _ => if lb then a = a0 else l = l0.

(** Events of a resolve call that never looks for balancers. *)
Definition is_plain_event (e : event) : bool :=
  match e with
  | EvQuery _ _ _ | EvSrvDone _ | EvParseSrvReply _ _ | EvFreeData _ => false
  | EvGetHostByName hr _ | EvHostDone hr _ => negb (hr_is_balancer hr)
  | _ => true
  end.

Definition not_balancer (hr : grpc_ares_hostbyname_request) : Prop :=
  hr_is_balancer hr = false.

Definition plain_trace : judgement :=
  fun _ _ _ _ t => forallb is_plain_event t = true.

Definition is_plain_query (q : query) : bool :=
  match q with
  | QHost hr _ => negb (hr_is_balancer hr)
  | QSrv _ => false
  end.

(** [new] holds what [old] held, in place, and maybe more after it. *)
Definition extends {A : Type} (old new : option (list A)) : Prop :=
  (exists tail, stored new = stored old ++ tail) /\
  (old <> None -> new <> None).

Definition slots_extend (a0 : option (list grpc_resolved_address))
    (l0 : option (list grpc_lb_address)) : judgement :=
  fun _ _ a l _ => extends a0 a /\ extends l0 l.

(** The shape of an entry: the size of one of the two socket address
    structures, with no more address bytes than the structure has room
    for; the larger size only with the IPv6 family. *)
Definition wf_address (x : grpc_resolved_address) : Prop :=
  0 <= sa_family (addr x) < 65536 /\
  ((len x = sizeof_sockaddr_in6 /\ sa_family (addr x) = AF_INET6 /\
    (List.length (sa_addr (addr x)) <= sizeof_in6_addr)%nat) \/
   (len x = sizeof_sockaddr_in /\
    (List.length (sa_addr (addr x)) <= sizeof_in_addr)%nat)).

Definition wf_lb_address (x : grpc_lb_address) : Prop :=
  wf_address (address x) /\ user_data x = None /\
  (balancer_name x = None <-> is_balancer x = false).

Definition entries_wf : judgement :=
  fun _ _ a l _ => Forall wf_address (stored a) /\
                   Forall wf_lb_address (stored l).

(** [host] and [port] are those of a target record in an SRV reply that
    the parser accepts. *)
Definition from_srv_record (E : library) (host : string) (port : Z) : Prop :=
  exists abuf s,
    fst (ares_parse_srv_reply E abuf) = ARES_SUCCESS /\
    In s (snd (ares_parse_srv_reply E abuf)) /\
    host = srv_host s /\ port = srv_port s.

(** Where a sub-request comes from: the resolve call, with the port
    [direct_port], or a target record. *)
Definition request_origin (E : library) (lb : bool) (direct_port : Z)
    (hr : grpc_ares_hostbyname_request) : Prop :=
  (lb = false -> hr_is_balancer hr = false) /\
  if hr_is_balancer hr
  then from_srv_record E (hr_host hr) (hr_port hr)
  else hr_port hr = direct_port.

Definition entry_origin (E : library) (direct_port : Z)
    (x : grpc_lb_address) : Prop :=
  if is_balancer x
  then exists name, balancer_name x = Some name /\
         from_srv_record E name (sa_port (addr (address x)))
  else balancer_name x = None /\ sa_port (addr (address x)) = direct_port.

Definition entries_origin (E : library) (lb : bool) (direct_port : Z)
  : judgement :=
  fun _ _ a l _ =>
    if lb then Forall (entry_origin E direct_port) (stored l)
    else Forall (fun x => sa_port (addr x) = direct_port) (stored a).





(** The one event of a resolve call that creates no request. *)
Definition is_refusal (e : event) : bool :=
  match e with
  | EvClosureSched CallerCtx _ _ | EvLogError _ _ => true
  | _ => false
  end.

(** Two more worlds of the example: after the SRV query and the IPv6 query
    have failed, and after the IPv4 query has then succeeded. *)
Definition example_failed_world : world :=
  Eval vm_compute in
    match run example_library example_open_world
            [(2%nat, OSrv (SrvFailure 4)); (0%nat, OHost (HostFailure 11))]
    with
    | Some w => w
    | None => fresh_world None None
    end.

Definition example_closed_world : world :=
  Eval vm_compute in
    match complete example_library example_failed_world
            (0%nat, OHost (HostSuccess example_hostent))
    with
    | Some w => w
    | None => fresh_world None None
    end.

(** ** Counting addresses *)

(** The addresses in the host entries of the successful hostname
    completions of a schedule. *)
Fixpoint addresses_returned (cs : list (nat * outcome)) : nat :=
  match cs with
  | [] => 0
  | (_, OHost (HostSuccess he)) :: cs' =>
      List.length (h_addr_list he) + addresses_returned cs'
  | _ :: cs' => addresses_returned cs'
  end.

(** The number of entries in the slot of the output mode. *)
Definition slot_length (lb : bool) (w : world) : nat :=
  if lb then List.length (stored (lb_addrs w))
  else List.length (stored (addrs w)).

(** c-ares keeps every hostname query for later. *)
Definition hostnames_deferred (E : library) : Prop :=
  forall host family, gethostbyname_inline E host family = None.


(** ** What completions leave in [success] and [error] *)










(** * Proofs *)

(** ** Traces and arrays *)

Lemma count_app p t d : count p (t ++ d) = count p t + count p d.
Proof.
  unfold count. rewrite filter_app, length_app. lia.
Qed.

Lemma ends_with_ref_snoc prev t e : ends_with_ref prev (t ++ [e]) = is_ref e.
Proof.
  unfold ends_with_ref. rewrite rev_app_distr. reflexivity.
Qed.

Lemma refs_before_issues_app t : forall prev d,
  refs_before_issues prev (t ++ d)
  = refs_before_issues prev t
    && refs_before_issues (ends_with_ref prev t) d.
Proof.
  induction t as [|e t IH]; intros prev d.
  - reflexivity.
  - cbn [app refs_before_issues]. rewrite IH, andb_assoc. f_equal. f_equal.
    unfold ends_with_ref. cbn [rev].
    destruct (rev t) as [|x l] eqn:R; reflexivity.
Qed.

Lemma array_set_app_here {A} (x y : A) (a b : list A) :
  array_set (List.length a) x (a ++ y :: b) = a ++ x :: b.
Proof.
  induction a as [|z a IH]; cbn; [reflexivity | now rewrite IH].
Qed.

(** ** Port strings *)

Lemma strhtons_cases E port :
  strhtons E "http" = htons E 80 /\
  strhtons E "https" = htons E 443 /\
  (port <> "http"%string -> port <> "https"%string ->
   strhtons E port = htons E (atoi port mod 65536)).
Proof.
  split; [reflexivity|]. split; [reflexivity|]. intros H1 H2.
  unfold strhtons, to_unsigned_short.
  destruct (String.eqb_spec port "http"); [contradiction|].
  destruct (String.eqb_spec port "https"); [contradiction|].
  reflexivity.
Qed.

Example atoi_decimal : atoi "5000" = 5000.
Proof. reflexivity. Qed.

Example atoi_not_a_number : atoi "grpc" = 0.
Proof. reflexivity. Qed.

Example strhtons_truncates :
  strhtons example_library "70000" = htons example_library 4464.
Proof. reflexivity. Qed.

Example htons_little_endian : htons example_library 80 = 20480.
Proof. reflexivity. Qed.

(** ** The callbacks, unfolded *)

Lemma unref_last ctx w r :
  req w = Some r -> pending_queries r = 1 ->
  grpc_ares_request_unref ctx w
  = Some (mkWorld None (addrs w) (lb_addrs w) (inflight w)
            (trace w ++ teardown (ctx_or_stack ctx) r) (accesses w)).
Proof.
  intros Hr Hp. unfold grpc_ares_request_unref. rewrite Hr, Hp.
  destruct ctx; unfold emit, set_req; cbn; rewrite <- !app_assoc;
    reflexivity.
Qed.

Lemma unref_more ctx w r :
  req w = Some r -> pending_queries r <> 1 ->
  grpc_ares_request_unref ctx w
  = Some (mkWorld (Some (with_pending (pending_queries r - 1) r)) (addrs w)
            (lb_addrs w) (inflight w)
            (trace w ++ [EvUnref (pending_queries r)]) (accesses w)).
Proof.
  intros Hr Hp. unfold grpc_ares_request_unref. rewrite Hr.
  destruct (Z.eqb_spec (pending_queries r) 1); [contradiction | reflexivity].
Qed.

Lemma host_cb_unfold E hr status he w r :
  req w = Some r -> mu_locked r = false ->
  (status = ARES_SUCCESS -> he <> None) ->
  on_hostbyname_done_cb E hr status he w
  = grpc_ares_request_unref None
      (mkWorld (Some (fold_host E status r))
         (addrs (fold_slots hr status he r w))
         (lb_addrs (fold_slots hr status he r w))
         (inflight w) (trace w ++ [EvHostDone hr status])
         (accesses w ++ host_accesses status r)).
Proof.
  intros Hr Hmu Hhe. destruct w as [rq a l q t ac]. cbn in Hr. subst rq.
  destruct r as [cb lb dr p mu s e]. cbn in Hmu. subst mu.
  unfold on_hostbyname_done_cb, fold_host, fold_slots, host_accesses,
    fold_failure, failure_accesses, chain_status_error, chained.
  cbn. destruct (Z.eqb_spec status ARES_SUCCESS) as [Hs|Hs].
  - destruct he as [h|]; [|now destruct (Hhe Hs)].
    cbn. destruct lb; cbn; rewrite <- ?app_assoc; reflexivity.
  - cbn. destruct s; cbn.
    + destruct he; reflexivity.
    + destruct e; cbn; rewrite <- ?app_assoc; destruct he; reflexivity.
Qed.

Lemma srv_cb_failure_unfold E status abuf w r :
  req w = Some r -> status <> ARES_SUCCESS ->
  on_srv_query_done_cb E status abuf w
  = grpc_ares_request_unref (Some StackCtx)
      (mkWorld (Some (fold_failure E status r)) (addrs w) (lb_addrs w)
         (inflight w) (trace w ++ [EvSrvDone status])
         (accesses w ++ failure_accesses (mu_locked r) r)).
Proof.
  intros Hr Hs. destruct w as [rq a l q t ac]. cbn in Hr. subst rq.
  destruct r as [cb lb dr p mu s e].
  unfold on_srv_query_done_cb, fold_failure, failure_accesses,
    chain_status_error, chained.
  destruct (Z.eqb_spec status ARES_SUCCESS) as [|_]; [contradiction|].
  cbn. destruct s; cbn; [reflexivity|].
  destruct e; cbn; rewrite <- ?app_assoc; reflexivity.
Qed.

Lemma srv_cb_success_unfold E abuf w :
  on_srv_query_done_cb E ARES_SUCCESS abuf w
  = let ps := fst (ares_parse_srv_reply E abuf) in
    let reply := snd (ares_parse_srv_reply E abuf) in
    let w0 := emit (EvParseSrvReply ps reply)
                (emit (EvSrvDone ARES_SUCCESS) w) in
    w1 <- (if ps =? ARES_SUCCESS then srv_reply_loop E reply w0
           else Some w0) ;;
    grpc_ares_request_unref (Some StackCtx) (free_reply reply w1).
Proof.
  unfold on_srv_query_done_cb. cbn.
  destruct (ares_parse_srv_reply E abuf) as [ps reply]. cbn.
  destruct (ps =? ARES_SUCCESS).
  - destruct (srv_reply_loop E reply _); [|reflexivity].
    destruct reply; reflexivity.
  - destruct reply; reflexivity.
Qed.

(** ** Counting is preserved *)

Lemma hd_error_app {A} (t d : list A) x :
  hd_error t = Some x -> hd_error (t ++ d) = Some x.
Proof. destruct t; cbn; [discriminate | auto]. Qed.

Ltac count_simpl :=
  cbn [req trace inflight accesses addrs lb_addrs on_done ev_driver mu_locked
       pending_queries with_pending success error lb_addrs_out] in *;
  rewrite ?count_app, ?refs_before_issues_app, ?forallb_app,
    ?ends_with_ref_snoc, ?length_app in *;
  cbn [count filter List.length is_ref is_unref is_issue is_done is_teardown
       is_ref_init refs_before_issues forallb prior_above_one andb
       Z.of_nat Pos.of_succ_nat Pos.succ] in *.

(** The last step of both callbacks and of the resolve call: releasing one
    of [k + 1] held references. *)
Lemma counted_unref cb drv k ctx w r :
  Counted cb drv (k + 1) 0 w r -> 0 <= k ->
  exists w', grpc_ares_request_unref ctx w = Some w' /\
    inflight w' = inflight w /\ addrs w' = addrs w /\
    lb_addrs w' = lb_addrs w /\ accesses w' = accesses w /\
    ((exists r', Counted cb drv k 0 w' r' /\
                 0 < Z.of_nat (List.length (inflight w)) + k /\
                 success r' = success r /\ error r' = error r /\
                 lb_addrs_out r' = lb_addrs_out r /\
                 trace w' = trace w ++ [EvUnref (pending_queries r)]) \/
     (k = 0 /\ inflight w = [] /\ Finished cb drv w' /\
      trace w' = trace w ++ teardown (ctx_or_stack ctx) r)).
Proof.
  intros C Hk. destruct C.
  destruct (Z.eq_dec (pending_queries r) 1) as [H1|H1].
  - rewrite (unref_last ctx w r c_req0 H1). eexists. split; [reflexivity|].
    cbn. repeat split; auto. right.
    assert (Hq : inflight w = []).
    { destruct (inflight w) as [|q0 l0]; [reflexivity|].
      cbn [List.length] in *. exfalso. lia. }
    rewrite Hq in *. cbn [List.length Z.of_nat] in *.
    repeat split; try lia.
    exists (trace w), (ctx_or_stack ctx), (error r).
    unfold teardown. rewrite c_cb0, c_drv0.
    repeat split; auto; lia.
  - rewrite (unref_more ctx w r c_req0 H1). eexists. split; [reflexivity|].
    cbn. repeat split; auto. left.
    exists (with_pending (pending_queries r - 1) r).
    split; [|repeat split; auto; lia].
    constructor; count_simpl; auto; try lia.
    + rewrite c_order0. reflexivity.
    + rewrite c_priors0. cbn. rewrite andb_true_r. apply Z.ltb_lt. lia.
    + apply hd_error_app; auto.
Qed.

Lemma fold_host_frame E status r :
  on_done (fold_host E status r) = on_done r /\
  ev_driver (fold_host E status r) = ev_driver r /\
  lb_addrs_out (fold_host E status r) = lb_addrs_out r /\
  mu_locked (fold_host E status r) = mu_locked r /\
  pending_queries (fold_host E status r) = pending_queries r.
Proof.
  unfold fold_host, fold_failure.
  destruct (status =? ARES_SUCCESS), (success r); cbn; auto.
Qed.

Lemma fold_failure_frame E status r :
  on_done (fold_failure E status r) = on_done r /\
  ev_driver (fold_failure E status r) = ev_driver r /\
  lb_addrs_out (fold_failure E status r) = lb_addrs_out r /\
  mu_locked (fold_failure E status r) = mu_locked r /\
  pending_queries (fold_failure E status r) = pending_queries r.
Proof.
  unfold fold_failure. destruct (success r); cbn; auto.
Qed.

(** A hostname callback, entered while the running code holds [k] further
    references: it leaves an open request, or it was the last one. *)
Lemma counted_host_cb cb drv k E hr status he w r :
  Counted cb drv (k + 1) 1 w r -> 0 <= k ->
  (status = ARES_SUCCESS -> he <> None) ->
  exists w', on_hostbyname_done_cb E hr status he w = Some w' /\
    inflight w' = inflight w /\
    ((exists r', Counted cb drv k 0 w' r' /\
                 0 < Z.of_nat (List.length (inflight w)) + k) \/
     (k = 0 /\ inflight w = [] /\ Finished cb drv w')).
Proof.
  intros C Hk Hhe.
  rewrite (host_cb_unfold E hr status he w r (c_req _ _ _ _ _ _ C)
             (c_mu _ _ _ _ _ _ C) Hhe).
  destruct (fold_host_frame E status r) as (F1 & F2 & F3 & F4 & F5).
  match goal with |- context [grpc_ares_request_unref None ?w0] =>
    assert (C0 : Counted cb drv (k + 1) 0 w0 (fold_host E status r)) end.
  { destruct C. constructor; count_simpl; auto; try congruence; try lia.
    - rewrite c_order0. reflexivity.
    - rewrite c_priors0. reflexivity.
    - apply hd_error_app; auto. }
  destruct (counted_unref cb drv k None _ _ C0 Hk)
    as (w' & Hw' & Hq & _ & _ & _ & [(r' & Cr' & Hpos & _)|(H0 & Hq0 & Fin & _)]).
  - exists w'. split; [exact Hw'|]. split; [exact Hq|]. left.
    exists r'. split; [exact Cr' | exact Hpos].
  - exists w'. split; [exact Hw'|]. split; [exact Hq|]. right. auto.
Qed.

Lemma deliver_host_counted cb drv k E hr o w r :
  Counted cb drv (k + 1) 1 w r -> 0 <= k ->
  exists w', deliver_host E hr o w = Some w' /\
    inflight w' = inflight w /\
    ((exists r', Counted cb drv k 0 w' r' /\
                 0 < Z.of_nat (List.length (inflight w)) + k) \/
     (k = 0 /\ inflight w = [] /\ Finished cb drv w')).
Proof.
  intros C Hk. destruct o as [he|code]; cbn [deliver_host];
    apply (counted_host_cb cb drv k E hr _ _ w r); auto; intros;
    discriminate.
Qed.

(** [create_hostbyname_request] followed by [ares_gethostbyname], as at the
    four places where the file issues a hostname query. *)
Lemma counted_issue_host cb drv k E host port bal family w r :
  Counted cb drv k 0 w r -> 1 <= k ->
  exists hr w1 w' r',
    create_hostbyname_request host port bal w = Some (hr, w1) /\
    ares_gethostbyname E hr family w1 = Some w' /\
    Counted cb drv k 0 w' r'.
Proof.
  intros C Hk. unfold create_hostbyname_request, grpc_ares_request_ref.
  rewrite (c_req _ _ _ _ _ _ C).
  exists (mkHostRequest host port bal),
    (emit (EvRef (pending_queries r))
       (set_req (Some (with_pending (pending_queries r + 1) r)) w)).
  unfold ares_gethostbyname. cbn [hr_host].
  destruct (gethostbyname_inline E host family) as [o|].
  - match goal with |- context [deliver_host E ?hr o ?w0] =>
      assert (C1 : Counted cb drv (k + 1) 1 w0
                     (with_pending (pending_queries r + 1) r)) end.
    { destruct C. constructor; unfold emit, set_req; count_simpl; auto;
        try lia.
      - rewrite c_order0. reflexivity.
      - rewrite c_priors0. reflexivity.
      - apply hd_error_app, hd_error_app; auto. }
    destruct (deliver_host_counted cb drv k E
                (mkHostRequest host port bal) o _ _ C1)
      as (w' & Hw' & _ & [(r' & Cr' & _)|(H0 & _)]); try lia.
    exists w', r'. split; [reflexivity|]. split; [exact Hw' | exact Cr'].
  - eexists. exists (with_pending (pending_queries r + 1) r).
    split; [reflexivity|]. split; [reflexivity|].
    destruct C. constructor; unfold emit, set_req, set_inflight;
      count_simpl; auto; try lia.
    + rewrite c_order0. reflexivity.
    + rewrite c_priors0. reflexivity.
    + apply hd_error_app, hd_error_app; auto.
Qed.

Lemma counted_emit cb drv k a e w r :
  Counted cb drv k a w r -> is_neutral e = true ->
  Counted cb drv k a (emit e w) r.
Proof.
  intros C He. destruct C.
  constructor; unfold emit; count_simpl; auto.
  all: destruct e; try discriminate He; count_simpl; try lia.
  all: try (rewrite c_order0; reflexivity).
  all: try (rewrite c_priors0; reflexivity).
  all: apply hd_error_app; auto.
Qed.

Lemma counted_srv_loop cb drv k E reply : forall w r,
  Counted cb drv k 0 w r -> 1 <= k ->
  exists w' r', srv_reply_loop E reply w = Some w' /\
                Counted cb drv k 0 w' r'.
Proof.
  induction reply as [|srv_it next IH]; intros w r C Hk.
  - exists w, r. split; [reflexivity | exact C].
  - cbn [srv_reply_loop].
    assert (H6 : exists w6 r6,
      (if grpc_ipv6_loopback_available E then
         '(hr, w0) <- create_hostbyname_request
                        (srv_host srv_it) (srv_port srv_it) true w ;;
         ares_gethostbyname E hr AF_INET6 w0
       else Some w) = Some w6 /\ Counted cb drv k 0 w6 r6).
    { destruct (grpc_ipv6_loopback_available E).
      - destruct (counted_issue_host cb drv k E (srv_host srv_it)
                    (srv_port srv_it) true AF_INET6 w r C Hk)
          as (hr & w1 & w' & r' & H1 & H2 & C').
        rewrite H1. exists w', r'. split; [exact H2 | exact C'].
      - exists w, r. split; [reflexivity | exact C]. }
    destruct H6 as (w6 & r6 & -> & C6).
    destruct (counted_issue_host cb drv k E (srv_host srv_it)
                (srv_port srv_it) true AF_INET w6 r6 C6 Hk)
      as (hr & w1 & w4 & r4 & -> & -> & C4).
    rewrite (c_req _ _ _ _ _ _ C4).
    apply (IH _ r4); [|exact Hk].
    apply counted_emit; [exact C4 | reflexivity].
Qed.

Lemma counted_done cb drv k e w r r' :
  Counted cb drv k 1 w r -> is_done e = true ->
  on_done r' = on_done r -> ev_driver r' = ev_driver r ->
  mu_locked r' = mu_locked r -> pending_queries r' = pending_queries r ->
  forall a l ac,
  Counted cb drv k 0
    (mkWorld (Some r') a l (inflight w) (trace w ++ [e]) ac) r'.
Proof.
  intros C He F1 F2 F3 F4 a l ac. destruct C.
  constructor; count_simpl; auto; try congruence.
  all: destruct e; try discriminate He; count_simpl; try lia.
  all: try (rewrite c_order0; reflexivity).
  all: try (rewrite c_priors0; reflexivity).
  all: apply hd_error_app; auto.
Qed.

Lemma counted_free_reply cb drv k reply w r :
  Counted cb drv k 0 w r -> Counted cb drv k 0 (free_reply reply w) r.
Proof.
  intros C. destruct reply; cbn [free_reply]; [exact C|].
  apply counted_emit; [exact C | reflexivity].
Qed.

(** An SRV callback, entered while the running code holds [k] further
    references. *)
Lemma counted_srv_cb cb drv k E status abuf w r :
  Counted cb drv (k + 1) 1 w r -> 0 <= k ->
  (status = ARES_SUCCESS \/ 0 < status) ->
  exists w', on_srv_query_done_cb E status abuf w = Some w' /\
    ((exists r', Counted cb drv k 0 w' r' /\
                 0 < Z.of_nat (List.length (inflight w')) + k) \/
     (k = 0 /\ Finished cb drv w')).
Proof.
  intros C Hk [Hs|Hs].
  - subst status. rewrite srv_cb_success_unfold. cbv zeta.
    set (ps := fst (ares_parse_srv_reply E abuf)).
    set (reply := snd (ares_parse_srv_reply E abuf)).
    set (w0 := emit (EvParseSrvReply ps reply) (emit (EvSrvDone ARES_SUCCESS) w)).
    assert (C0 : Counted cb drv (k + 1) 0 w0 r).
    { apply counted_emit; [|reflexivity].
      destruct w as [rq a l q t ac].
      pose proof (c_req _ _ _ _ _ _ C) as Hr. cbn in Hr. subst rq.
      apply (counted_done cb drv (k + 1) (EvSrvDone ARES_SUCCESS) _ r r C);
        reflexivity. }
    assert (H1 : exists w1 r1,
      (if ps =? ARES_SUCCESS then srv_reply_loop E reply w0 else Some w0)
      = Some w1 /\ Counted cb drv (k + 1) 0 w1 r1).
    { destruct (ps =? ARES_SUCCESS).
      - apply (counted_srv_loop cb drv (k + 1) E reply w0 r C0). lia.
      - exists w0, r. split; [reflexivity | exact C0]. }
    destruct H1 as (w1 & r1 & -> & C1).
    destruct (counted_unref cb drv k (Some StackCtx) _ _
                (counted_free_reply cb drv (k + 1) reply w1 r1 C1) Hk)
      as (w' & Hw' & Hq & _ & _ & _ & [(r' & Cr' & Hpos & _)|(H0 & Hq0 & Fin & _)]).
    + exists w'. split; [exact Hw'|]. left. exists r'. split; [exact Cr'|].
      rewrite Hq. exact Hpos.
    + exists w'. split; [exact Hw'|]. right. auto.
  - rewrite (srv_cb_failure_unfold E status abuf w r
               (c_req _ _ _ _ _ _ C)); [|unfold ARES_SUCCESS; lia].
    destruct (fold_failure_frame E status r) as (F1 & F2 & F3 & F4 & F5).
    match goal with |- context [grpc_ares_request_unref _ ?w0] =>
      assert (C0 : Counted cb drv (k + 1) 0 w0 (fold_failure E status r)) end.
    { apply (counted_done cb drv (k + 1) (EvSrvDone status) w r _ C); auto. }
    destruct (counted_unref cb drv k (Some StackCtx) _ _ C0 Hk)
      as (w' & Hw' & Hq & _ & _ & _ & [(r' & Cr' & Hpos & _)|(H0 & Hq0 & Fin & _)]).
    + exists w'. split; [exact Hw'|]. left. exists r'. split; [exact Cr'|].
      rewrite Hq. exact Hpos.
    + exists w'. split; [exact Hw'|]. right. auto.
Qed.

Lemma deliver_srv_counted cb drv k E o w r :
  Counted cb drv (k + 1) 1 w r -> 0 <= k ->
  exists w', deliver_srv E o w = Some w' /\
    ((exists r', Counted cb drv k 0 w' r' /\
                 0 < Z.of_nat (List.length (inflight w')) + k) \/
     (k = 0 /\ Finished cb drv w')).
Proof.
  intros C Hk. destruct o as [abuf|code]; cbn [deliver_srv];
    apply (counted_srv_cb cb drv k E _ _ w r); auto.
  right. lia.
Qed.

Lemma remove_nth_length {A} (l : list A) : forall i x,
  nth_error l i = Some x ->
  (List.length (remove_nth i l) + 1 = List.length l)%nat.
Proof.
  induction l as [|y l IH]; intros [|i] x H; cbn in *; try discriminate.
  - lia.
  - rewrite <- (IH i x H). lia.
Qed.

Lemma counted_take cb drv w r i q :
  Counted cb drv 0 0 w r -> nth_error (inflight w) i = Some q ->
  Counted cb drv 1 1 (set_inflight (remove_nth i (inflight w)) w) r.
Proof.
  intros C Hq. pose proof (remove_nth_length _ _ _ Hq) as Hl.
  destruct C. constructor; unfold set_inflight; count_simpl; auto; lia.
Qed.

Lemma quiescent_complete cb drv E w c :
  Quiescent cb drv w -> answers w c ->
  exists w', complete E w c = Some w' /\ Quiescent cb drv w'.
Proof.
  intros [(r & C & Hne)|(_ & Hq & _)] Ha; destruct c as [i o];
    unfold answers in Ha; cbn [fst snd] in Ha; unfold complete.
  - destruct (nth_error (inflight w) i) as [[hr fam|nm]|] eqn:Hi;
      destruct o as [o|o]; try contradiction.
    + destruct (deliver_host_counted cb drv 0 E hr o _ r
                  (counted_take cb drv w r i _ C Hi))
        as (w' & Hw' & Hq' & [(r' & Cr' & Hpos)|(_ & _ & Fin)]); [lia| |].
      * exists w'. split; [exact Hw'|]. left. exists r'. split; [exact Cr'|].
        rewrite Hq'. cbn [inflight set_inflight] in *.
        destruct (remove_nth i (inflight w)); [cbn in Hpos; lia | discriminate].
      * exists w'. split; [exact Hw'|]. right. exact Fin.
    + destruct (deliver_srv_counted cb drv 0 E o _ r
                  (counted_take cb drv w r i _ C Hi))
        as (w' & Hw' & [(r' & Cr' & Hpos)|(_ & Fin)]); [lia| |].
      * exists w'. split; [exact Hw'|]. left. exists r'. split; [exact Cr'|].
        destruct (inflight w'); [cbn in Hpos; lia | discriminate].
      * exists w'. split; [exact Hw'|]. right. exact Fin.
  - rewrite Hq in Ha. destruct i; cbn in Ha; contradiction.
Qed.

Lemma quiescent_run cb drv E cs : forall w w',
  Quiescent cb drv w -> run E w cs = Some w' -> Quiescent cb drv w'.
Proof.
  induction cs as [|c cs IH]; intros w w' Q H; cbn [run] in H.
  - now inversion H; subst.
  - destruct (complete E w c) as [w1|] eqn:Hc; [|discriminate].
    apply (IH w1); [|exact H].
    assert (Ha : answers w c).
    { destruct c as [i o]. unfold complete in Hc. unfold answers.
      cbn [fst snd].
      destruct (nth_error (inflight w) i) as [[? ?|?]|]; destruct o;
        try discriminate; exact I. }
    destruct (quiescent_complete cb drv E w c Q Ha) as (w2 & Hw2 & Q2).
    congruence.
Qed.

Lemma counted_ref cb drv k w r :
  Counted cb drv k 0 w r ->
  exists w1, grpc_ares_request_ref w = Some w1 /\
    forall e q, is_issue e = true ->
      Counted cb drv (k + 1) 1 (emit e w1)
        (with_pending (pending_queries r + 1) r) /\
      Counted cb drv k 0
        (set_inflight (inflight (emit e w1) ++ [q]) (emit e w1))
        (with_pending (pending_queries r + 1) r).
Proof.
  intros C. unfold grpc_ares_request_ref. rewrite (c_req _ _ _ _ _ _ C).
  eexists. split; [reflexivity|]. intros e q He. destruct C.
  split; constructor; unfold emit, set_req, set_inflight; count_simpl; auto.
  all: destruct e; try discriminate He; count_simpl; try lia.
  all: try (rewrite c_order0; reflexivity).
  all: try (rewrite c_priors0; reflexivity).
  all: apply hd_error_app, hd_error_app; auto.
Qed.

Lemma resolve_quiescent E name default_port ip cb lb a l :
  creates_request E name default_port ip ->
  exists w1,
    resolve_address_ares_impl E name default_port ip cb lb (fresh_world a l)
    = Some w1 /\
    Quiescent cb (snd (grpc_ares_ev_driver_create E ip)) w1.
Proof.
  intros (Hh & Hp & Hd). unfold resolve_address_ares_impl.
  destruct (gpr_split_host_port E name) as [[host|] port]; cbn [fst snd] in *;
    [|congruence].
  destruct (grpc_ares_ev_driver_create E ip) as [err drv]; cbn [fst snd] in *.
  subst err.
  set (port' := match port with Some p => inl p | None => _ end).
  assert (Hport : exists p, port' = inl p).
  { subst port'. destruct port as [p|]; [now exists p|].
    destruct default_port as [d|]; [now exists d|].
    destruct Hp; congruence. }
  destruct Hport as (p & ->). cbn [is_error_none negb].
  set (r0 := mkRequest cb lb drv 1 false false GRPC_ERROR_NONE).
  set (w0 := emit (EvRefInit 1) (set_req (Some r0) (fresh_world a l))).
  assert (C0 : Counted cb drv 1 0 w0 r0) by (constructor; reflexivity).
  assert (H6 : exists w6 r6,
    (if grpc_ipv6_loopback_available E then
       '(hr, w) <- create_hostbyname_request host (strhtons E p) false w0 ;;
       ares_gethostbyname E hr AF_INET6 w
     else Some w0) = Some w6 /\ Counted cb drv 1 0 w6 r6).
  { destruct (grpc_ipv6_loopback_available E).
    - destruct (counted_issue_host cb drv 1 E host (strhtons E p) false
                  AF_INET6 w0 r0 C0) as (hr & w1 & w' & r' & H1 & H2 & C');
        [lia|].
      rewrite H1. exists w', r'. split; [exact H2 | exact C'].
    - exists w0, r0. split; [reflexivity | exact C0]. }
  destruct H6 as (w6 & r6 & -> & C6).
  destruct (counted_issue_host cb drv 1 E host (strhtons E p) false AF_INET
              w6 r6 C6) as (hr & w1 & w4 & r4 & -> & -> & C4); [lia|].
  assert (Hs : exists ws rs,
    (if lb then
       w <- grpc_ares_request_ref w4 ;;
       ares_query E ("_grpclb._tcp." ++ host) ns_c_in ns_t_srv w
     else Some w4) = Some ws /\ Counted cb drv 1 0 ws rs).
  { destruct lb; [|exists w4, r4; split; [reflexivity | exact C4]].
    destruct (counted_ref cb drv 1 w4 r4 C4) as (wr & -> & Hwr).
    unfold ares_query.
    destruct (Hwr (EvQuery ("_grpclb._tcp." ++ host) ns_c_in ns_t_srv)
                (QSrv ("_grpclb._tcp." ++ host)) eq_refl) as (Ci & Cq).
    destruct (query_inline E _) as [o|].
    - destruct (deliver_srv_counted cb drv 1 E o _ _ Ci)
        as (w' & Hw' & [(r' & Cr' & _)|(H0 & _)]); try lia.
      exists w', r'. split; [exact Hw' | exact Cr'].
    - eexists. eexists. split; [reflexivity | exact Cq]. }
  destruct Hs as (ws & rs & -> & Cs).
  rewrite (c_req _ _ _ _ _ _ Cs).
  assert (Ce : Counted cb drv (0 + 1) 0 (emit (EvDriverStart (ev_driver rs)) ws) rs)
    by (apply counted_emit; [exact Cs | reflexivity]).
  destruct (counted_unref cb drv 0 (Some CallerCtx) _ _ Ce)
    as (w' & Hw' & Hq & _ & _ & _ & [(r' & Cr' & Hpos & _)|(_ & _ & Fin & _)]);
    [lia| |].
  - exists w'. split; [exact Hw'|]. left. exists r'. split; [exact Cr'|].
    rewrite Hq. cbn [inflight emit] in *.
    destruct (inflight ws); [cbn in Hpos; lia | discriminate].
  - exists w'. split; [exact Hw'|]. right. exact Fin.
Qed.

(** ** C1: the life of a request *)

(** C1.  A resolve call that creates its request returns, and from then
    on, however c-ares completes the queries: the pending-query count was
    initialised to 1; every query handed to c-ares, hostname or SRV, from
    the call or from an SRV callback, is preceded by exactly one increment;
    every callback run is matched by exactly one decrement, plus the one of
    the creator; while the request is open its count is the number of
    queries still out; the request is gone exactly when no query is out,
    and then the trace ends with the decrement that found the count at 1,
    the scheduling of [on_done], [gpr_mu_destroy],
    [grpc_ares_ev_driver_destroy] and [gpr_free], none of which occurs
    earlier. *)
Theorem C1_pending_queries_lifecycle E name default_port ip cb lb a l :
  creates_request E name default_port ip ->
  exists w1,
    resolve_address_ares_impl E name default_port ip cb lb (fresh_world a l)
    = Some w1 /\
    lifecycle E cb (snd (grpc_ares_ev_driver_create E ip)) w1.
Proof.
  intros Hc.
  destruct (resolve_quiescent E name default_port ip cb lb a l Hc)
    as (w1 & Hw1 & Q1).
  exists w1. split; [exact Hw1|]. intros cs w Hrun.
  pose proof (quiescent_run _ _ E cs w1 w Q1 Hrun) as Q.
  cbv zeta.
  assert (Hgo : forall c, answers w c -> exists w', complete E w c = Some w').
  { intros c Ha. destruct (quiescent_complete _ _ E w c Q Ha) as (w' & H & _).
    now exists w'. }
  destruct Q as [(r & C & Hne)|(Hr & Hq & t0 & ctx & e & Ht & F)].
  - destruct C. rewrite c_req0. repeat split; auto; lia.
  - destruct F as (F1 & F2 & F3 & F4 & F5 & F6 & F7 & F8).
    rewrite Hr, Hq, Ht. count_simpl. rewrite F2.
    repeat split; auto; try lia.
    + apply hd_error_app; exact F7.
    + exists t0, ctx, e. auto.
Qed.

Lemma C1_pending_queries_lifecycle_witness :
  creates_request example_library "svc.example.com:443" None 0%nat /\
  exists w1,
    resolve_address_ares_impl example_library "svc.example.com:443" None
      0%nat 5%nat true (fresh_world None None) = Some w1 /\
    lifecycle example_library 5%nat 7%nat w1.
Proof.
  assert (H : creates_request example_library "svc.example.com:443" None 0%nat).
  { unfold creates_request. cbn. repeat split; [discriminate | left; discriminate]. }
  split; [exact H|].
  exact (C1_pending_queries_lifecycle example_library "svc.example.com:443"
           None 0%nat 5%nat true None None H).
Defined.

(** ** What the functions append to the trace *)

Lemma static_refl r : static r r.
Proof. repeat split. Qed.

Lemma static_trans r1 r2 r3 : static r1 r2 -> static r2 r3 -> static r1 r3.
Proof. unfold static. intuition congruence. Qed.

Lemma filter_quiet f d :
  quiet f -> forallb is_closing d = true -> filter f d = [].
Proof.
  intros Q. induction d as [|e d IH]; cbn; [reflexivity|].
  intros H. apply andb_true_iff in H as [He Hd].
  rewrite (Q e (or_introl He)). auto.
Qed.

Lemma unref_effect ctx w w' :
  grpc_ares_request_unref ctx w = Some w' ->
  exists r d, req w = Some r /\ trace w' = trace w ++ d /\
    forallb is_closing d = true /\
    inflight w' = inflight w /\ addrs w' = addrs w /\
    lb_addrs w' = lb_addrs w /\ accesses w' = accesses w /\
    ((pending_queries r = 1 /\ req w' = None /\
      d = teardown (ctx_or_stack ctx) r) \/
     (pending_queries r <> 1 /\
      req w' = Some (with_pending (pending_queries r - 1) r) /\
      d = [EvUnref (pending_queries r)])).
Proof.
  intros H. destruct (req w) as [r|] eqn:Hr;
    [|unfold grpc_ares_request_unref in H; rewrite Hr in H; discriminate].
  exists r. destruct (Z.eq_dec (pending_queries r) 1) as [H1|H1].
  - rewrite (unref_last ctx w r Hr H1) in H. inversion H; subst w'; clear H.
    eexists. cbn. repeat split. left. auto.
  - rewrite (unref_more ctx w r Hr H1) in H. inversion H; subst w'; clear H.
    eexists. cbn. repeat split. right. auto.
Qed.

Lemma host_cb_runs E hr status he w w' :
  on_hostbyname_done_cb E hr status he w = Some w' ->
  exists r, req w = Some r /\ mu_locked r = false /\
            (status = ARES_SUCCESS -> he <> None).
Proof.
  unfold on_hostbyname_done_cb, gpr_mu_lock, emit. cbn.
  destruct (req w) as [r|]; [|discriminate].
  destruct (mu_locked r) eqn:Hmu; [discriminate|].
  intros H. exists r. split; [reflexivity|]. split; [exact Hmu|].
  intros Hs Hhe. subst he.
  unfold set_req, touch in H. cbn in H.
  destruct (Z.eqb_spec status ARES_SUCCESS); [discriminate | contradiction].
Qed.

Lemma host_cb_effect E hr status he w w' :
  on_hostbyname_done_cb E hr status he w = Some w' ->
  exists r d, req w = Some r /\ mu_locked r = false /\
    trace w' = trace w ++ EvHostDone hr status :: d /\
    forallb is_closing d = true /\
    inflight w' = inflight w /\
    addrs w' = addrs (fold_slots hr status he r w) /\
    lb_addrs w' = lb_addrs (fold_slots hr status he r w) /\
    accesses w' = accesses w ++ host_accesses status r /\
    ((pending_queries r = 1 /\ req w' = None /\
      d = teardown StackCtx (fold_host E status r)) \/
     (pending_queries r <> 1 /\
      req w' = Some (with_pending (pending_queries r - 1)
                       (fold_host E status r)) /\
      d = [EvUnref (pending_queries r)])).
Proof.
  intros H. destruct (host_cb_runs _ _ _ _ _ _ H) as (r & Hr & Hmu & Hhe).
  rewrite (host_cb_unfold E hr status he w r Hr Hmu Hhe) in H.
  destruct (unref_effect _ _ _ H)
    as (r0 & d & Hr0 & Ht & Hd & Hq & Ha & Hl & Hac & Hcase).
  cbn in Hr0, Ht, Hq, Ha, Hl, Hac. inversion Hr0; subst r0; clear Hr0.
  destruct (fold_host_frame E status r) as (_ & _ & _ & _ & F5).
  rewrite F5 in Hcase.
  exists r, d. rewrite Ht, <- app_assoc. repeat split; auto.
Qed.

Lemma deliver_srv_eq E o w :
  deliver_srv E o w = on_srv_query_done_cb E (status_of o) (abuf_of o) w.
Proof. destruct o; reflexivity. Qed.

Lemma deliver_host_effect E hr o w w' :
  deliver_host E hr o w = Some w' ->
  exists r d, req w = Some r /\ trace w' = trace w ++ d /\
    forallb is_closing d = true /\
    (forall r', req w' = Some r' -> static r r').
Proof.
  intros H.
  assert (H' : exists status he,
    on_hostbyname_done_cb E hr status he w = Some w')
    by (destruct o; cbn in H; eauto).
  destruct H' as (status & he & H').
  destruct (host_cb_effect _ _ _ _ _ _ H')
    as (r & d & Hr & _ & Ht & Hd & _ & _ & _ & _ & Hcase).
  exists r, (EvHostDone hr status :: d). repeat split; auto.
  all: destruct Hcase as [(_ & Hn & _)|(_ & Hs & _)]; rewrite ?Hn, ?Hs in *;
    try discriminate; inversion H0; subst r'; cbn;
    apply (fold_host_frame E status r).
Qed.

Lemma issue_host_effect E host port bal fam w hr w1 w' :
  create_hostbyname_request host port bal w = Some (hr, w1) ->
  ares_gethostbyname E hr fam w1 = Some w' ->
  exists r d, req w = Some r /\ hr = mkHostRequest host port bal /\
    trace w' = trace w ++ EvRef (pending_queries r)
                 :: EvGetHostByName hr fam :: d /\
    forallb is_closing d = true /\
    (forall r', req w' = Some r' -> static r r').
Proof.
  unfold create_hostbyname_request, grpc_ares_request_ref.
  destruct (req w) as [r|] eqn:Hr; [|discriminate].
  intros H. inversion H; subst hr w1; clear H.
  unfold ares_gethostbyname. cbn [hr_host].
  destruct (gethostbyname_inline E host fam) as [o|]; intros H.
  - destruct (deliver_host_effect _ _ _ _ _ H) as (r0 & d & Hr0 & Ht & Hd & Hs).
    cbn in Hr0, Ht. inversion Hr0; subst r0; clear Hr0.
    exists r, d. rewrite Ht, <- !app_assoc. repeat split; auto.
    all: apply (Hs r' H0).
  - inversion H; subst w'; clear H. exists r, []. cbn.
    rewrite <- !app_assoc. repeat split; auto.
    all: inversion H; subst r'; reflexivity.
Qed.

Lemma filter_issue f hr fam p d :
  quiet f -> forallb is_closing d = true ->
  filter f (EvRef p :: EvGetHostByName hr fam :: d)
  = filter f [EvGetHostByName hr fam].
Proof.
  intros Q Hd. cbn [filter]. rewrite (Q (EvRef p)) by (right; reflexivity).
  rewrite (filter_quiet f d Q Hd). reflexivity.
Qed.

Lemma srv_loop_effect E f reply : quiet f -> forall w w' r,
  req w = Some r -> srv_reply_loop E reply w = Some w' ->
  exists d, trace w' = trace w ++ d /\
    filter f d = filter f (flat_map (per_record E (ev_driver r)) reply) /\
    (forall r', req w' = Some r' -> static r r').
Proof.
  intros Q. induction reply as [|s next IH]; intros w w' r Hr H.
  - inversion H; subst w'. exists []. rewrite app_nil_r.
    split; [reflexivity|]. split; [reflexivity|].
    intros r' Hr'. rewrite Hr in Hr'. inversion Hr'. apply static_refl.
  - cbn [srv_reply_loop] in H.
    assert (H6 : exists w6 d6, (if grpc_ipv6_loopback_available E then
         '(hr, w0) <- create_hostbyname_request
                        (srv_host s) (srv_port s) true w ;;
         ares_gethostbyname E hr AF_INET6 w0
       else Some w) = Some w6 /\ trace w6 = trace w ++ d6 /\
       filter f d6 = filter f
         (if grpc_ipv6_loopback_available E
          then [EvGetHostByName
                  (mkHostRequest (srv_host s) (srv_port s) true) AF_INET6]
          else []) /\
       (forall r', req w6 = Some r' -> static r r')).
    { destruct (grpc_ipv6_loopback_available E).
      - destruct (create_hostbyname_request _ _ _ w) as [[hr w0]|] eqn:Hc;
          [|discriminate].
        destruct (ares_gethostbyname E hr AF_INET6 w0) as [w6|] eqn:Hg;
          [|discriminate].
        destruct (issue_host_effect _ _ _ _ _ _ _ _ _ Hc Hg)
          as (r0 & d & Hr0 & Hhr & Ht & Hd & Hs).
        rewrite Hr in Hr0. inversion Hr0; subst r0; clear Hr0.
        exists w6. eexists. split; [reflexivity|]. split; [exact Ht|].
        split; [|exact Hs]. rewrite Hhr. apply filter_issue; auto.
      - exists w, []. rewrite app_nil_r.
        split; [reflexivity|]. split; [reflexivity|]. split; [reflexivity|].
        intros r' Hr'. rewrite Hr in Hr'. inversion Hr'. apply static_refl. }
    destruct H6 as (w6 & d6 & H6 & Ht6 & Hf6 & Hs6). rewrite H6 in H.
    destruct (create_hostbyname_request _ _ _ w6) as [[hr w0]|] eqn:Hc;
      [|discriminate].
    destruct (ares_gethostbyname E hr AF_INET w0) as [w4|] eqn:Hg;
      [|discriminate].
    destruct (issue_host_effect _ _ _ _ _ _ _ _ _ Hc Hg)
      as (r6 & d4 & Hr6 & Hhr & Ht4 & Hd4 & Hs4).
    destruct (req w4) as [r4|] eqn:Hr4; [|discriminate].
    pose proof (static_trans _ _ _ (Hs6 r6 Hr6) (Hs4 r4 eq_refl)) as S4.
    destruct (IH (emit (EvDriverStart (ev_driver r4)) w4) w' r4 Hr4 H)
      as (d & Ht & Hf & Hs).
    exists (d6 ++ (EvRef (pending_queries r6) :: EvGetHostByName hr AF_INET
                     :: d4) ++ EvDriverStart (ev_driver r4) :: d).
    split; [|split].
    + rewrite Ht. cbn [trace emit]. rewrite Ht4, Ht6.
      rewrite <- !app_assoc. reflexivity.
    + cbn [flat_map]. unfold per_record at 1.
      rewrite !filter_app, Hf6, (filter_issue f _ _ _ _ Q Hd4), Hhr.
      assert (Hdrv : ev_driver r4 = ev_driver r) by apply S4.
      rewrite <- Hdrv, <- Hf.
      cbn [filter app]. destruct (f (EvGetHostByName _ AF_INET));
        destruct (f (EvDriverStart _)); cbn [app];
        rewrite <- ?app_assoc; reflexivity.
    + intros r' Hr'. apply (static_trans _ _ _ S4 (Hs r' Hr')).
Qed.

Lemma static_fold_failure E status n r :
  static r (with_pending n (fold_failure E status r)).
Proof.
  destruct (fold_failure_frame E status r) as (F1 & F2 & F3 & _).
  repeat split; cbn; assumption.
Qed.

Lemma srv_loop_needs_request E reply w w' :
  req w = None -> srv_reply_loop E reply w = Some w' -> reply = [].
Proof.
  intros Hr. destruct reply as [|s next]; [reflexivity|].
  cbn [srv_reply_loop].
  unfold create_hostbyname_request, grpc_ares_request_ref.
  destruct (grpc_ipv6_loopback_available E); rewrite Hr; discriminate.
Qed.

Lemma srv_cb_runs E status abuf w w' :
  on_srv_query_done_cb E status abuf w = Some w' -> exists r, req w = Some r.
Proof.
  destruct (req w) as [r|] eqn:Hr; [eauto|]. intros H. exfalso.
  destruct (Z.eqb_spec status ARES_SUCCESS) as [Hs|Hs].
  - subst status. rewrite srv_cb_success_unfold in H. cbv zeta in H.
    set (reply := snd (ares_parse_srv_reply E abuf)) in *.
    destruct (fst (ares_parse_srv_reply E abuf) =? ARES_SUCCESS).
    + destruct (srv_reply_loop E reply _) as [w1|] eqn:Hl; [|discriminate].
      pose proof (srv_loop_needs_request E reply _ _ (Hr : req (emit _ (emit _ w)) = None) Hl) as Hnil.
      rewrite Hnil in *. cbn in Hl. inversion Hl; subst w1.
      unfold grpc_ares_request_unref in H. cbn in H. rewrite Hr in H.
      discriminate.
    + unfold grpc_ares_request_unref in H.
      destruct reply; cbn in H; rewrite Hr in H; discriminate.
  - unfold on_srv_query_done_cb in H.
    destruct (Z.eqb_spec status ARES_SUCCESS); [contradiction|].
    unfold touch in H. cbn in H. rewrite Hr in H. discriminate.
Qed.

Lemma srv_cb_effect E f status abuf w w' :
  quiet f -> on_srv_query_done_cb E status abuf w = Some w' ->
  exists r d, req w = Some r /\ trace w' = trace w ++ d /\
    filter f d = filter f (srv_events E (ev_driver r) status abuf) /\
    (forall r', req w' = Some r' -> static r r').
Proof.
  intros Q H. destruct (srv_cb_runs _ _ _ _ _ H) as (r & Hr). exists r.
  unfold srv_events.
  destruct (Z.eqb_spec status ARES_SUCCESS) as [Hs|Hs].
  - subst status. rewrite srv_cb_success_unfold in H. cbv zeta in H |- *.
    set (ps := fst (ares_parse_srv_reply E abuf)) in *.
    set (reply := snd (ares_parse_srv_reply E abuf)) in *.
    set (w0 := emit (EvParseSrvReply ps reply)
                 (emit (EvSrvDone ARES_SUCCESS) w)) in *.
    assert (H1 : exists w1 d1,
      (if ps =? ARES_SUCCESS then srv_reply_loop E reply w0 else Some w0)
      = Some w1 /\ trace w1 = trace w0 ++ d1 /\
      filter f d1 = filter f (if ps =? ARES_SUCCESS
                              then flat_map (per_record E (ev_driver r)) reply
                              else []) /\
      (forall r', req w1 = Some r' -> static r r')).
    { destruct (ps =? ARES_SUCCESS).
      - destruct (srv_reply_loop E reply w0) as [w1|] eqn:Hl; [|discriminate].
        destruct (srv_loop_effect E f reply Q w0 w1 r Hr Hl)
          as (d1 & Ht1 & Hf1 & Hs1).
        exists w1, d1. auto.
      - exists w0, []. rewrite app_nil_r.
        split; [reflexivity|]. split; [reflexivity|]. split; [reflexivity|].
        intros r' Hr'. cbn in Hr'. rewrite Hr in Hr'. inversion Hr'.
        apply static_refl. }
    destruct H1 as (w1 & d1 & H1 & Ht1 & Hf1 & Hs1). rewrite H1 in H.
    destruct (unref_effect _ _ _ H)
      as (r2 & d2 & Hr2 & Ht2 & Hd2 & _ & _ & _ & _ & Hcase).
    assert (Hr2' : req w1 = Some r2) by (destruct reply; exact Hr2).
    exists ((EvSrvDone ARES_SUCCESS :: EvParseSrvReply ps reply :: d1)
            ++ free_events reply ++ d2).
    split; [exact Hr|]. split; [|split].
    + rewrite Ht2.
      assert (Hfr : trace (free_reply reply w1)
                    = trace w1 ++ free_events reply)
        by (destruct reply; cbn; [now rewrite app_nil_r | reflexivity]).
      rewrite Hfr, Ht1. unfold w0. cbn [trace emit].
      rewrite <- !app_assoc. reflexivity.
    + rewrite !filter_app. cbn [filter].
      rewrite (Q (EvSrvDone ARES_SUCCESS)) by (left; reflexivity).
      rewrite (filter_quiet f d2 Q Hd2), app_nil_r, Hf1.
      destruct (f (EvParseSrvReply ps reply)); reflexivity.
    + intros r' Hr'. apply (static_trans _ r2); [apply Hs1; exact Hr2'|].
      destruct Hcase as [(_ & Hn & _)|(_ & Hsome & _)];
        rewrite ?Hn, ?Hsome in Hr'; [discriminate|].
      inversion Hr'. repeat split.
  - rewrite (srv_cb_failure_unfold E status abuf w r Hr Hs) in H.
    destruct (unref_effect _ _ _ H)
      as (r2 & d2 & Hr2 & Ht2 & Hd2 & _ & _ & _ & _ & Hcase).
    cbn in Hr2, Ht2. inversion Hr2; subst r2; clear Hr2.
    exists (EvSrvDone status :: d2). split; [exact Hr|]. split; [|split].
    + rewrite Ht2, <- app_assoc. reflexivity.
    + cbn [filter]. rewrite (Q (EvSrvDone status)) by (left; reflexivity).
      apply (filter_quiet f d2 Q Hd2).
    + intros r' Hr'.
      destruct Hcase as [(_ & Hn & _)|(_ & Hsome & _)];
        rewrite ?Hn, ?Hsome in Hr'; [discriminate|].
      inversion Hr'. apply static_fold_failure.
Qed.

Lemma resolve_effect E f name default_port ip cb lb w w' host port :
  quiet f ->
  fst (gpr_split_host_port E name) = Some host ->
  governing_port (snd (gpr_split_host_port E name)) default_port = Some port ->
  fst (grpc_ares_ev_driver_create E ip) = GRPC_ERROR_NONE ->
  resolve_address_ares_impl E name default_port ip cb lb w = Some w' ->
  exists d, trace w' = trace w ++ d /\
    filter f d = filter f (resolve_events E host port lb
                             (snd (grpc_ares_ev_driver_create E ip))).
Proof.
  intros Q Hh Hp Hd. unfold resolve_address_ares_impl, resolve_events.
  destruct (gpr_split_host_port E name) as [h p0]. cbn [fst snd] in *.
  subst h. destruct (grpc_ares_ev_driver_create E ip) as [err drv].
  cbn [fst snd] in *. subst err.
  assert (Hport : match p0 with
                  | Some p => inl p
                  | None => match default_port with
                            | Some d => inl d
                            | None => inr (grpc_error_set_str
                                (GRPC_ERROR_CREATE "no port in name")
                                GRPC_ERROR_STR_TARGET_ADDRESS name)
                            end
                  end = inl port).
  { destruct p0; cbn in Hp; [congruence|]. subst default_port. reflexivity. }
  rewrite Hport. cbn [is_error_none negb]. clear Hport Hp.
  set (r0 := mkRequest cb lb drv 1 false false GRPC_ERROR_NONE).
  set (w0 := emit (EvRefInit 1) (set_req (Some r0) w)).
  set (G6 := EvGetHostByName (mkHostRequest host (strhtons E port) false)
               AF_INET6).
  assert (H6 : forall w6, (if grpc_ipv6_loopback_available E then
       '(hr, w) <- create_hostbyname_request host (strhtons E port) false w0 ;;
       ares_gethostbyname E hr AF_INET6 w
     else Some w0) = Some w6 ->
     exists d6, trace w6 = trace w0 ++ d6 /\
       filter f d6 = filter f (if grpc_ipv6_loopback_available E
                               then [G6] else []) /\
       (forall r', req w6 = Some r' -> static r0 r')).
  { intros w6 H. destruct (grpc_ipv6_loopback_available E).
    - destruct (create_hostbyname_request _ _ _ w0) as [[hr w1]|] eqn:Hc;
        [|discriminate].
      destruct (issue_host_effect _ _ _ _ _ _ _ _ _ Hc H)
        as (r1 & d & Hr1 & Hhr & Ht & Hdc & Hs).
      cbn in Hr1. inversion Hr1; subst r1; clear Hr1.
      eexists. split; [exact Ht|].
      split; [|exact Hs]. rewrite Hhr. apply filter_issue; auto.
    - inversion H; subst w6. exists []. rewrite app_nil_r.
      split; [reflexivity|]. split; [reflexivity|].
      intros r' Hr'. cbn in Hr'. inversion Hr'. apply static_refl. }
  destruct (if grpc_ipv6_loopback_available E then _ else Some w0)
    as [w6|] eqn:E6; [|discriminate].
  destruct (H6 w6 eq_refl) as (d6 & Ht6 & Hf6 & Hs6). clear H6.
  destruct (create_hostbyname_request _ _ _ w6) as [[hr w1]|] eqn:Hc;
    [|discriminate].
  destruct (ares_gethostbyname E hr AF_INET w1) as [w4|] eqn:Hg;
    [|discriminate].
  destruct (issue_host_effect _ _ _ _ _ _ _ _ _ Hc Hg)
    as (r6 & d4 & Hr6 & Hhr & Ht4 & Hd4 & Hs4).
  set (nm := ("_grpclb._tcp." ++ host)%string).
  assert (Hq : forall ws, (if lb then
       w <- grpc_ares_request_ref w4 ;;
       ares_query E nm ns_c_in ns_t_srv w
     else Some w4) = Some ws ->
     exists ds, trace ws = trace w4 ++ ds /\
       filter f ds = filter f (if lb then
           EvQuery nm ns_c_in ns_t_srv
           :: match query_inline E nm with
              | Some o => srv_events E drv (status_of o) (abuf_of o)
              | None => []
              end
         else []) /\
       (forall r', req ws = Some r' -> static r0 r')).
  { intros ws H. destruct lb.
    - unfold grpc_ares_request_ref in H.
      destruct (req w4) as [r4|] eqn:Hr4; [|discriminate].
      pose proof (static_trans _ _ _ (Hs6 r6 Hr6) (Hs4 r4 eq_refl)) as S4.
      unfold ares_query in H. destruct (query_inline E nm) as [o|].
      + rewrite deliver_srv_eq in H.
        destruct (srv_cb_effect E f _ _ _ _ Q H) as (r5 & d & Hr5 & Ht & Hf & Hs).
        cbn in Hr5, Ht. inversion Hr5; subst r5; clear Hr5.
        cbn [ev_driver with_pending] in Hf.
        exists (EvRef (pending_queries r4) :: EvQuery nm ns_c_in ns_t_srv :: d).
        split; [|split].
        * rewrite Ht, <- !app_assoc. reflexivity.
        * cbn [filter]. rewrite (Q (EvRef _)) by (right; reflexivity).
          rewrite Hf. destruct S4 as (_ & S4 & _). rewrite S4. reflexivity.
        * intros r' Hr'. apply (static_trans _ r4); [exact S4|].
          apply (Hs r' Hr').
      + inversion H; subst ws; clear H.
        exists [EvRef (pending_queries r4); EvQuery nm ns_c_in ns_t_srv].
        split; [|split].
        * cbn. rewrite <- !app_assoc. reflexivity.
        * cbn [filter]. rewrite (Q (EvRef _)) by (right; reflexivity).
          reflexivity.
        * intros r' Hr'. cbn in Hr'. inversion Hr'. exact S4.
    - inversion H; subst ws. exists []. rewrite app_nil_r.
      split; [reflexivity|]. split; [reflexivity|].
      intros r' Hr'. apply (static_trans _ _ _ (Hs6 r6 Hr6) (Hs4 r' Hr')). }
  destruct (if lb then _ else Some w4) as [ws|] eqn:Es; [|discriminate].
  destruct (Hq ws eq_refl) as (ds & Hts & Hfs & Hss). clear Hq.
  destruct (req ws) as [rs|] eqn:Hrs; [|discriminate].
  intros H. destruct (unref_effect _ _ _ H)
    as (r2 & d2 & _ & Ht2 & Hd2 & _).
  exists ((EvRefInit 1 :: d6)
          ++ (EvRef (pending_queries r6) :: EvGetHostByName hr AF_INET :: d4)
          ++ ds ++ EvDriverStart (ev_driver rs) :: d2).
  split.
  - rewrite Ht2. cbn [trace emit]. rewrite Hts, Ht4, Ht6. unfold w0.
    cbn [trace emit set_req]. rewrite <- !app_assoc. reflexivity.
  - assert (Hdrv : ev_driver rs = drv) by apply (Hss rs eq_refl).
    rewrite Hdrv, !filter_app, (filter_issue f _ _ _ _ Q Hd4), Hfs, Hhr.
    cbn [filter]. rewrite Hf6, (filter_quiet f d2 Q Hd2).
    fold G6. destruct (f (EvRefInit 1)); reflexivity.
Qed.

Lemma complete_effect E f w i o w' :
  quiet f -> complete E w (i, o) = Some w' ->
  exists r d, req w = Some r /\ trace w' = trace w ++ d /\
    filter f d = filter f
      (match o with
       | OHost _ => []
       | OSrv o => srv_events E (ev_driver r) (status_of o) (abuf_of o)
       end) /\
    (forall r', req w' = Some r' -> static r r').
Proof.
  intros Q H. unfold complete in H.
  destruct (nth_error (inflight w) i) as [[hr fam|nm]|]; destruct o as [o|o];
    try discriminate.
  - destruct (deliver_host_effect _ _ _ _ _ H) as (r & d & Hr & Ht & Hd & Hs).
    exists r, d. cbn in Hr, Ht. repeat split; auto.
    + apply (filter_quiet f d Q Hd).
    + apply (Hs r' H0).
    + apply (Hs r' H0).
    + apply (Hs r' H0).
  - rewrite deliver_srv_eq in H.
    destruct (srv_cb_effect E f _ _ _ _ Q H) as (r & d & Hr & Ht & Hf & Hs).
    exists r, d. cbn in Hr, Ht. auto.
Qed.

(** ** Reachable worlds *)

Lemma creates_request_dec E name default_port ip :
  creates_request E name default_port ip \/
  ~ creates_request E name default_port ip.
Proof.
  unfold creates_request.
  destruct (fst (gpr_split_host_port E name));
    [|right; intros (H & _); congruence].
  destruct (fst (grpc_ares_ev_driver_create E ip));
    [|right; intros (_ & _ & H); discriminate].
  destruct (snd (gpr_split_host_port E name)).
  - left. repeat split; [discriminate | left; discriminate].
  - destruct default_port.
    + left. repeat split; [discriminate | right; discriminate].
    + right. intros (_ & [H|H] & _); congruence.
Qed.

Lemma resolve_without_request E name default_port ip cb lb w :
  ~ creates_request E name default_port ip ->
  exists e, resolve_address_ares_impl E name default_port ip cb lb w
            = Some (emit e w) /\ is_issue e = false.
Proof.
  unfold creates_request, resolve_address_ares_impl. intros Hn.
  destruct (gpr_split_host_port E name) as [[host|] port]; cbn [fst snd] in *;
    [|eexists; split; reflexivity].
  destruct port as [p|].
  - destruct (grpc_ares_ev_driver_create E ip) as [[|d s c] drv];
      cbn [fst snd] in *.
    + exfalso. apply Hn. repeat split; [discriminate | left; discriminate].
    + eexists. split; reflexivity.
  - destruct default_port as [d|]; [|eexists; split; reflexivity].
    destruct (grpc_ares_ev_driver_create E ip) as [[|d' s c] drv];
      cbn [fst snd] in *.
    + exfalso. apply Hn. repeat split; [discriminate | right; discriminate].
    + eexists. split; reflexivity.
Qed.

Lemma reachable_quiescent E name default_port ip cb lb a l w :
  reachable E name default_port ip cb lb a l w ->
  creates_request E name default_port ip ->
  Quiescent cb (snd (grpc_ares_ev_driver_create E ip)) w.
Proof.
  intros (w1 & cs & H1 & Hrun) Hc.
  destruct (resolve_quiescent E name default_port ip cb lb a l Hc)
    as (w1' & H1' & Q1).
  rewrite H1 in H1'. inversion H1'; subst w1'.
  apply (quiescent_run _ _ E cs w1 w Q1 Hrun).
Qed.

Lemma run_nothing_in_flight E cs w w' :
  inflight w = [] -> run E w cs = Some w' -> w' = w.
Proof.
  intros Hq. destruct cs as [|[i o] cs]; cbn; [congruence|].
  rewrite Hq. destruct i; discriminate.
Qed.

(** A query is in flight only for a call that created its request. *)
Lemma reachable_in_flight E name default_port ip cb lb a l w i q :
  reachable E name default_port ip cb lb a l w ->
  nth_error (inflight w) i = Some q ->
  creates_request E name default_port ip.
Proof.
  intros (w1 & cs & H1 & Hrun) Hq.
  destruct (creates_request_dec E name default_port ip) as [Hc|Hn]; [exact Hc|].
  exfalso.
  destruct (resolve_without_request E name default_port ip cb lb
              (fresh_world a l) Hn) as (e & He & _).
  rewrite H1 in He. inversion He; subst w1.
  rewrite (run_nothing_in_flight E cs (emit e (fresh_world a l)) w
             eq_refl Hrun) in Hq.
  destruct i; discriminate.
Qed.

Lemma reachable_complete E name default_port ip cb lb a l w i q o :
  reachable E name default_port ip cb lb a l w ->
  nth_error (inflight w) i = Some q ->
  match q, o with
  | QHost _ _, OHost _ | QSrv _, OSrv _ => True
  | _, _ => False
  end ->
  exists w', complete E w (i, o) = Some w' /\
             reachable E name default_port ip cb lb a l w'.
Proof.
  intros R Hq Hk.
  pose proof (reachable_in_flight _ _ _ _ _ _ _ _ _ _ _ R Hq) as Hc.
  pose proof (reachable_quiescent _ _ _ _ _ _ _ _ _ R Hc) as Q.
  destruct (quiescent_complete _ _ E w (i, o) Q) as (w' & Hw' & _).
  { unfold answers. cbn [fst snd]. rewrite Hq. destruct q, o; auto. }
  exists w'. split; [exact Hw'|].
  destruct R as (w1 & cs & H1 & Hrun). exists w1, (cs ++ [(i, o)]).
  split; [exact H1|]. clear - Hrun Hw'. revert w1 Hrun.
  induction cs as [|c cs IH]; intros w1 Hrun; cbn [run app] in *.
  - inversion Hrun; subst w1. rewrite Hw'. reflexivity.
  - destruct (complete E w1 c); [|discriminate]. apply IH, Hrun.
Qed.

(** ** Selected events *)

Ltac quiet_tac :=
  intros e [H|H]; destruct e; cbn in *; try discriminate; reflexivity.

Lemma quiet_direct : quiet is_direct_query.
Proof. quiet_tac. Qed.
Lemma quiet_issuance : quiet is_issuance.
Proof. quiet_tac. Qed.
Lemma quiet_query : quiet is_query.
Proof. quiet_tac. Qed.
Lemma quiet_parse_or_free : quiet is_parse_or_free.
Proof. quiet_tac. Qed.

Lemma filter_none {A} (f : A -> bool) (l : list A) :
  (forall x, In x l -> f x = false) -> filter f l = [].
Proof.
  induction l as [|x l IH]; intros H; cbn; [reflexivity|].
  rewrite (H x (or_introl eq_refl)). apply IH. intros y Hy. apply H. now right.
Qed.

Lemma filter_all {A} (f : A -> bool) (l : list A) :
  (forall x, In x l -> f x = true) -> filter f l = l.
Proof.
  induction l as [|x l IH]; intros H; cbn; [reflexivity|].
  rewrite (H x (or_introl eq_refl)). f_equal. apply IH. intros y Hy.
  apply H. now right.
Qed.

Lemma in_per_record E drv s e :
  In e (per_record E drv s) ->
  e = EvGetHostByName (mkHostRequest (srv_host s) (srv_port s) true) AF_INET6
  \/ e = EvGetHostByName (mkHostRequest (srv_host s) (srv_port s) true) AF_INET
  \/ e = EvDriverStart drv.
Proof.
  unfold per_record. destruct (grpc_ipv6_loopback_available E); cbn;
    intuition auto.
Qed.

Lemma in_srv_events E drv status abuf e :
  In e (srv_events E drv status abuf) ->
  is_parse_or_free e = true \/
  exists s, In s (snd (ares_parse_srv_reply E abuf)) /\
            In e (per_record E drv s).
Proof.
  unfold srv_events. destruct (status =? ARES_SUCCESS); [|contradiction].
  cbv zeta. rewrite !in_app_iff. intros [H|[H|H]].
  - destruct H as [<- | []]. now left.
  - destruct (_ =? ARES_SUCCESS); [|contradiction].
    apply in_flat_map in H. now right.
  - destruct (snd (ares_parse_srv_reply E abuf)); [contradiction|].
    destruct H as [<- | []]. now left.
Qed.

Lemma filter_srv_events_none E f drv status abuf :
  (forall e, is_parse_or_free e = true -> f e = false) ->
  (forall s e, In e (per_record E drv s) -> f e = false) ->
  filter f (srv_events E drv status abuf) = [].
Proof.
  intros H1 H2. apply filter_none. intros e He.
  destruct (in_srv_events _ _ _ _ _ He) as [H|(s & _ & H)]; eauto.
Qed.

Lemma filter_direct_srv_events E drv status abuf :
  filter is_direct_query (srv_events E drv status abuf) = [].
Proof.
  apply filter_srv_events_none.
  - intros e H. destruct e; try discriminate; reflexivity.
  - intros s e H.
    destruct (in_per_record _ _ _ _ H) as [-> | [-> | ->]]; reflexivity.
Qed.

Lemma filter_query_srv_events E drv status abuf :
  filter is_query (srv_events E drv status abuf) = [].
Proof.
  apply filter_srv_events_none.
  - intros e H. destruct e; try discriminate; reflexivity.
  - intros s e H.
    destruct (in_per_record _ _ _ _ H) as [-> | [-> | ->]]; reflexivity.
Qed.

Lemma filter_issuance_srv_events E drv abuf :
  filter is_issuance (srv_events E drv ARES_SUCCESS abuf)
  = if fst (ares_parse_srv_reply E abuf) =? ARES_SUCCESS
    then flat_map (per_record E drv) (snd (ares_parse_srv_reply E abuf))
    else [].
Proof.
  unfold srv_events. cbn [Z.eqb ARES_SUCCESS]. cbv zeta.
  rewrite !filter_app. cbn [filter is_issuance app].
  assert (Hfree : filter is_issuance
                    (free_events (snd (ares_parse_srv_reply E abuf))) = [])
    by (destruct (snd (ares_parse_srv_reply E abuf)); reflexivity).
  rewrite Hfree, app_nil_r.
  destruct (fst (ares_parse_srv_reply E abuf) =? ARES_SUCCESS);
    [|reflexivity].
  apply filter_all. intros e He. apply in_flat_map in He as (s & _ & He).
  destruct (in_per_record _ _ _ _ He) as [-> | [-> | ->]]; reflexivity.
Qed.

Lemma filter_parse_or_free_srv_events E drv status abuf :
  filter is_parse_or_free (srv_events E drv status abuf)
  = if status =? ARES_SUCCESS
    then EvParseSrvReply (fst (ares_parse_srv_reply E abuf))
                         (snd (ares_parse_srv_reply E abuf))
         :: free_events (snd (ares_parse_srv_reply E abuf))
    else [].
Proof.
  unfold srv_events. destruct (status =? ARES_SUCCESS); [|reflexivity].
  cbv zeta. rewrite !filter_app. cbn [filter is_parse_or_free app].
  f_equal.
  assert (Hrec : forall l,
            filter is_parse_or_free (flat_map (per_record E drv) l) = []).
  { intros l. apply filter_none. intros e He.
    apply in_flat_map in He as (s & _ & He).
    destruct (in_per_record _ _ _ _ He) as [-> | [-> | ->]]; reflexivity. }
  destruct (_ =? ARES_SUCCESS); cbn [filter]; rewrite ?Hrec; cbn [app];
    destruct (snd (ares_parse_srv_reply E abuf)); reflexivity.
Qed.

(** Completions add no event that [f] selects, when [f] selects nothing of
    what an SRV callback does. *)
Lemma run_filter E f cs : quiet f ->
  (forall drv status abuf, filter f (srv_events E drv status abuf) = []) ->
  forall w w', run E w cs = Some w' ->
  filter f (trace w') = filter f (trace w).
Proof.
  intros Q Hsrv. induction cs as [|[i o] cs IH]; intros w w' H;
    cbn [run] in H.
  - now inversion H.
  - destruct (complete E w (i, o)) as [w1|] eqn:Hc; [|discriminate].
    rewrite (IH w1 w' H).
    destruct (complete_effect E f w i o w1 Q Hc) as (r & d & _ & Ht & Hf & _).
    rewrite Ht, filter_app, Hf. destruct o; [|rewrite Hsrv];
      cbn [filter]; apply app_nil_r.
Qed.

Lemma quiescent_order cb drv w :
  Quiescent cb drv w -> refs_before_issues false (trace w) = true.
Proof.
  intros [(r & C & _)|(_ & _ & t0 & ctx & e & Ht & _ & F & _)].
  - apply (c_order _ _ _ _ _ _ C).
  - rewrite Ht, refs_before_issues_app, F. reflexivity.
Qed.

(** ** C3, C5 and C10: what is called, and when *)

(** C3.  A name without a parseable host: the resolve call returns after
    scheduling [on_done] on the caller's context with the error
    "unparseable host:port" that carries the name under
    [GRPC_ERROR_STR_TARGET_ADDRESS]; a name with a host, no port and no
    default port: the same with "no port in name".  In both cases the trace
    grows by that one event: no request is created and nothing is in
    flight.  A name with a host and no port, with a default port [d] and a
    driver that is created: the hostname queries for the target carry the
    port [strhtons d]. *)
Theorem C3_invalid_names_fail_at_once E name default_port ip cb lb a l :
  let w := fresh_world a l in
  let split := gpr_split_host_port E name in
  let failed msg w' :=
    req w' = None /\ inflight w' = [] /\ addrs w' = a /\ lb_addrs w' = l /\
    trace w' = [EvClosureSched CallerCtx cb
                  (grpc_error_set_str (GRPC_ERROR_CREATE msg)
                     GRPC_ERROR_STR_TARGET_ADDRESS name)] in
  (fst split = None ->
   exists w', resolve_address_ares_impl E name default_port ip cb lb w
              = Some w' /\ failed "unparseable host:port"%string w') /\
  (fst split <> None -> snd split = None -> default_port = None ->
   exists w', resolve_address_ares_impl E name default_port ip cb lb w
              = Some w' /\ failed "no port in name"%string w') /\
  (forall host d,
     fst split = Some host -> snd split = None -> default_port = Some d ->
     fst (grpc_ares_ev_driver_create E ip) = GRPC_ERROR_NONE ->
     exists w', resolve_address_ares_impl E name default_port ip cb lb w
                = Some w' /\
       filter is_direct_query (trace w')
       = (if grpc_ipv6_loopback_available E
          then [EvGetHostByName (mkHostRequest host (strhtons E d) false)
                  AF_INET6]
          else []) ++
         [EvGetHostByName (mkHostRequest host (strhtons E d) false) AF_INET]).
Proof.
  cbv zeta. split; [|split].
  - intros Hh. unfold resolve_address_ares_impl.
    destruct (gpr_split_host_port E name) as [[h|] p]; cbn in Hh;
      [discriminate|].
    eexists. split; [reflexivity|]. repeat split.
  - intros Hh Hp Hd. unfold resolve_address_ares_impl.
    destruct (gpr_split_host_port E name) as [[h|] p]; cbn in Hh, Hp;
      [|congruence].
    subst p default_port. eexists. split; [reflexivity|]. repeat split.
  - intros host d Hh Hp Hd Hdrv.
    assert (Hc : creates_request E name default_port ip).
    { unfold creates_request. rewrite Hh, Hd.
      repeat split; [discriminate | right; discriminate | exact Hdrv]. }
    destruct (resolve_quiescent E name default_port ip cb lb a l Hc)
      as (w' & Hw' & _).
    exists w'. split; [exact Hw'|].
    destruct (resolve_effect E is_direct_query name default_port ip cb lb
                (fresh_world a l) w' host d quiet_direct Hh)
      as (dlt & Ht & Hf); auto.
    { rewrite Hp, Hd. reflexivity. }
    rewrite Ht. cbn [trace fresh_world app]. rewrite Hf.
    unfold resolve_events.
    rewrite !filter_app.
    assert (Hsrv : filter is_direct_query
       (if lb then
          EvQuery ("_grpclb._tcp." ++ host) ns_c_in ns_t_srv
          :: match query_inline E ("_grpclb._tcp." ++ host) with
             | Some o => srv_events E (snd (grpc_ares_ev_driver_create E ip))
                           (status_of o) (abuf_of o)
             | None => []
             end
        else []) = []).
    { destruct lb; [|reflexivity]. cbn [filter is_direct_query].
      destruct (query_inline E _); [|reflexivity].
      apply filter_direct_srv_events. }
    rewrite Hsrv. cbn [filter is_direct_query app].
    destruct (grpc_ipv6_loopback_available E); reflexivity.
Qed.

Lemma C3_invalid_names_fail_at_once_witness :
  (exists w',
     resolve_address_ares_impl example_library "" (Some "https"%string)
       0%nat 5%nat false (fresh_world None None) = Some w' /\
     trace w' = [EvClosureSched CallerCtx 5%nat
                   (GrpcError "unparseable host:port"
                      [(GRPC_ERROR_STR_TARGET_ADDRESS, ""%string)] [])]) /\
  (exists w',
     resolve_address_ares_impl example_library "svc.example.com" None
       0%nat 5%nat false (fresh_world None None) = Some w' /\
     trace w' = [EvClosureSched CallerCtx 5%nat
                   (GrpcError "no port in name"
                      [(GRPC_ERROR_STR_TARGET_ADDRESS,
                        "svc.example.com"%string)] [])]) /\
  (exists w',
     resolve_address_ares_impl example_library "svc.example.com"
       (Some "https"%string) 0%nat 5%nat false (fresh_world None None)
     = Some w' /\
     filter is_direct_query (trace w')
     = [EvGetHostByName (mkHostRequest "svc.example.com" 47873 false) AF_INET6;
        EvGetHostByName (mkHostRequest "svc.example.com" 47873 false) AF_INET]).
Proof.
  split; [|split].
  - destruct (proj1 (C3_invalid_names_fail_at_once example_library ""
                       (Some "https"%string) 0%nat 5%nat false None None)
                eq_refl) as (w' & H & _ & _ & _ & _ & Ht).
    exists w'. split; [exact H | exact Ht].
  - destruct (proj1 (proj2 (C3_invalid_names_fail_at_once example_library
                              "svc.example.com" None 0%nat 5%nat false
                              None None)))
      as (w' & H & _ & _ & _ & _ & Ht);
      [discriminate | reflexivity | reflexivity |].
    exists w'. split; [exact H | exact Ht].
  - exact (proj2 (proj2 (C3_invalid_names_fail_at_once example_library
                           "svc.example.com" (Some "https"%string) 0%nat
                           5%nat false None None))
             "svc.example.com"%string "https"%string
             eq_refl eq_refl eq_refl eq_refl).
Defined.

(** C5.  For a resolve call that creates its request, and every world that
    completions lead to: the trace holds one [ares_query], for the name
    "_grpclb._tcp." followed by the host, class [ns_c_in] and type
    [ns_t_srv], when the call is in load-balancer mode, and none otherwise;
    every query in the trace comes right after an increment of the count.
    When c-ares then completes the SRV query with success, the callback
    returns, and the queries and driver restarts it made are, for each
    record of a successfully parsed reply in order: an [AF_INET6] query
    marked balancer if and only if IPv6 loopback is available, an [AF_INET]
    query marked balancer, and a restart of the driver; with a parse that
    fails there are none, and [success] and [error] of the request are what
    they were.  The same account of queries and restarts holds of any run
    of the SRV callback that returns, in any world. *)
Theorem C5_srv_discovery E name default_port ip cb lb a l host :
  creates_request E name default_port ip ->
  fst (gpr_split_host_port E name) = Some host ->
  let drv := snd (grpc_ares_ev_driver_create E ip) in
  (forall abuf w w' r,
     on_srv_query_done_cb E ARES_SUCCESS abuf w = Some w' ->
     req w = Some r ->
     exists d, trace w' = trace w ++ d /\
       filter is_issuance d
       = if fst (ares_parse_srv_reply E abuf) =? ARES_SUCCESS
         then flat_map (per_record E (ev_driver r))
                (snd (ares_parse_srv_reply E abuf))
         else []) /\
  exists w1,
    resolve_address_ares_impl E name default_port ip cb lb (fresh_world a l)
    = Some w1 /\
    forall cs w, run E w1 cs = Some w ->
      filter is_query (trace w)
      = (if lb
         then [EvQuery ("_grpclb._tcp." ++ host) ns_c_in ns_t_srv]
         else []) /\
      refs_before_issues false (trace w) = true /\
      forall i nm abuf r,
        nth_error (inflight w) i = Some (QSrv nm) -> req w = Some r ->
        let ps := fst (ares_parse_srv_reply E abuf) in
        let reply := snd (ares_parse_srv_reply E abuf) in
        exists w' d,
          complete E w (i, OSrv (SrvSuccess abuf)) = Some w' /\
          trace w' = trace w ++ d /\
          filter is_issuance d
          = (if ps =? ARES_SUCCESS then flat_map (per_record E drv) reply
             else []) /\
          (ps <> ARES_SUCCESS ->
           match req w' with
           | Some r' => success r' = success r /\ error r' = error r
           | None => In (EvClosureSched StackCtx cb (error r)) d
           end).
Proof.
  intros Hc Hh drv. split.
  { intros abuf w w' r H Hr.
    destruct (srv_cb_effect E is_issuance _ _ _ _ quiet_issuance H)
      as (r0 & d & Hr0 & Ht & Hf & _).
    rewrite Hr in Hr0. inversion Hr0; subst r0.
    exists d. split; [exact Ht|]. rewrite Hf.
    apply filter_issuance_srv_events. }
  destruct (resolve_quiescent E name default_port ip cb lb a l Hc)
    as (w1 & Hw1 & Q1).
  exists w1. split; [exact Hw1|]. intros cs w Hrun.
  assert (R : reachable E name default_port ip cb lb a l w)
    by (exists w1, cs; auto).
  pose proof (reachable_quiescent _ _ _ _ _ _ _ _ _ R Hc) as Q.
  split; [|split].
  - rewrite (run_filter E is_query cs quiet_query
               (filter_query_srv_events E) w1 w Hrun).
    destruct Hc as (_ & Hp & Hd).
    assert (Hg : exists port,
      governing_port (snd (gpr_split_host_port E name)) default_port
      = Some port).
    { destruct (snd (gpr_split_host_port E name)) as [p|]; [now exists p|].
      destruct default_port as [d|]; [now exists d|].
      destruct Hp; congruence. }
    destruct Hg as (port & Hg).
    destruct (resolve_effect E is_query name default_port ip cb lb
                (fresh_world a l) w1 host port quiet_query Hh Hg Hd Hw1)
      as (dlt & Ht & Hf).
    rewrite Ht. cbn [trace fresh_world app]. rewrite Hf.
    unfold resolve_events. rewrite !filter_app.
    destruct (grpc_ipv6_loopback_available E), lb; cbn [filter is_query app];
      try reflexivity; destruct (query_inline E _);
      rewrite ?filter_query_srv_events; reflexivity.
  - apply (quiescent_order _ _ _ Q).
  - intros i nm abuf r Hq Hr ps reply.
    destruct (reachable_complete _ _ _ _ _ _ _ _ _ _ _
                (OSrv (SrvSuccess abuf)) R Hq I) as (w' & Hw' & _).
    destruct (complete_effect E is_issuance w i _ w' quiet_issuance Hw')
      as (r0 & d & Hr0 & Ht & Hf & Hs).
    rewrite Hr in Hr0. inversion Hr0; subst r0; clear Hr0.
    exists w', d. split; [exact Hw'|]. split; [exact Ht|].
    assert (Hdrv : ev_driver r = drv).
    { destruct Q as [(r1 & C & _)|(Hn & _)]; [|congruence].
      rewrite (c_req _ _ _ _ _ _ C) in Hr. inversion Hr; subst r1.
      apply (c_drv _ _ _ _ _ _ C). }
    assert (Hcb : on_done r = cb).
    { destruct Q as [(r1 & C & _)|(Hn & _)]; [|congruence].
      rewrite (c_req _ _ _ _ _ _ C) in Hr. inversion Hr; subst r1.
      apply (c_cb _ _ _ _ _ _ C). }
    split.
    + rewrite Hf. cbn [status_of abuf_of]. rewrite Hdrv.
      apply filter_issuance_srv_events.
    + intros Hps. unfold complete in Hw'. rewrite Hq in Hw'.
      cbn [deliver_srv] in Hw'. rewrite srv_cb_success_unfold in Hw'.
      cbv zeta in Hw'. fold ps reply in Hw'.
      destruct (Z.eqb_spec ps ARES_SUCCESS) as [|_]; [contradiction|].
      destruct (unref_effect _ _ _ Hw')
        as (r2 & d2 & Hr2 & Ht2 & _ & _ & _ & _ & _ & Hcase).
      assert (Hr2' : r2 = r).
      { destruct reply; cbn in Hr2; rewrite Hr in Hr2; congruence. }
      subst r2.
      destruct Hcase as [(_ & -> & Hd2)|(_ & -> & _)]; [|split; reflexivity].
      rewrite Ht in Ht2.
      assert (Htr : trace (free_reply reply
                       (emit (EvParseSrvReply ps reply)
                          (emit (EvSrvDone ARES_SUCCESS)
                             (set_inflight (remove_nth i (inflight w)) w))))
                    = trace w ++ [EvSrvDone ARES_SUCCESS;
                                   EvParseSrvReply ps reply]
                              ++ free_events reply).
      { destruct reply; cbn; rewrite <- ?app_assoc; reflexivity. }
      rewrite Htr, <- !app_assoc in Ht2. apply app_inv_head in Ht2.
      rewrite Ht2, Hd2, <- Hcb. cbn [ctx_or_stack teardown].
      rewrite !in_app_iff. right. right. cbn. auto.
Qed.

Lemma C5_srv_discovery_witness :
  creates_request example_library "svc.example.com:443" None 0%nat /\
  exists w1,
    grpc_resolve_grpclb_address_ares example_library "svc.example.com:443"
      None 0%nat 5%nat (fresh_world None None) = Some w1 /\
    filter is_query (trace w1)
    = [EvQuery "_grpclb._tcp.svc.example.com" ns_c_in ns_t_srv].
Proof.
  assert (H : creates_request example_library "svc.example.com:443" None 0%nat).
  { unfold creates_request. cbn.
    repeat split; [discriminate | left; discriminate]. }
  split; [exact H|].
  assert (Hh : fst (gpr_split_host_port example_library "svc.example.com:443")
               = Some "svc.example.com"%string) by (vm_compute; reflexivity).
  destruct (C5_srv_discovery example_library "svc.example.com:443" None
              0%nat 5%nat true None None "svc.example.com"%string H Hh)
    as (_ & w1 & Hw1 & Hall).
  exists w1. split; [exact Hw1|].
  exact (proj1 (Hall [] w1 eq_refl)).
Defined.

(** C10.  In every world that a resolve call and completions lead to, when
    c-ares completes the SRV query the callback returns, and of the calls
    [ares_parse_srv_reply] and [ares_free_data] it makes: none with a
    failure status; with [ARES_SUCCESS], the parse, which stores the reply
    holder, followed by [ares_free_data] of that same holder exactly when
    the holder is not null.  The same holds of any run of the callback that
    returns, in any world and for any status. *)
Theorem C10_reply_released_only_after_parse E name default_port ip cb lb a l :
  let calls status abuf :=
    if status =? ARES_SUCCESS
    then EvParseSrvReply (fst (ares_parse_srv_reply E abuf))
                         (snd (ares_parse_srv_reply E abuf))
         :: match snd (ares_parse_srv_reply E abuf) with
            | [] => []
            | reply => [EvFreeData reply]
            end
    else [] in
  (forall status abuf w w',
     on_srv_query_done_cb E status abuf w = Some w' ->
     exists d, trace w' = trace w ++ d /\
               filter is_parse_or_free d = calls status abuf) /\
  (forall w i nm o,
     reachable E name default_port ip cb lb a l w ->
     nth_error (inflight w) i = Some (QSrv nm) ->
     exists w' d, complete E w (i, OSrv o) = Some w' /\
       trace w' = trace w ++ d /\
       filter is_parse_or_free d = calls (status_of o) (abuf_of o)).
Proof.
  cbv zeta.
  assert (Hcalls : forall drv status abuf,
    filter is_parse_or_free (srv_events E drv status abuf)
    = if status =? ARES_SUCCESS
      then EvParseSrvReply (fst (ares_parse_srv_reply E abuf))
                           (snd (ares_parse_srv_reply E abuf))
           :: match snd (ares_parse_srv_reply E abuf) with
              | [] => []
              | reply => [EvFreeData reply]
              end
      else []).
  { intros. rewrite filter_parse_or_free_srv_events. unfold free_events.
    destruct (status =? ARES_SUCCESS); [|reflexivity].
    destruct (snd (ares_parse_srv_reply E abuf)); reflexivity. }
  split.
  - intros status abuf w w' H.
    destruct (srv_cb_effect E is_parse_or_free _ _ _ _ quiet_parse_or_free H)
      as (r & d & _ & Ht & Hf & _).
    exists d. split; [exact Ht|]. rewrite Hf. apply Hcalls.
  - intros w i nm o R Hq.
    destruct (reachable_complete _ _ _ _ _ _ _ _ _ _ _ (OSrv o) R Hq I)
      as (w' & Hw' & _).
    destruct (complete_effect E is_parse_or_free w i _ w'
                quiet_parse_or_free Hw') as (r & d & _ & Ht & Hf & _).
    exists w', d. split; [exact Hw'|]. split; [exact Ht|].
    rewrite Hf. apply Hcalls.
Qed.

Lemma C10_reply_released_only_after_parse_witness :
  exists w',
    complete example_library example_open_world (2%nat, OSrv (SrvFailure 4))
    = Some w' /\
    filter is_parse_or_free (trace w') = [].
Proof.
  assert (R : reachable example_library "svc.example.com:443" None 0%nat
                5%nat true None None example_open_world).
  { exists example_open_world, []. split; [vm_compute|]; reflexivity. }
  assert (Hq : nth_error (inflight example_open_world) 2
               = Some (QSrv "_grpclb._tcp.svc.example.com"))
    by (vm_compute; reflexivity).
  destruct (proj2 (C10_reply_released_only_after_parse example_library
                     "svc.example.com:443" None 0%nat 5%nat true None None)
              example_open_world 2%nat _ (SrvFailure 4) R Hq)
    as (w' & d & Hw' & Ht & Hf).
  exists w'. split; [exact Hw'|].
  rewrite Ht, filter_app, Hf. reflexivity.
Defined.

(** ** C8, C9 and C4: where the code departs *)

(** C8 (the code departs from the claim).  When the name has a host and a
    port but [grpc_ares_ev_driver_create] fails, the resolve call logs the
    error and returns: the trace grows by the log entry alone, no request
    exists and nothing is in flight, so that no completion can follow.
    [on_done] is scheduled zero times, where the claim says once; the two
    error paths before this one do schedule it. *)
Theorem C8_driver_failure_skips_on_done E name default_port ip cb lb a l
    host port :
  fst (gpr_split_host_port E name) = Some host ->
  governing_port (snd (gpr_split_host_port E name)) default_port = Some port ->
  fst (grpc_ares_ev_driver_create E ip) <> GRPC_ERROR_NONE ->
  exists w',
    resolve_address_ares_impl E name default_port ip cb lb (fresh_world a l)
    = Some w' /\
    trace w' = [EvLogError "grpc_ares_ev_driver_create() failed"
                  (fst (grpc_ares_ev_driver_create E ip))] /\
    req w' = None /\ inflight w' = [] /\
    forall cs w, run E w' cs = Some w ->
      w = w' /\ count is_sched (trace w) = 0.
Proof.
  intros Hh Hp Hd. unfold resolve_address_ares_impl.
  destruct (gpr_split_host_port E name) as [h p0]. cbn [fst snd] in *.
  subst h. destruct (grpc_ares_ev_driver_create E ip) as [err drv].
  cbn [fst snd] in *.
  assert (Hport : match p0 with
                  | Some p => inl p
                  | None => match default_port with
                            | Some d => inl d
                            | None => inr (grpc_error_set_str
                                (GRPC_ERROR_CREATE "no port in name")
                                GRPC_ERROR_STR_TARGET_ADDRESS name)
                            end
                  end = inl port).
  { destruct p0; cbn in Hp; [congruence|]. subst default_port. reflexivity. }
  rewrite Hport. destruct err as [|ds ss cs0]; [contradiction|].
  cbn [is_error_none negb]. eexists. split; [reflexivity|].
  repeat split.
  - apply (run_nothing_in_flight E cs (emit _ (fresh_world a l)) w eq_refl H).
  - rewrite (run_nothing_in_flight E cs (emit _ (fresh_world a l)) w
               eq_refl H).
    reflexivity.
Qed.

Lemma C8_driver_failure_skips_on_done_witness :
  exists w',
    grpc_resolve_address_ares_impl example_library_without_driver
      "svc.example.com:443" None 0%nat 5%nat (fresh_world None None)
    = Some w' /\
    trace w' = [EvLogError "grpc_ares_ev_driver_create() failed"
                  (GRPC_ERROR_CREATE "ares_init_options failed")] /\
    inflight w' = [].
Proof.
  assert (Hh : fst (gpr_split_host_port example_library_without_driver
                      "svc.example.com:443")
               = Some "svc.example.com"%string) by (vm_compute; reflexivity).
  assert (Hp : governing_port
                 (snd (gpr_split_host_port example_library_without_driver
                         "svc.example.com:443")) None
               = Some "443"%string) by (vm_compute; reflexivity).
  destruct (C8_driver_failure_skips_on_done example_library_without_driver
              "svc.example.com:443" None 0%nat 5%nat false None None
              "svc.example.com"%string "443"%string Hh Hp)
    as (w' & Hw' & Ht & _ & Hq & _); [discriminate|].
  exists w'. split; [exact Hw'|]. split; [exact Ht | exact Hq].
Defined.

(** C9 (the code departs from the claim).  In every world that a resolve
    call and completions lead to: a hostname completion makes all its
    accesses to [success] and [error] with the mutex held; an SRV completion
    with a failure status reads [success] and, when it is false, reads and
    writes [error], all without the mutex, which [on_srv_query_done_cb]
    never locks. *)
Theorem C9_srv_callback_skips_the_mutex E name default_port ip cb lb a l w :
  reachable E name default_port ip cb lb a l w ->
  (forall i hr fam o,
     nth_error (inflight w) i = Some (QHost hr fam) ->
     exists w' log,
       complete E w (i, OHost o) = Some w' /\
       accesses w' = accesses w ++ log /\
       log <> [] /\ Forall (fun x => acc_mu_held x = true) log) /\
  (forall i nm code r,
     nth_error (inflight w) i = Some (QSrv nm) -> req w = Some r ->
     exists w',
       complete E w (i, OSrv (SrvFailure code)) = Some w' /\
       accesses w'
       = accesses w ++
         (if success r then [mkAccess FSuccess Load false]
          else [mkAccess FSuccess Load false; mkAccess FError Load false;
                mkAccess FError Store false])).
Proof.
  intros R. split.
  - intros i hr fam o Hq.
    destruct (reachable_complete _ _ _ _ _ _ _ _ _ _ _ (OHost o) R Hq I)
      as (w' & Hw' & _).
    exists w'. unfold complete in Hw'. rewrite Hq in Hw'.
    assert (H' : exists status he,
      on_hostbyname_done_cb E hr status he
        (set_inflight (remove_nth i (inflight w)) w) = Some w')
      by (destruct o; cbn in Hw'; eauto).
    destruct H' as (status & he & H').
    destruct (host_cb_effect _ _ _ _ _ _ H')
      as (r & d & _ & _ & _ & _ & _ & _ & _ & Hac & _).
    exists (host_accesses status r).
    split; [unfold complete; rewrite Hq; exact Hw'|].
    split; [exact Hac|]. unfold host_accesses, failure_accesses.
    destruct (status =? ARES_SUCCESS), (success r);
      (split; [discriminate | repeat constructor]).
  - intros i nm code r Hq Hr.
    destruct (reachable_complete _ _ _ _ _ _ _ _ _ _ _
                (OSrv (SrvFailure code)) R Hq I) as (w' & Hw' & _).
    exists w'. split; [exact Hw'|].
    pose proof (reachable_in_flight _ _ _ _ _ _ _ _ _ _ _ R Hq) as Hc.
    pose proof (reachable_quiescent _ _ _ _ _ _ _ _ _ R Hc) as Q.
    assert (Hmu : mu_locked r = false).
    { destruct Q as [(r1 & C & _)|(Hn & _)]; [|congruence].
      rewrite (c_req _ _ _ _ _ _ C) in Hr. inversion Hr; subst r1.
      apply (c_mu _ _ _ _ _ _ C). }
    unfold complete in Hw'. rewrite Hq in Hw'. cbn [deliver_srv] in Hw'.
    rewrite (srv_cb_failure_unfold E (Z.pos code) [] _ r) in Hw';
      [|exact Hr | discriminate].
    destruct (unref_effect _ _ _ Hw')
      as (r2 & d2 & _ & _ & _ & _ & _ & _ & Hac & _).
    rewrite Hac. cbn [accesses set_inflight]. rewrite Hmu.
    reflexivity.
Qed.

Lemma C9_srv_callback_skips_the_mutex_witness :
  exists w',
    complete example_library example_open_world (2%nat, OSrv (SrvFailure 4))
    = Some w' /\
    accesses w'
    = [mkAccess FSuccess Load false; mkAccess FError Load false;
       mkAccess FError Store false].
Proof.
  assert (R : reachable example_library "svc.example.com:443" None 0%nat
                5%nat true None None example_open_world).
  { exists example_open_world, []. split; [vm_compute|]; reflexivity. }
  assert (Hq : nth_error (inflight example_open_world) 2
               = Some (QSrv "_grpclb._tcp.svc.example.com"))
    by (vm_compute; reflexivity).
  destruct (proj2 (C9_srv_callback_skips_the_mutex example_library
                     "svc.example.com:443" None 0%nat 5%nat true None None
                     example_open_world R)
              2%nat _ 4%positive
              (mkRequest 5%nat true 7%nat 3 false false GRPC_ERROR_NONE)
              Hq eq_refl)
    as (w' & Hw' & Hac).
  exists w'. split; [exact Hw' | exact Hac].
Defined.

(** C4 (the code departs from the claim).  On a little-endian host, a
    load-balancer resolve whose SRV reply names the target
    "lb.example.com" with port 443: the address resolved for that target is
    stored with the port field 443, the value as the SRV parser returned
    it, not [htons 443] = 47873.  [on_srv_query_done_cb] passes
    [srv_it->port] to [create_hostbyname_request] unconverted, where
    [resolve_address_ares_impl] passes [strhtons (port)]. *)
Theorem C4_srv_target_port_not_converted :
  exists w e,
    run example_library example_open_world
      [(2%nat, OSrv (SrvSuccess [])); (3%nat, OHost (HostSuccess example_hostent))]
    = Some w /\
    lb_addrs w = Some [e] /\
    is_balancer e = true /\
    balancer_name e = Some "lb.example.com"%string /\
    sa_port (addr (address e)) = 443 /\
    htons example_library 443 = 47873 /\
    strhtons example_library "443" = 47873.
Proof.
  eexists. eexists. vm_compute. repeat split.
Qed.

(** ** The loops that fill the output lists, in closed form *)

Lemma gpr_realloc_grow {A} (junk : A) (a : list A) (n : nat) :
  gpr_realloc junk a (List.length a + n) = a ++ repeat junk n.
Proof.
  unfold gpr_realloc. rewrite firstn_all2 by lia. f_equal. f_equal. lia.
Qed.

Lemma for_loop_fill {A} (junk zero : A) (mk : nat -> A) (n : nat) :
  forall pre : list A,
  for_loop n (List.length pre)
    (fun i a => array_set i (mk i) (array_set i zero a))
    (pre ++ repeat junk n)
  = pre ++ map mk (seq (List.length pre) n).
Proof.
  induction n as [|n IH]; intros pre; cbn [for_loop repeat seq map].
  - reflexivity.
  - rewrite !array_set_app_here.
    replace (pre ++ mk (List.length pre) :: repeat junk n)
      with ((pre ++ [mk (List.length pre)]) ++ repeat junk n)
      by (rewrite <- app_assoc; reflexivity).
    replace (Datatypes.S (List.length pre))
      with (List.length (pre ++ [mk (List.length pre)]))
      by (rewrite length_app; cbn; lia).
    rewrite IH, <- app_assoc. reflexivity.
Qed.

Lemma map_nth_seq {A B} (g : A -> B) (d : A) (l : list A) (p : nat) :
  map (fun i => g (nth (i - p) l d)) (seq p (List.length l)) = map g l.
Proof.
  revert p. induction l as [|x l IH]; intros p; cbn [List.length seq map].
  - reflexivity.
  - replace (p - p)%nat with 0%nat by lia. cbn [nth]. f_equal.
    rewrite <- (IH (Datatypes.S p)). apply map_ext_in. intros i Hi.
    apply in_seq in Hi.
    replace (i - p)%nat with (Datatypes.S (i - Datatypes.S p)) by lia.
    reflexivity.
Qed.

Lemma append_resolved_addresses_eq hr he w :
  addrs (append_resolved_addresses hr he w)
  = Some (stored (addrs w) ++ map (address_of hr he) (h_addr_list he)) /\
  lb_addrs (append_resolved_addresses hr he w) = lb_addrs w.
Proof.
  unfold append_resolved_addresses. cbn [addrs lb_addrs set_addrs].
  split; [|reflexivity]. f_equal. fold (stored (addrs w)).
  set (old := stored (addrs w)).
  replace (List.length old + List.length (h_addr_list he)
           - List.length old)%nat
    with (List.length (h_addr_list he)) by lia.
  rewrite gpr_realloc_grow.
  rewrite (for_loop_fill zero_resolved_address zero_resolved_address
             (fun i => sockaddr_of hr he (i - List.length old))).
  f_equal. apply (map_nth_seq (address_of hr he)).
Qed.

Lemma append_lb_addresses_eq hr he w :
  lb_addrs (append_lb_addresses hr he w)
  = Some (stored (lb_addrs w) ++ map (lb_address_of hr he) (h_addr_list he)) /\
  addrs (append_lb_addresses hr he w) = addrs w.
Proof.
  unfold append_lb_addresses, grpc_lb_addresses_create,
    grpc_lb_addresses_set_address.
  cbn [addrs lb_addrs set_lb_addrs].
  split; [|reflexivity]. f_equal. fold (stored (lb_addrs w)).
  set (old := stored (lb_addrs w)).
  replace (List.length old + List.length (h_addr_list he)
           - List.length old)%nat
    with (List.length (h_addr_list he)) by lia.
  rewrite gpr_realloc_grow.
  rewrite (for_loop_fill zero_lb_address zero_lb_address
             (fun i => mkLb (sockaddr_of hr he (i - List.length old))
                            (hr_is_balancer hr)
                            (if hr_is_balancer hr then Some (hr_host hr)
                             else None) None)).
  f_equal. apply (map_nth_seq (lb_address_of hr he)).
Qed.

(** ** Outcomes are preserved *)

Lemma host_success_is_done e : is_host_success e = true -> is_host_done e = true.
Proof. destruct e; cbn; auto; discriminate. Qed.

Lemma no_host_done_no_success d :
  existsb is_host_done d = false -> existsb is_host_success d = false.
Proof.
  induction d as [|e d IH]; cbn; [reflexivity|].
  intros H. apply orb_false_iff in H as [He Hd].
  rewrite (IH Hd), orb_false_r.
  destruct (is_host_success e) eqn:Hs; [|reflexivity].
  rewrite (host_success_is_done e Hs) in He. discriminate.
Qed.

(** Nothing changes but the trace, by events that are no hostname
    completion, and fields of the request other than [success] and
    [error]. *)
Lemma settled_frame lb a0 l0 w r w' r' d :
  Settled lb a0 l0 w r ->
  success r' = success r -> error r' = error r ->
  lb_addrs_out r' = lb_addrs_out r ->
  trace w' = trace w ++ d -> existsb is_host_done d = false ->
  addrs w' = addrs w -> lb_addrs w' = lb_addrs w ->
  Settled lb a0 l0 w' r'.
Proof.
  intros S Hs He Hl Ht Hd Ha Hb. destruct S.
  constructor; rewrite ?Hs, ?He, ?Hl, ?Ht, ?existsb_app, ?Hd,
    ?(no_host_done_no_success d Hd), ?orb_false_r; auto.
  - unfold populated. rewrite Ha, Hb. exact s_slot0.
  - rewrite Ha, Hb. exact s_other0.
Qed.

Lemma seen_frame w w' d q :
  Seen w -> trace w' = trace w ++ d -> inflight w' = inflight w ++ q ->
  Seen w'.
Proof.
  unfold Seen. intros S Ht Hq. rewrite Ht, Hq, !existsb_app.
  apply orb_true_iff in S as [S|S]; rewrite S; cbn;
    rewrite ?orb_true_r; reflexivity.
Qed.

Lemma chained_not_none E status e : is_error_none (chained E status e) = false.
Proof. unfold chained. destruct e; reflexivity. Qed.

(** The state a hostname callback has reached before it releases its
    reference. *)
Lemma settled_fold_host lb a0 l0 E hr status he w r ac :
  Settled lb a0 l0 w r -> (status = ARES_SUCCESS -> he <> None) ->
  let w_mid :=
    mkWorld (Some (fold_host E status r))
      (addrs (fold_slots hr status he r w))
      (lb_addrs (fold_slots hr status he r w))
      (inflight w) (trace w ++ [EvHostDone hr status]) ac in
  Settled lb a0 l0 w_mid (fold_host E status r) /\ Seen w_mid.
Proof.
  intros S Hhe. cbv zeta. split.
  - destruct S. unfold fold_host, fold_slots, fold_failure.
    destruct (Z.eqb_spec status ARES_SUCCESS) as [Hs|Hs].
    + destruct he as [h|]; [|now destruct (Hhe Hs)]. subst status.
      rewrite s_lb0.
      constructor; cbn [trace success error lb_addrs_out with_success
                        with_error addrs lb_addrs]; auto.
      * rewrite existsb_app. cbn. rewrite orb_true_r. reflexivity.
      * unfold populated. cbn [addrs lb_addrs]. destruct lb.
        -- rewrite (proj1 (append_lb_addresses_eq hr h w)). reflexivity.
        -- rewrite (proj1 (append_resolved_addresses_eq hr h w)).
           reflexivity.
      * destruct lb.
        -- rewrite (proj2 (append_lb_addresses_eq hr h w)). exact s_other0.
        -- rewrite (proj2 (append_resolved_addresses_eq hr h w)).
           exact s_other0.
    + assert (Hst : (status =? ARES_SUCCESS) = false)
        by (apply Z.eqb_neq; exact Hs).
      assert (Hsl : match he with Some _ => w | None => w end = w)
        by (destruct he; reflexivity).
      rewrite Hsl.
      destruct (success r) eqn:Hsucc.
      * constructor; cbn [trace addrs lb_addrs]; rewrite ?Hsucc,
          ?existsb_app; cbn [existsb is_host_success];
          rewrite ?Hst, ?orb_false_r; auto.
        discriminate.
      * constructor; cbn [trace addrs lb_addrs success error with_error
                          lb_addrs_out];
          rewrite ?Hsucc, ?existsb_app; cbn [existsb is_host_success];
          rewrite ?Hst, ?orb_false_r; auto.
        all: try discriminate.
        all: try (intros _ _; apply chained_not_none).
        all: try (unfold populated in *; cbn [addrs lb_addrs];
                  exact s_slot0).
  - unfold Seen. cbn [trace inflight]. rewrite existsb_app. cbn.
    rewrite !orb_true_r. reflexivity.
Qed.

(** Releasing a reference in a settled world. *)
Lemma tally_unref lb a0 l0 ctx w r w' :
  Settled lb a0 l0 w r -> Seen w -> req w = Some r ->
  grpc_ares_request_unref ctx w = Some w' ->
  Tally lb a0 l0 w'.
Proof.
  intros S Sn Hr H.
  destruct (unref_effect _ _ _ H)
    as (r0 & d & Hr0 & Ht & _ & Hq & Ha & Hl & _ & Hcase).
  rewrite Hr in Hr0. inversion Hr0; subst r0; clear Hr0.
  unfold Tally. destruct Hcase as [(_ & -> & Hd)|(_ & -> & Hd)].
  - intros Hq'. rewrite Hq in Hq'.
    assert (Hdone : existsb is_host_done (trace w) = true).
    { unfold Seen in Sn. rewrite Hq' in Sn. exact Sn. }
    exists (trace w), (ctx_or_stack ctx), (on_done r), (error r),
      (ev_driver r).
    assert (Hpop : populated lb w' = populated lb w)
      by (unfold populated; rewrite Ha, Hl; reflexivity).
    rewrite Ht, Hd, Hpop, Ha, Hl.
    destruct S. split; [reflexivity|]. split; [|split; [|split]]; auto.
    + rewrite <- s_succ0. destruct (success r) eqn:Hs.
      * rewrite s_err0; reflexivity.
      * apply s_fail0; auto.
    + rewrite <- s_succ0. exact s_slot0.
  - split.
    + apply (settled_frame lb a0 l0 w r _ _ d S); auto. now rewrite Hd.
    + apply (seen_frame w _ d [] Sn Ht). now rewrite app_nil_r.
Qed.

Lemma tally_host_cb lb a0 l0 E hr status he w r w' :
  Settled lb a0 l0 w r -> req w = Some r ->
  on_hostbyname_done_cb E hr status he w = Some w' ->
  Tally lb a0 l0 w'.
Proof.
  intros S Hr H.
  destruct (host_cb_runs _ _ _ _ _ _ H) as (r0 & Hr0 & Hmu & Hhe).
  rewrite Hr in Hr0. inversion Hr0; subst r0; clear Hr0.
  rewrite (host_cb_unfold E hr status he w r Hr Hmu Hhe) in H.
  destruct (settled_fold_host lb a0 l0 E hr status he w r
              (accesses w ++ host_accesses status r) S Hhe) as (S' & Sn').
  apply (tally_unref lb a0 l0 None _ _ w' S' Sn' eq_refl H).
Qed.

Lemma settled_emit lb a0 l0 w r e :
  Settled lb a0 l0 w r -> is_host_done e = false ->
  Settled lb a0 l0 (emit e w) r.
Proof.
  intros S He. apply (settled_frame lb a0 l0 w r _ _ [e] S); auto.
  cbn. now rewrite He.
Qed.

Lemma seen_emit w e : Seen w -> Seen (emit e w).
Proof.
  intros S. apply (seen_frame w _ [e] [] S); [reflexivity|].
  cbn. now rewrite app_nil_r.
Qed.

Lemma tally_issue_host lb a0 l0 E host port bal fam w r hr w1 w' :
  Settled lb a0 l0 w r -> req w = Some r ->
  create_hostbyname_request host port bal w = Some (hr, w1) ->
  ares_gethostbyname E hr fam w1 = Some w' ->
  forall r', req w' = Some r' -> Settled lb a0 l0 w' r' /\ Seen w'.
Proof.
  intros S Hr. unfold create_hostbyname_request, grpc_ares_request_ref.
  rewrite Hr. intros H. inversion H; subst hr w1; clear H.
  unfold ares_gethostbyname. cbn [hr_host].
  set (hr := mkHostRequest host port bal).
  set (r1 := with_pending (pending_queries r + 1) r).
  set (w1 := emit (EvGetHostByName hr fam)
               (emit (EvRef (pending_queries r)) (set_req (Some r1) w))).
  assert (S1 : Settled lb a0 l0 w1 r1).
  { apply (settled_frame lb a0 l0 w r w1 r1
             [EvRef (pending_queries r); EvGetHostByName hr fam] S); auto.
    unfold w1. cbn. rewrite <- app_assoc. reflexivity. }
  destruct (gethostbyname_inline E host fam) as [o|]; intros H r' Hr'.
  - assert (T : Tally lb a0 l0 w').
    { destruct o; cbn [deliver_host] in H;
        apply (tally_host_cb lb a0 l0 E hr _ _ w1 r1 w' S1 eq_refl H). }
    unfold Tally in T. rewrite Hr' in T. exact T.
  - inversion H; subst w'; clear H. cbn in Hr'. inversion Hr'; subst r'.
    split.
    + apply (settled_frame lb a0 l0 w1 r1 _ r1 [] S1); auto.
      cbn. now rewrite app_nil_r.
    + unfold Seen. cbn [inflight set_inflight]. rewrite existsb_app. cbn.
      rewrite orb_true_r. reflexivity.
Qed.

Lemma tally_srv_loop lb a0 l0 E reply : forall w r w',
  Settled lb a0 l0 w r -> req w = Some r ->
  srv_reply_loop E reply w = Some w' ->
  forall r', req w' = Some r' ->
  Settled lb a0 l0 w' r' /\ (Seen w -> Seen w').
Proof.
  induction reply as [|s next IH]; intros w r w' S Hr H r' Hr'.
  - inversion H; subst w'. rewrite Hr in Hr'. inversion Hr'; subst r'. auto.
  - cbn [srv_reply_loop] in H.
    assert (H6 : exists w6 r6, (if grpc_ipv6_loopback_available E then
         '(hr, w0) <- create_hostbyname_request
                        (srv_host s) (srv_port s) true w ;;
         ares_gethostbyname E hr AF_INET6 w0
       else Some w) = Some w6 /\
       (req w6 = Some r6 -> Settled lb a0 l0 w6 r6)).
    { destruct (grpc_ipv6_loopback_available E).
      - destruct (create_hostbyname_request _ _ _ w) as [[hr w0]|] eqn:Hc;
          [|discriminate].
        destruct (ares_gethostbyname E hr AF_INET6 w0) as [w6|] eqn:Hg;
          [|discriminate].
        destruct (req w6) as [r6|] eqn:Hr6.
        + exists w6, r6. split; [reflexivity|]. intros _.
          apply (tally_issue_host lb a0 l0 _ _ _ _ _ _ _ _ _ _ S Hr Hc Hg
                   r6 Hr6).
        + exists w6, r. split; [reflexivity | congruence].
      - exists w, r. split; [reflexivity|]. intros _. exact S. }
    destruct H6 as (w6 & r6 & H6 & S6). rewrite H6 in H.
    destruct (create_hostbyname_request _ _ _ w6) as [[hr w0]|] eqn:Hc;
      [|discriminate].
    destruct (ares_gethostbyname E hr AF_INET w0) as [w4|] eqn:Hg;
      [|discriminate].
    destruct (req w4) as [r4|] eqn:Hr4; [|discriminate].
    destruct (issue_host_effect _ _ _ _ _ _ _ _ _ Hc Hg)
      as (r6' & _ & Hr6' & _).
    assert (S6' : Settled lb a0 l0 w6 r6').
    { destruct (req w6) as [x|] eqn:Hx; [|discriminate].
      inversion Hr6'; subst x.
      destruct (grpc_ipv6_loopback_available E).
      - destruct (create_hostbyname_request _ _ _ w) as [[hr' w0']|] eqn:Hc';
          [|discriminate].
        apply (tally_issue_host lb a0 l0 _ _ _ _ _ _ _ _ _ _ S Hr Hc' H6
                 r6' Hx).
      - inversion H6; subst w6. rewrite Hr in Hx. inversion Hx; subst r6'.
        exact S. }
    destruct (tally_issue_host lb a0 l0 _ _ _ _ _ _ _ _ _ _ S6' Hr6' Hc Hg
                r4 Hr4) as (S4 & Sn4).
    destruct (IH (emit (EvDriverStart (ev_driver r4)) w4) r4 w'
                (settled_emit lb a0 l0 w4 r4 (EvDriverStart (ev_driver r4))
                   S4 eq_refl) Hr4 H r' Hr')
      as (S' & Sn').
    split; [exact S'|]. intros _. apply Sn'. apply seen_emit. exact Sn4.
Qed.

Lemma settled_fold_failure lb a0 l0 E status w r ac :
  Settled lb a0 l0 w r ->
  Settled lb a0 l0
    (mkWorld (Some (fold_failure E status r)) (addrs w) (lb_addrs w)
       (inflight w) (trace w ++ [EvSrvDone status]) ac)
    (fold_failure E status r).
Proof.
  intros S. unfold fold_failure. destruct (success r) eqn:Hsucc.
  - apply (settled_frame lb a0 l0 w r _ _ [EvSrvDone status] S); auto.
  - destruct S. constructor;
      cbn [trace addrs lb_addrs success error with_error lb_addrs_out];
      rewrite ?Hsucc, ?existsb_app; cbn [existsb is_host_success];
      rewrite ?orb_false_r; auto.
    all: try discriminate.
    all: try (intros _ _; apply chained_not_none).
    all: try (unfold populated in *; cbn [addrs lb_addrs]; congruence).
Qed.

Lemma tally_srv_cb lb a0 l0 E status abuf w r w' :
  Settled lb a0 l0 w r -> Seen w -> req w = Some r ->
  on_srv_query_done_cb E status abuf w = Some w' ->
  Tally lb a0 l0 w'.
Proof.
  intros S Sn Hr H.
  destruct (Z.eqb_spec status ARES_SUCCESS) as [Hs|Hs].
  - subst status. rewrite srv_cb_success_unfold in H. cbv zeta in H.
    set (ps := fst (ares_parse_srv_reply E abuf)) in *.
    set (reply := snd (ares_parse_srv_reply E abuf)) in *.
    set (w0 := emit (EvParseSrvReply ps reply)
                 (emit (EvSrvDone ARES_SUCCESS) w)) in *.
    assert (S0 : Settled lb a0 l0 w0 r)
      by (apply settled_emit; [apply settled_emit|]; auto).
    assert (Sn0 : Seen w0) by (apply seen_emit, seen_emit; exact Sn).
    destruct (if ps =? ARES_SUCCESS then srv_reply_loop E reply w0
              else Some w0) as [w1|] eqn:H1; [|discriminate].
    destruct (unref_effect _ _ _ H) as (r2 & _ & Hr2 & _).
    assert (Hr2' : req w1 = Some r2) by (destruct reply; exact Hr2).
    assert (S1 : Settled lb a0 l0 w1 r2 /\ Seen w1).
    { destruct (ps =? ARES_SUCCESS).
      - destruct (tally_srv_loop lb a0 l0 E reply w0 r w1 S0 Hr H1 r2 Hr2')
          as (S1 & Sn1). auto.
      - inversion H1; subst w1. cbn in Hr2'. rewrite Hr in Hr2'.
        inversion Hr2'; subst r2. auto. }
    destruct S1 as (S1 & Sn1).
    apply (tally_unref lb a0 l0 (Some StackCtx) (free_reply reply w1) r2 w');
      auto.
    + destruct reply; cbn [free_reply]; [exact S1|].
      apply settled_emit; auto.
    + destruct reply; cbn [free_reply]; [exact Sn1|].
      apply seen_emit; auto.
  - rewrite (srv_cb_failure_unfold E status abuf w r Hr Hs) in H.
    pose proof (settled_fold_failure lb a0 l0 E status w r
                  (accesses w ++ failure_accesses (mu_locked r) r) S) as S'.
    apply (tally_unref lb a0 l0 (Some StackCtx) _ _ w' S'); auto.
    apply (seen_frame w _ [EvSrvDone status] [] Sn); [reflexivity|].
    cbn. now rewrite app_nil_r.
Qed.

Lemma existsb_remove_nth {A} (f : A -> bool) (l : list A) : forall i q,
  nth_error l i = Some q -> f q = false ->
  existsb f (remove_nth i l) = existsb f l.
Proof.
  induction l as [|x l IH]; intros [|i] q H Hf; cbn in *; try discriminate.
  - inversion H; subst x. now rewrite Hf.
  - now rewrite (IH i q H Hf).
Qed.

Lemma tally_complete lb a0 l0 E w c w' :
  Tally lb a0 l0 w -> complete E w c = Some w' -> Tally lb a0 l0 w'.
Proof.
  intros T H. destruct c as [i o].
  destruct (complete_effect E is_query w i o w' quiet_query H)
    as (r & _ & Hr & _).
  unfold Tally in T. rewrite Hr in T. destruct T as (S & Sn).
  unfold complete in H.
  destruct (nth_error (inflight w) i) as [[hr fam|nm]|] eqn:Hq;
    destruct o as [o|o]; try discriminate.
  - assert (S' : Settled lb a0 l0
                   (set_inflight (remove_nth i (inflight w)) w) r).
    { apply (settled_frame lb a0 l0 w r _ r [] S); auto.
      cbn. now rewrite app_nil_r. }
    destruct o; cbn [deliver_host] in H;
      apply (tally_host_cb lb a0 l0 E hr _ _ _ r w' S' Hr H).
  - rewrite deliver_srv_eq in H.
    apply (tally_srv_cb lb a0 l0 E (status_of o) (abuf_of o)
             (set_inflight (remove_nth i (inflight w)) w) r w'); auto.
    + apply (settled_frame lb a0 l0 w r _ r [] S); auto.
      cbn. now rewrite app_nil_r.
    + unfold Seen in *. cbn [inflight trace set_inflight].
      rewrite (existsb_remove_nth is_host_query _ i (QSrv nm) Hq eq_refl).
      exact Sn.
Qed.

Lemma tally_run lb a0 l0 E cs : forall w w',
  Tally lb a0 l0 w -> run E w cs = Some w' -> Tally lb a0 l0 w'.
Proof.
  induction cs as [|c cs IH]; intros w w' T H; cbn [run] in H.
  - now inversion H; subst.
  - destruct (complete E w c) as [w1|] eqn:Hc; [|discriminate].
    apply (IH w1 w' (tally_complete lb a0 l0 E w c w1 T Hc) H).
Qed.

Lemma tally_resolve E name default_port ip cb lb a l w1 :
  creates_request E name default_port ip ->
  resolve_address_ares_impl E name default_port ip cb lb (fresh_world a l)
  = Some w1 ->
  Tally lb a l w1.
Proof.
  intros (Hh & Hp & Hd). unfold resolve_address_ares_impl.
  destruct (gpr_split_host_port E name) as [[host|] port]; cbn [fst snd] in *;
    [|congruence].
  destruct (grpc_ares_ev_driver_create E ip) as [err drv]; cbn [fst snd] in *.
  subst err.
  set (port' := match port with Some p => inl p | None => _ end).
  assert (Hport : exists p, port' = inl p).
  { subst port'. destruct port as [p|]; [now exists p|].
    destruct default_port as [d|]; [now exists d|].
    destruct Hp; congruence. }
  destruct Hport as (p & ->). cbn [is_error_none negb].
  set (r0 := mkRequest cb lb drv 1 false false GRPC_ERROR_NONE).
  set (w0 := emit (EvRefInit 1) (set_req (Some r0) (fresh_world a l))).
  assert (S0 : Settled lb a l w0 r0).
  { constructor; cbn; auto; try discriminate.
    destruct lb; reflexivity. }
  destruct (if grpc_ipv6_loopback_available E then _ else Some w0)
    as [w6|] eqn:E6; [|discriminate].
  destruct (create_hostbyname_request _ _ _ w6) as [[hr w5]|] eqn:Hc;
    [|discriminate].
  destruct (ares_gethostbyname E hr AF_INET w5) as [w4|] eqn:Hg;
    [|discriminate].
  destruct (issue_host_effect _ _ _ _ _ _ _ _ _ Hc Hg) as (r6 & _ & Hr6 & _).
  assert (S6 : Settled lb a l w6 r6).
  { destruct (grpc_ipv6_loopback_available E).
    - destruct (create_hostbyname_request _ _ _ w0) as [[hr' w0']|] eqn:Hc';
        [|discriminate].
      apply (tally_issue_host lb a l _ _ _ _ _ _ _ _ _ _ S0 eq_refl Hc' E6
               r6 Hr6).
    - inversion E6; subst w6. cbn in Hr6. inversion Hr6; subst r6. exact S0. }
  pose proof (tally_issue_host lb a l _ _ _ _ _ _ _ _ _ _ S6 Hr6 Hc Hg) as T4.
  set (nm := ("_grpclb._tcp." ++ host)%string).
  destruct (if lb then _ else Some w4) as [ws|] eqn:Es; [|discriminate].
  destruct (req ws) as [rs|] eqn:Hrs; [|discriminate].
  intros H.
  assert (Ss : Settled lb a l ws rs /\ Seen ws).
  { destruct lb.
    - unfold grpc_ares_request_ref in Es.
      destruct (req w4) as [r4|] eqn:Hr4; [|discriminate].
      destruct (T4 r4 eq_refl) as (S4 & Sn4).
      unfold ares_query in Es.
      set (wq := emit (EvQuery nm ns_c_in ns_t_srv)
                   (emit (EvRef (pending_queries r4))
                      (set_req (Some (with_pending (pending_queries r4 + 1)
                                        r4)) w4))) in *.
      assert (Sq : Settled true a l wq
                     (with_pending (pending_queries r4 + 1) r4)).
      { apply (settled_frame true a l w4 r4 _ _
                 [EvRef (pending_queries r4); EvQuery nm ns_c_in ns_t_srv]
                 S4); auto.
        cbn. rewrite <- app_assoc. reflexivity. }
      assert (Snq : Seen wq).
      { apply (seen_frame w4 _
                 [EvRef (pending_queries r4); EvQuery nm ns_c_in ns_t_srv]
                 [] Sn4).
        - cbn. rewrite <- app_assoc. reflexivity.
        - cbn. now rewrite app_nil_r. }
      destruct (query_inline E nm) as [o|].
      + rewrite deliver_srv_eq in Es.
        pose proof (tally_srv_cb true a l E _ _ wq _ ws Sq Snq eq_refl Es)
          as T.
        unfold Tally in T. rewrite Hrs in T. exact T.
      + inversion Es; subst ws; clear Es. cbn in Hrs.
        inversion Hrs; subst rs. split.
        * apply (settled_frame true a l wq _ _ _ [] Sq); auto.
          cbn. now rewrite app_nil_r.
        * apply (seen_frame wq _ [] [QSrv nm] Snq); [|reflexivity].
          cbn. now rewrite app_nil_r.
    - inversion Es; subst ws. apply (T4 rs Hrs). }
  destruct Ss as (Ss & Sns).
  apply (tally_unref lb a l (Some CallerCtx)
           (emit (EvDriverStart (ev_driver rs)) ws) rs w1); auto.
  - apply settled_emit; auto.
  - apply seen_emit; auto.
Qed.



Lemma existsb_in_host_success t :
  existsb is_host_success t = true <->
  exists hr, In (EvHostDone hr ARES_SUCCESS) t.
Proof.
  rewrite existsb_exists. split.
  - intros (e & He & Hs). destruct e; try discriminate.
    cbn in Hs. apply Z.eqb_eq in Hs. subst. eauto.
  - intros (hr & H). exists (EvHostDone hr ARES_SUCCESS). auto.
Qed.

Lemma app_inj_suffix {A} (t t' s s' : list A) :
  List.length s = List.length s' -> t ++ s = t' ++ s' -> t = t' /\ s = s'.
Proof.
  revert t'. induction t as [|x t IH]; intros [|y t'] Hl H; cbn in H.
  - auto.
  - exfalso. apply (f_equal (@List.length A)) in H. cbn in H.
    rewrite length_app in H. lia.
  - exfalso. apply (f_equal (@List.length A)) in H. cbn in H.
    rewrite length_app in H. lia.
  - inversion H; subst y. destruct (IH t' Hl H2); subst. auto.
Qed.

(** In a world that a resolve call which created its request and
    completions led to, with the request gone, the outcome is closed. *)
Lemma reachable_closed E name default_port ip cb lb a l w :
  creates_request E name default_port ip ->
  reachable E name default_port ip cb lb a l w ->
  req w = None ->
  exists t0 ctx e,
    trace w = t0 ++ [EvUnref 1; EvClosureSched ctx cb e; EvMuDestroy;
                     EvDriverDestroy (snd (grpc_ares_ev_driver_create E ip));
                     EvFree] /\
    count is_teardown t0 = 0 /\
    is_error_none e = existsb is_host_success t0 /\
    populated lb w
    = existsb is_host_success t0 || populated lb (fresh_world a l) /\
    existsb is_host_done t0 = true /\
    (if lb then addrs w = a else lb_addrs w = l).
Proof.
  intros Hc R Hn.
  pose proof (reachable_quiescent _ _ _ _ _ _ _ _ _ R Hc) as Q.
  destruct R as (w1 & cs & H1 & Hrun).
  pose proof (tally_run lb a l E cs w1 w
                (tally_resolve E name default_port ip cb lb a l w1 Hc H1)
                Hrun) as T.
  unfold Tally in T. rewrite Hn in T.
  destruct Q as [(r & C & _)|(_ & Hq & t0 & ctx & e & Ht & F)].
  { rewrite (c_req _ _ _ _ _ _ C) in Hn. discriminate. }
  destruct (T Hq) as (t0' & ctx' & cb' & e' & drv' & Ht' & Te & Tp & Td & To).
  rewrite Ht in Ht'.
  match type of Ht' with
  | ?t ++ ?s = ?t' ++ ?s' =>
      destruct (app_inj_suffix t t' s s' eq_refl Ht') as (<- & Hsuf)
  end.
  inversion Hsuf; subst.
  exists t0, ctx', e'. repeat split; auto.
  apply F.
Qed.

(** ** The lists and what the callback is told *)




Lemma reachable_settled E name default_port ip cb lb a l w r :
  creates_request E name default_port ip ->
  reachable E name default_port ip cb lb a l w ->
  req w = Some r -> Settled lb a l w r.
Proof.
  intros Hc (w1 & cs & H1 & Hrun) Hr.
  pose proof (tally_run lb a l E cs w1 w
                (tally_resolve E name default_port ip cb lb a l w1 Hc H1)
                Hrun) as T.
  unfold Tally in T. rewrite Hr in T. apply T.
Qed.

Lemma reachable_populated E name default_port ip cb lb a l w :
  creates_request E name default_port ip ->
  slot_absent lb a l ->
  reachable E name default_port ip cb lb a l w ->
  (populated lb w = true <->
   exists hr, In (EvHostDone hr ARES_SUCCESS) (trace w)).
Proof.
  intros Hc Hslot R.
  assert (Hfresh : populated lb (fresh_world a l) = false).
  { unfold populated, slot_absent in *. cbn. destruct lb; subst; reflexivity. }
  destruct (req w) as [r|] eqn:Hr.
  - destruct (reachable_settled _ _ _ _ _ _ _ _ _ _ Hc R Hr).
    rewrite s_slot0, Hfresh, orb_false_r, s_succ0.
    apply existsb_in_host_success.
  - destruct (reachable_closed _ _ _ _ _ _ _ _ _ Hc R Hr)
      as (t0 & ctx & e & Ht & _ & _ & Hp & _).
    rewrite Hfresh, orb_false_r in Hp.
    rewrite Hp, Ht, existsb_in_host_success. split.
    + intros (hr & H). exists hr. apply in_or_app. now left.
    + intros (hr & H). exists hr. apply in_app_or in H as [H|H]; [exact H|].
      cbn in H. intuition discriminate.
Qed.

(** C6, amended.  A hostname completion with [ARES_SUCCESS] leaves in the slot of
    the request's output mode the entries that were there (none when the
    slot was absent, which is when it is allocated) followed by one entry
    per returned address, in the order of the host entry; the other slot,
    and on any other status both slots, are as before.  An entry has the
    length of [sockaddr_in6] for [AF_INET6] and of [sockaddr_in] otherwise,
    the family of the host entry and the port of the sub-request; a
    load-balancer entry has in addition the is-balancer flag of the
    sub-request, its host name as balancer name exactly when the flag is
    set, and no user data.  This holds of every run of the callback that
    returns, and the callback does return when c-ares completes a hostname
    query of a world that a resolve call and completions led to.  In such a
    world, for a slot the caller left absent, the slot holds a list exactly
    when a hostname completion has succeeded. *)
Theorem C6_output_lists_grow_by_appending E name default_port ip cb lb a l :
  let grows hr status he r w w' :=
    match he with
    | Some h =>
        status = ARES_SUCCESS ->
        if lb_addrs_out r then
          lb_addrs w'
          = Some (stored (lb_addrs w)
                  ++ map (lb_address_of hr h) (h_addr_list h)) /\
          addrs w' = addrs w
        else
          addrs w'
          = Some (stored (addrs w) ++ map (address_of hr h) (h_addr_list h)) /\
          lb_addrs w' = lb_addrs w
    | None => True
    end /\
    (status <> ARES_SUCCESS -> addrs w' = addrs w /\ lb_addrs w' = lb_addrs w)
  in
  (forall hr status he w w',
     on_hostbyname_done_cb E hr status he w = Some w' ->
     exists r, req w = Some r /\ grows hr status he r w w') /\
  (forall w i hr fam he,
     reachable E name default_port ip cb lb a l w ->
     nth_error (inflight w) i = Some (QHost hr fam) ->
     exists w' r,
       complete E w (i, OHost (HostSuccess he)) = Some w' /\
       req w = Some r /\ grows hr ARES_SUCCESS (Some he) r w w') /\
  (forall w,
     creates_request E name default_port ip -> slot_absent lb a l ->
     reachable E name default_port ip cb lb a l w ->
     (populated lb w = true <->
      exists hr, In (EvHostDone hr ARES_SUCCESS) (trace w))).
Proof.
  cbv zeta.
  assert (G : forall hr status he w w',
    on_hostbyname_done_cb E hr status he w = Some w' ->
    exists r, req w = Some r /\
      match he with
      | Some h =>
          status = ARES_SUCCESS ->
          if lb_addrs_out r then
            lb_addrs w'
            = Some (stored (lb_addrs w)
                    ++ map (lb_address_of hr h) (h_addr_list h)) /\
            addrs w' = addrs w
          else
            addrs w'
            = Some (stored (addrs w)
                    ++ map (address_of hr h) (h_addr_list h)) /\
            lb_addrs w' = lb_addrs w
      | None => True
      end /\
      (status <> ARES_SUCCESS ->
       addrs w' = addrs w /\ lb_addrs w' = lb_addrs w)).
  { intros hr status he w w' H.
    destruct (host_cb_effect _ _ _ _ _ _ H)
      as (r & d & Hr & _ & _ & _ & _ & Ha & Hl & _).
    exists r. split; [exact Hr|]. rewrite Ha, Hl. unfold fold_slots. split.
    - destruct he as [h|]; [|exact I]. intros ->. cbn [Z.eqb ARES_SUCCESS].
      destruct (lb_addrs_out r).
      + apply append_lb_addresses_eq.
      + apply append_resolved_addresses_eq.
    - intros Hs. destruct (Z.eqb_spec status ARES_SUCCESS); [contradiction|].
      destruct he; split; reflexivity. }
  split; [exact G|]. split.
  - intros w i hr fam he R Hq.
    destruct (reachable_complete _ _ _ _ _ _ _ _ _ _ _
                (OHost (HostSuccess he)) R Hq I) as (w' & Hw' & _).
    exists w'. pose proof Hw' as Hc. unfold complete in Hc. rewrite Hq in Hc.
    cbn [deliver_host] in Hc. destruct (G _ _ _ _ _ Hc) as (r & Hr & Hg).
    exists r. split; [exact Hw'|]. split; [exact Hr | exact Hg].
  - intros w Hc Hslot R. apply (reachable_populated _ _ _ _ _ _ _ _ _ Hc Hslot R).
Qed.

Lemma C6_output_lists_grow_by_appending_witness :
  exists w',
    complete example_library example_open_world
      (1%nat, OHost (HostSuccess example_hostent)) = Some w' /\
    lb_addrs w'
    = Some [mkLb (mkResolved
                    (mkSockaddr AF_INET 47873
                       [Byte.x0a; Byte.x00; Byte.x00; Byte.x07])
                    sizeof_sockaddr_in)
                 false None None].
Proof.
  assert (R : reachable example_library "svc.example.com:443" None 0%nat
                5%nat true None None example_open_world).
  { exists example_open_world, []. split; [vm_compute|]; reflexivity. }
  assert (Hq : nth_error (inflight example_open_world) 1
               = Some (QHost (mkHostRequest "svc.example.com" 47873 false)
                         AF_INET))
    by (vm_compute; reflexivity).
  destruct (proj1 (proj2 (C6_output_lists_grow_by_appending example_library
                            "svc.example.com:443" None 0%nat 5%nat true
                            None None))
              example_open_world 1%nat _ _ example_hostent R Hq)
    as (w' & r & Hw' & Hr & Hg & _).
  exists w'. split; [exact Hw'|].
  assert (Hr' : r = mkRequest 5%nat true 7%nat 3 false false GRPC_ERROR_NONE)
    by (vm_compute in Hr; congruence).
  subst r. exact (proj1 (Hg eq_refl)).
Defined.

(** C6 as stated fails.  A load-balancer resolve: the SRV query is the
    first sub-query to complete, with [ARES_SUCCESS], and its callback
    returns.  No list has been allocated: both slots are still absent. *)
Lemma C6_counterexample :
  exists w,
    run example_library example_open_world [(2%nat, OSrv (SrvSuccess []))]
    = Some w /\
    filter is_done (trace w) = [EvSrvDone ARES_SUCCESS] /\
    lb_addrs w = None /\ addrs w = None.
Proof.
  eexists. vm_compute. repeat split.
Qed.

(** * Further properties of the file *)

(** ** Ports are 16-bit values *)

Lemma swap_bytes_arith x :
  Z.lor (Z.shiftl (Z.land x 255) 8) (Z.land (Z.shiftr x 8) 255)
  = x mod 256 * 256 + (x / 256) mod 256.
Proof.
  change 255 with (Z.ones 8). rewrite !Z.land_ones by lia.
  rewrite Z.shiftl_mul_pow2, Z.shiftr_div_pow2 by lia.
  assert (D : Z.land (x mod 2 ^ 8 * 2 ^ 8) ((x / 2 ^ 8) mod 2 ^ 8) = 0).
  { apply Z.bits_inj'. intros n Hn. rewrite Z.land_spec, Z.bits_0.
    destruct (Z.ltb_spec n 8).
    - rewrite Z.mul_pow2_bits_low by lia. reflexivity.
    - rewrite (Z.mod_pow2_bits_high (x / 2 ^ 8)) by lia. apply andb_false_r. }
  rewrite <- Z.lxor_lor by exact D.
  symmetry. apply Z.add_nocarry_lxor. exact D.
Qed.

Lemma htons_range E x : 0 <= htons E x < 65536.
Proof.
  unfold htons. destruct (little_endian E).
  - rewrite swap_bytes_arith.
    pose proof (Z.mod_pos_bound x 256 ltac:(lia)).
    pose proof (Z.mod_pos_bound (x / 256) 256 ltac:(lia)). lia.
  - change 65535 with (Z.ones 16). rewrite Z.land_ones by lia.
    apply Z.mod_pos_bound. reflexivity.
Qed.

Lemma ntohs_htons E x : ntohs E (htons E x) = x mod 65536.
Proof.
  unfold ntohs, htons. destruct (little_endian E).
  - rewrite (swap_bytes_arith x).
    pose proof (Z.mod_pos_bound x 256 ltac:(lia)).
    pose proof (Z.mod_pos_bound (x / 256) 256 ltac:(lia)).
    set (lo := x mod 256) in *. set (hi := (x / 256) mod 256) in *.
    rewrite swap_bytes_arith.
    replace ((lo * 256 + hi) mod 256) with hi
      by (rewrite Z.add_comm, Z.mod_add by lia; rewrite Z.mod_small; lia).
    replace ((lo * 256 + hi) / 256) with lo
      by (rewrite Z.add_comm, Z.div_add by lia; rewrite Z.div_small; lia).
    rewrite (Z.mod_small lo) by lia. subst lo hi.
    change 65536 with (256 * 256). rewrite Z.rem_mul_r by lia. lia.
  - change 65535 with (Z.ones 16). rewrite !Z.land_ones by lia.
    apply Z.mod_mod. discriminate.
Qed.

(** X1.  Whatever the port string is, [strhtons] gives a value that fits
    the [uint16_t] it is declared to return: between 0 and 65535, on a
    host of either byte order. *)
Theorem X1_strhtons_fits_16_bits E port : 0 <= strhtons E port < 65536.
Proof.
  unfold strhtons.
  destruct (String.eqb port "http"); [apply htons_range|].
  destruct (String.eqb port "https"); apply htons_range.
Qed.

(** X2.  [ntohs], which the hostname callback applies to the port for its
    debug lines, undoes [strhtons]: it gives back 80 for "http", 443 for
    "https", and otherwise the number that [atoi] reads, reduced modulo
    65536 by the cast to [unsigned short]. *)
Theorem X2_ntohs_undoes_strhtons E port :
  ntohs E (strhtons E port)
  = if String.eqb port "http" then 80
    else if String.eqb port "https" then 443
    else atoi port mod 65536.
Proof.
  unfold strhtons, to_unsigned_short.
  destruct (String.eqb port "http"); [apply ntohs_htons|].
  destruct (String.eqb port "https"); [apply ntohs_htons|].
  rewrite ntohs_htons. apply Z.mod_mod. discriminate.
Qed.

(** ** Process-wide initialisation *)

Lemma init_ready E status g :
  g_basic_init g = true -> g_init_mu g = Some false ->
  grpc_ares_init E status g
  = Some (init_error E status,
          mkGlobals true (Some false)
            (g_calls g ++ calls_of (OpInit status))).
Proof.
  intros Hb Hm. destruct g as [b m c]; cbn in *; subst.
  unfold grpc_ares_init, grpc_ares_cleanup, gpr_once_init, lock_init_mu,
    unlock_init_mu, call, init_error, do_basic_init, calls_of; cbn.
  try destruct (status =? ARES_SUCCESS); cbn; rewrite <- ?app_assoc;
    reflexivity.
Qed.

Lemma init_first E status g :
  g_basic_init g = false ->
  grpc_ares_init E status g
  = Some (init_error E status,
          mkGlobals true (Some false)
            (g_calls g ++ GMuInit :: calls_of (OpInit status))).
Proof.
  intros Hb. destruct g as [b m c]; cbn in *; subst.
  unfold grpc_ares_init, grpc_ares_cleanup, gpr_once_init, lock_init_mu,
    unlock_init_mu, call, init_error, do_basic_init, calls_of; cbn.
  try destruct (status =? ARES_SUCCESS); cbn; rewrite <- ?app_assoc;
    reflexivity.
Qed.

Lemma cleanup_ready g :
  g_init_mu g = Some false ->
  grpc_ares_cleanup g
  = Some (mkGlobals (g_basic_init g) (Some false)
            (g_calls g ++ calls_of OpCleanup)).
Proof.
  intros Hm. destruct g as [b m c]; cbn in *; subst.
  unfold grpc_ares_init, grpc_ares_cleanup, gpr_once_init, lock_init_mu,
    unlock_init_mu, call, init_error, do_basic_init, calls_of; cbn.
  try destruct (status =? ARES_SUCCESS); cbn; rewrite <- ?app_assoc;
    reflexivity.
Qed.

(** X3.  [grpc_ares_init] reports the status of [ares_library_init] and
    nothing else.  Called when no initialisation has happened yet, or with
    the global mutex free, it returns; the result is [GRPC_ERROR_NONE]
    exactly when the status is [ARES_SUCCESS], and otherwise a new error
    whose description is "ares_library_init failed: " followed by the text
    of the status; either way the global mutex is free again afterwards. *)
Theorem X3_init_reports_the_library_status E status g :
  g_basic_init g = false \/
  (g_basic_init g = true /\ g_init_mu g = Some false) ->
  exists err g',
    grpc_ares_init E status g = Some (err, g') /\
    (err = GRPC_ERROR_NONE <-> status = ARES_SUCCESS) /\
    (status <> ARES_SUCCESS ->
     err = GrpcError
             ("ares_library_init failed: " ++ ares_strerror E status) [] []) /\
    g_basic_init g' = true /\ g_init_mu g' = Some false.
Proof.
  intros Hg. exists (init_error E status).
  assert (He : (init_error E status = GRPC_ERROR_NONE <->
                status = ARES_SUCCESS) /\
               (status <> ARES_SUCCESS ->
                init_error E status
                = GrpcError ("ares_library_init failed: "
                               ++ ares_strerror E status) [] [])).
  { unfold init_error. destruct (Z.eqb_spec status ARES_SUCCESS) as [Hs|Hs].
    - split; [tauto | contradiction].
    - split; [split; [discriminate | contradiction] | reflexivity]. }
  destruct Hg as [Hb|(Hb & Hm)]; eexists.
  - rewrite (init_first E status g Hb). split; [reflexivity|].
    cbn. tauto.
  - rewrite (init_ready E status g Hb Hm). split; [reflexivity|].
    cbn. tauto.
Qed.

Lemma X3_init_reports_the_library_status_witness :
  exists g',
    grpc_ares_init example_library 4 pristine
    = Some (GrpcError
              "ares_library_init failed: DNS server returned answer with no data"
              [] [], g') /\
    g_init_mu g' = Some false.
Proof.
  destruct (X3_init_reports_the_library_status example_library 4 pristine
              (or_introl eq_refl)) as (err & g' & H & _ & He & _ & Hm).
  exists g'. rewrite H, (He ltac:(discriminate)). split; [reflexivity|exact Hm].
Defined.

Lemma run_globals_ready E ops : forall g,
  g_basic_init g = true -> g_init_mu g = Some false ->
  run_globals E ops g
  = Some (init_errors E ops,
          mkGlobals true (Some false) (g_calls g ++ flat_map calls_of ops)).
Proof.
  induction ops as [|[status|] ops IH]; intros g Hb Hm.
  - cbn. rewrite app_nil_r. destruct g; cbn in *; subst. reflexivity.
  - cbn [run_globals]. rewrite (init_ready E status g Hb Hm).
    rewrite IH by reflexivity. cbn [g_calls flat_map init_errors].
    rewrite <- app_assoc. reflexivity.
  - cbn [run_globals]. rewrite (cleanup_ready g Hm).
    rewrite IH by (cbn; auto). cbn [g_calls flat_map init_errors].
    rewrite <- app_assoc. reflexivity.
Qed.

(** X4.  In a process that starts with [grpc_ares_init], any sequence of
    calls of [grpc_ares_init] and [grpc_ares_cleanup] returns; the global
    mutex is initialised once, by the first call and before anything else;
    every call of [ares_library_init] and of [ares_library_cleanup] is
    made with the mutex held, which is released right after; each
    [grpc_ares_init] returns the error of its own status.  A process that
    starts with [grpc_ares_cleanup] locks a mutex that was never
    initialised. *)
Theorem X4_global_mutex_brackets_the_library E status ops :
  run_globals E (OpInit status :: ops) pristine
  = Some (init_errors E (OpInit status :: ops),
          mkGlobals true (Some false)
            (GMuInit :: flat_map calls_of (OpInit status :: ops))) /\
  run_globals E (OpCleanup :: ops) pristine = None.
Proof.
  split; [|reflexivity].
  cbn [run_globals]. rewrite (init_first E status pristine eq_refl).
  rewrite run_globals_ready by reflexivity.
  cbn [g_calls pristine app flat_map init_errors]. reflexivity.
Qed.

(** ** Judgements are preserved *)

Lemma fold_host_fields E status r :
  success (fold_host E status r) = next_success status (success r) /\
  error (fold_host E status r) = next_error E status (success r) (error r).
Proof.
  unfold fold_host, fold_failure, next_success, next_error.
  destruct (status =? ARES_SUCCESS); cbn; [auto|].
  destruct (success r) eqn:Hs; cbn; rewrite ?Hs; auto.
Qed.

Lemma fold_failure_fields E status r :
  status <> ARES_SUCCESS ->
  success (fold_failure E status r) = success r /\
  error (fold_failure E status r)
  = next_srv_error E status (success r) (error r).
Proof.
  intros Hs. unfold fold_failure, next_srv_error.
  destruct (Z.eqb_spec status ARES_SUCCESS); [contradiction|].
  destruct (success r) eqn:Hr; cbn; rewrite ?Hr; auto.
Qed.

Lemma fold_slots_fields hr status he r w :
  addrs (fold_slots hr status he r w)
  = next_addrs (lb_addrs_out r) hr status he (addrs w) /\
  lb_addrs (fold_slots hr status he r w)
  = next_lb_addrs (lb_addrs_out r) hr status he (lb_addrs w).
Proof.
  unfold fold_slots, next_addrs, next_lb_addrs. destruct he as [h|]; [|auto].
  destruct (status =? ARES_SUCCESS); cbn [andb negb]; [|auto].
  destruct (lb_addrs_out r); cbn [andb negb].
  - destruct (append_lb_addresses_eq hr h w) as [-> ->]. auto.
  - destruct (append_resolved_addresses_eq hr h w) as [-> ->]. auto.
Qed.

Lemma Forall_remove_nth {A} (Q : A -> Prop) (l : list A) : forall i,
  Forall Q l -> Forall Q (remove_nth i l).
Proof.
  induction l as [|x l IH]; intros [|i] H; cbn; auto;
    inversion H; subst; auto.
Qed.

Lemma run_without_request E cs w w' :
  req w = None -> run E w cs = Some w' -> w' = w.
Proof.
  intros Hr. destruct cs as [|[i o] cs]; cbn [run]; [congruence|].
  destruct (complete E w (i, o)) as [w1|] eqn:Hc; [|discriminate].
  destruct (complete_effect E is_query w i o w1 quiet_query Hc)
    as (r & _ & Hr' & _).
  congruence.
Qed.

Section Keeping.

Variables (E : library) (lb : bool).
Variable G : grpc_ares_hostbyname_request -> Prop.
Variable P : judgement.
Hypothesis HP : Preserved E lb G P.

Lemma kept_emit w r ev :
  Kept lb G P w r ->
  is_bookkeeping ev = true \/ (lb = true /\ is_srv_side ev = true) ->
  Kept lb G P (emit ev w) r.
Proof.
  intros (Hlb & HPw & Hq) Hev. split; [exact Hlb|]. split; [|exact Hq].
  cbn [success error addrs lb_addrs trace emit].
  destruct Hev as [Hev|(Hl & Hev)].
  - apply (p_book _ _ _ _ HP); auto.
  - apply (p_srv_side _ _ _ _ HP); auto.
Qed.

Lemma kept_unref ctx w r w' :
  Kept lb G P w r -> req w = Some r ->
  grpc_ares_request_unref ctx w = Some w' ->
  Post lb G P (ctx_or_stack ctx) w'.
Proof.
  intros (Hlb & HPw & Hq) Hr H.
  destruct (unref_effect _ _ _ H)
    as (r0 & d & Hr0 & Ht & _ & Hq' & Ha & Hl & _ & Hcase).
  rewrite Hr in Hr0. inversion Hr0; subst r0; clear Hr0.
  unfold Post. destruct Hcase as [(_ & Hn & Hd)|(_ & Hs & Hd)].
  - rewrite Hn. exists (trace w), r. rewrite Ht, Hd, Ha, Hl. auto.
  - rewrite Hs. unfold Kept. cbn [lb_addrs_out success error with_pending].
    rewrite Ht, Hd, Ha, Hl, Hq'. split; [exact Hlb|]. split; [|exact Hq].
    apply (p_book _ _ _ _ HP); auto.
Qed.

Lemma kept_host_cb hr status he w r w' :
  Kept lb G P w r -> req w = Some r -> G hr ->
  on_hostbyname_done_cb E hr status he w = Some w' ->
  Post lb G P StackCtx w'.
Proof.
  intros (Hlb & HPw & Hq) Hr Hg H.
  destruct (host_cb_runs _ _ _ _ _ _ H) as (r0 & Hr0 & Hmu & Hhe).
  rewrite Hr in Hr0. inversion Hr0; subst r0; clear Hr0.
  rewrite (host_cb_unfold E hr status he w r Hr Hmu Hhe) in H.
  eapply (kept_unref None); [| |exact H]; [|reflexivity].
  unfold Kept. cbn [addrs lb_addrs trace inflight].
  destruct (fold_host_frame E status r) as (_ & _ & F3 & _).
  destruct (fold_host_fields E status r) as (-> & ->).
  destruct (fold_slots_fields hr status he r w) as (-> & ->).
  rewrite F3, Hlb. split; [reflexivity|]. split; [|exact Hq].
  apply (p_host _ _ _ _ HP); auto.
Qed.

Lemma kept_deliver_host hr o w r w' :
  Kept lb G P w r -> req w = Some r -> G hr ->
  deliver_host E hr o w = Some w' ->
  Post lb G P StackCtx w'.
Proof.
  intros K Hr Hg H.
  destruct o; cbn [deliver_host] in H;
    apply (kept_host_cb hr _ _ w r w' K Hr Hg H).
Qed.

Lemma kept_issue_host host port bal fam w r hr w1 w' :
  Kept lb G P w r -> req w = Some r -> G (mkHostRequest host port bal) ->
  create_hostbyname_request host port bal w = Some (hr, w1) ->
  ares_gethostbyname E hr fam w1 = Some w' ->
  forall r', req w' = Some r' -> Kept lb G P w' r'.
Proof.
  intros (Hlb & HPw & Hq) Hr Hg.
  unfold create_hostbyname_request, grpc_ares_request_ref.
  rewrite Hr. intros H. inversion H; subst hr w1; clear H.
  unfold ares_gethostbyname. cbn [hr_host].
  set (hr := mkHostRequest host port bal) in *.
  set (r1 := with_pending (pending_queries r + 1) r).
  set (w1 := emit (EvGetHostByName hr fam)
               (emit (EvRef (pending_queries r)) (set_req (Some r1) w))).
  assert (K1 : Kept lb G P w1 r1).
  { split; [exact Hlb|]. split; [|exact Hq].
    cbn [success error addrs lb_addrs trace emit set_req with_pending r1 w1].
    apply (p_issue _ _ _ _ HP); [exact Hg|].
    apply (p_book _ _ _ _ HP); auto. }
  destruct (gethostbyname_inline E host fam) as [o|]; intros H r' Hr'.
  - pose proof (kept_deliver_host hr o w1 r1 w' K1 eq_refl Hg H) as T.
    unfold Post in T. rewrite Hr' in T. exact T.
  - inversion H; subst w'; clear H. cbn in Hr'. inversion Hr'; subst r'.
    destruct K1 as (A & B & C). split; [exact A|]. split; [exact B|].
    cbn [inflight set_inflight]. apply Forall_app. split; [exact C|].
    constructor; [exact Hg | constructor].
Qed.

Lemma kept_issue_opt (b : bool) host port bal fam w r w6 :
  Kept lb G P w r -> req w = Some r -> G (mkHostRequest host port bal) ->
  (if b then
     '(hr, w0) <- create_hostbyname_request host port bal w ;;
     ares_gethostbyname E hr fam w0
   else Some w) = Some w6 ->
  forall r6, req w6 = Some r6 -> Kept lb G P w6 r6.
Proof.
  intros K Hr Hg H r6 Hr6. destruct b.
  - destruct (create_hostbyname_request host port bal w) as [[hr w0]|] eqn:Hc;
      [|discriminate].
    apply (kept_issue_host _ _ _ _ _ _ _ _ _ K Hr Hg Hc H r6 Hr6).
  - inversion H; subst w6. rewrite Hr in Hr6. inversion Hr6; subst r6.
    exact K.
Qed.

Lemma kept_srv_loop reply : forall w r w',
  (forall s, In s reply ->
             G (mkHostRequest (srv_host s) (srv_port s) true)) ->
  Kept lb G P w r -> req w = Some r ->
  srv_reply_loop E reply w = Some w' ->
  forall r', req w' = Some r' -> Kept lb G P w' r'.
Proof.
  induction reply as [|s next IH]; intros w r w' Hg K Hr H r' Hr'.
  - inversion H; subst w'. rewrite Hr in Hr'. inversion Hr'; subst r'.
    exact K.
  - cbn [srv_reply_loop] in H.
    destruct (if grpc_ipv6_loopback_available E then _ else Some w)
      as [w6|] eqn:E6; [|discriminate].
    destruct (create_hostbyname_request _ _ _ w6) as [[hr w0]|] eqn:Hc;
      [|discriminate].
    destruct (ares_gethostbyname E hr AF_INET w0) as [w4|] eqn:H4;
      [|discriminate].
    destruct (req w4) as [r4|] eqn:Hr4; [|discriminate].
    destruct (issue_host_effect _ _ _ _ _ _ _ _ _ Hc H4)
      as (r6 & _ & Hr6 & _).
    assert (Hs : G (mkHostRequest (srv_host s) (srv_port s) true))
      by (apply Hg; left; reflexivity).
    pose proof (kept_issue_opt _ _ _ _ _ _ _ _ K Hr Hs E6 r6 Hr6) as K6.
    pose proof (kept_issue_host _ _ _ _ _ _ _ _ _ K6 Hr6 Hs Hc H4 r4 Hr4)
      as K4.
    apply (IH (emit (EvDriverStart (ev_driver r4)) w4) r4 w'); auto.
    + intros s' Hin. apply Hg. right. exact Hin.
    + apply kept_emit; auto.
Qed.

Lemma kept_srv_cb status abuf w r w' :
  lb = true -> Kept lb G P w r -> req w = Some r ->
  on_srv_query_done_cb E status abuf w = Some w' ->
  Post lb G P StackCtx w'.
Proof.
  intros Hlb K Hr H.
  destruct (Z.eqb_spec status ARES_SUCCESS) as [Hs|Hs].
  - subst status. rewrite srv_cb_success_unfold in H. cbv zeta in H.
    set (ps := fst (ares_parse_srv_reply E abuf)) in *.
    set (reply := snd (ares_parse_srv_reply E abuf)) in *.
    set (w0 := emit (EvParseSrvReply ps reply)
                 (emit (EvSrvDone ARES_SUCCESS) w)) in *.
    assert (K0 : Kept lb G P w0 r).
    { apply kept_emit; [|right; auto].
      destruct K as (A & B & C). split; [exact A|]. split; [|exact C].
      apply (p_srv _ _ _ _ HP (success r) (error r) _ _ _ ARES_SUCCESS Hlb B). }
    destruct (if ps =? ARES_SUCCESS then srv_reply_loop E reply w0
              else Some w0) as [w1|] eqn:H1; [|discriminate].
    destruct (unref_effect _ _ _ H) as (r2 & _ & Hr2 & _).
    assert (Hr2' : req w1 = Some r2) by (destruct reply; exact Hr2).
    assert (K1 : Kept lb G P w1 r2).
    { destruct (Z.eqb_spec ps ARES_SUCCESS) as [Hps|Hps].
      - apply (kept_srv_loop reply w0 r w1); auto.
        intros s Hin. apply (p_target _ _ _ _ HP abuf s Hlb); auto.
      - inversion H1; subst w1. cbn in Hr2'. rewrite Hr in Hr2'.
        inversion Hr2'; subst r2. exact K0. }
    apply (kept_unref (Some StackCtx) (free_reply reply w1) r2 w');
      [|exact Hr2|exact H].
    destruct reply; cbn [free_reply]; [exact K1|].
    apply kept_emit; [exact K1 | right; auto].
  - rewrite (srv_cb_failure_unfold E status abuf w r Hr Hs) in H.
    eapply (kept_unref (Some StackCtx)); [| |exact H]; [|reflexivity].
    destruct K as (A & B & C).
    destruct (fold_failure_frame E status r) as (_ & _ & F3 & _).
    destruct (fold_failure_fields E status r Hs) as (F1 & F2).
    unfold Kept. cbn [addrs lb_addrs trace inflight].
    rewrite F1, F2, F3. split; [exact A|]. split; [|exact C].
    apply (p_srv _ _ _ _ HP); auto.
Qed.

Lemma kept_complete w r c w' :
  Kept lb G P w r -> req w = Some r -> complete E w c = Some w' ->
  Post lb G P StackCtx w'.
Proof.
  intros K Hr H. destruct c as [i o]. unfold complete in H.
  assert (K' : Kept lb G P (set_inflight (remove_nth i (inflight w)) w) r).
  { destruct K as (A & B & C). split; [exact A|]. split; [exact B|].
    apply Forall_remove_nth. exact C. }
  destruct (nth_error (inflight w) i) as [[hr fam|nm]|] eqn:Hq;
    destruct o as [o|o]; try discriminate.
  - apply (kept_deliver_host hr o _ r w' K' Hr); [|exact H].
    destruct K as (_ & _ & C). rewrite Forall_forall in C.
    apply (C (QHost hr fam)). apply (nth_error_In _ _ Hq).
  - rewrite deliver_srv_eq in H.
    assert (Hlb : lb = true).
    { destruct K as (_ & _ & C). rewrite Forall_forall in C.
      apply (C (QSrv nm)). apply (nth_error_In _ _ Hq). }
    apply (kept_srv_cb _ _ _ r w' Hlb K' Hr H).
Qed.

Lemma kept_run cs : forall w r w',
  Kept lb G P w r -> req w = Some r -> run E w cs = Some w' ->
  Post lb G P StackCtx w'.
Proof.
  induction cs as [|c cs IH]; intros w r w' K Hr H; cbn [run] in H.
  - inversion H; subst w'. unfold Post. rewrite Hr. exact K.
  - destruct (complete E w c) as [w1|] eqn:Hc; [|discriminate].
    pose proof (kept_complete w r c w1 K Hr Hc) as T.
    destruct (req w1) as [r1|] eqn:Hr1.
    + unfold Post in T. rewrite Hr1 in T. apply (IH w1 r1 w' T Hr1 H).
    + rewrite (run_without_request E cs w1 w' Hr1 H). exact T.
Qed.

Lemma kept_resolve name default_port ip cb a l w1 :
  creates_request E name default_port ip ->
  (forall host port,
     fst (gpr_split_host_port E name) = Some host ->
     governing_port (snd (gpr_split_host_port E name)) default_port
     = Some port ->
     G (mkHostRequest host (strhtons E port) false)) ->
  P false GRPC_ERROR_NONE a l [EvRefInit 1] ->
  resolve_address_ares_impl E name default_port ip cb lb (fresh_world a l)
  = Some w1 ->
  Post lb G P CallerCtx w1.
Proof.
  intros (Hh & Hp & Hd) Hg H0. unfold resolve_address_ares_impl.
  destruct (gpr_split_host_port E name) as [[host|] port]; cbn [fst snd] in *;
    [|congruence].
  destruct (grpc_ares_ev_driver_create E ip) as [err drv]; cbn [fst snd] in *.
  subst err.
  set (port' := match port with Some p => inl p | None => _ end).
  assert (Hport : exists p, port' = inl p /\
                            governing_port port default_port = Some p).
  { subst port'. destruct port as [p|]; [now exists p|].
    destruct default_port as [d|]; [now exists d|].
    destruct Hp; congruence. }
  destruct Hport as (p & -> & Hgov). cbn [is_error_none negb].
  specialize (Hg host p eq_refl Hgov).
  set (r0 := mkRequest cb lb drv 1 false false GRPC_ERROR_NONE).
  set (w0 := emit (EvRefInit 1) (set_req (Some r0) (fresh_world a l))).
  assert (K0 : Kept lb G P w0 r0).
  { split; [reflexivity|]. split; [exact H0 | constructor]. }
  destruct (if grpc_ipv6_loopback_available E then _ else Some w0)
    as [w6|] eqn:E6; [|discriminate].
  destruct (create_hostbyname_request _ _ _ w6) as [[hr w5]|] eqn:Hc;
    [|discriminate].
  destruct (ares_gethostbyname E hr AF_INET w5) as [w4|] eqn:H4;
    [|discriminate].
  destruct (issue_host_effect _ _ _ _ _ _ _ _ _ Hc H4) as (r6 & _ & Hr6 & _).
  pose proof (kept_issue_opt _ _ _ _ _ _ _ _ K0 eq_refl Hg E6 r6 Hr6) as K6.
  pose proof (kept_issue_host _ _ _ _ _ _ _ _ _ K6 Hr6 Hg Hc H4) as K4.
  set (nm := ("_grpclb._tcp." ++ host)%string).
  destruct (if lb then _ else Some w4) as [ws|] eqn:Es; [|discriminate].
  destruct (req ws) as [rs|] eqn:Hrs; [|discriminate].
  intros H.
  assert (Ks : Kept lb G P ws rs).
  { destruct (bool_dec lb true) as [Hlb|Hlb].
    - rewrite Hlb in Es. unfold grpc_ares_request_ref in Es.
      destruct (req w4) as [r4|] eqn:Hr4; [|discriminate].
      specialize (K4 r4 eq_refl).
      unfold ares_query in Es.
      set (wq := emit (EvQuery nm ns_c_in ns_t_srv)
                   (emit (EvRef (pending_queries r4))
                      (set_req (Some (with_pending (pending_queries r4 + 1)
                                        r4)) w4))) in *.
      assert (Kq : Kept lb G P wq
                     (with_pending (pending_queries r4 + 1) r4)).
      { destruct K4 as (A & B & C). split; [exact A|]. split; [|exact C].
        cbn [success error addrs lb_addrs trace emit set_req with_pending wq].
        apply (p_srv_side _ _ _ _ HP); auto.
        apply (p_book _ _ _ _ HP); auto. }
      destruct (query_inline E nm) as [o|].
      + rewrite deliver_srv_eq in Es.
        pose proof (kept_srv_cb _ _ wq _ ws Hlb Kq eq_refl Es) as T.
        unfold Post in T. rewrite Hrs in T. exact T.
      + inversion Es; subst ws; clear Es. cbn in Hrs.
        inversion Hrs; subst rs.
        destruct Kq as (A & B & C). split; [exact A|]. split; [exact B|].
        cbn [inflight set_inflight]. apply Forall_app. split; [exact C|].
        constructor; [exact Hlb | constructor].
    - apply not_true_is_false in Hlb. rewrite Hlb in Es.
      inversion Es; subst ws. apply (K4 rs Hrs). }
  apply (kept_unref (Some CallerCtx)
           (emit (EvDriverStart (ev_driver rs)) ws) rs w1); auto.
  apply kept_emit; auto.
Qed.

End Keeping.

(** ** Reachable worlds keep a judgement *)

Lemma preserved_any E lb : Preserved E lb any_request any_state.
Proof. constructor; unfold any_request, any_state; auto. Qed.

Lemma reachable_kept E lb G P name default_port ip cb a l w :
  Preserved E lb G P ->
  creates_request E name default_port ip ->
  (forall host port,
     fst (gpr_split_host_port E name) = Some host ->
     governing_port (snd (gpr_split_host_port E name)) default_port
     = Some port ->
     G (mkHostRequest host (strhtons E port) false)) ->
  P false GRPC_ERROR_NONE a l [EvRefInit 1] ->
  reachable E name default_port ip cb lb a l w ->
  exists ctx, Post lb G P ctx w.
Proof.
  intros HP Hc Hg H0 (w1 & cs & H1 & Hrun).
  pose proof (kept_resolve E lb G P HP name default_port ip cb a l w1
                Hc Hg H0 H1) as T.
  destruct (req w1) as [r1|] eqn:Hr1.
  - exists StackCtx. unfold Post in T. rewrite Hr1 in T.
    apply (kept_run E lb G P HP cs w1 r1 w T Hr1 Hrun).
  - exists CallerCtx. rewrite (run_without_request E cs w1 w Hr1 Hrun).
    exact T.
Qed.

Lemma resolve_refusal E name default_port ip cb lb w :
  ~ creates_request E name default_port ip ->
  exists e, resolve_address_ares_impl E name default_port ip cb lb w
            = Some (emit e w) /\ is_refusal e = true.
Proof.
  unfold creates_request, resolve_address_ares_impl. intros Hn.
  destruct (gpr_split_host_port E name) as [[host|] port]; cbn [fst snd] in *;
    [|eexists; split; reflexivity].
  destruct port as [p|].
  - destruct (grpc_ares_ev_driver_create E ip) as [[|d s c] drv];
      cbn [fst snd] in *.
    + exfalso. apply Hn. repeat split; [discriminate | left; discriminate].
    + eexists. split; reflexivity.
  - destruct default_port as [d|]; [|eexists; split; reflexivity].
    destruct (grpc_ares_ev_driver_create E ip) as [[|d' s c] drv];
      cbn [fst snd] in *.
    + exfalso. apply Hn. repeat split; [discriminate | right; discriminate].
    + eexists. split; reflexivity.
Qed.

(** A call that creates no request leaves one event and nothing else. *)
Lemma reachable_refused E name default_port ip cb lb a l w :
  ~ creates_request E name default_port ip ->
  reachable E name default_port ip cb lb a l w ->
  exists e, w = emit e (fresh_world a l) /\ is_refusal e = true.
Proof.
  intros Hn (w1 & cs & H1 & Hrun).
  destruct (resolve_refusal E name default_port ip cb lb (fresh_world a l) Hn)
    as (e & He & Hk).
  rewrite H1 in He. inversion He; subst w1.
  exists e. split; [|exact Hk].
  apply (run_nothing_in_flight E cs (emit e (fresh_world a l)) w eq_refl Hrun).
Qed.

(** What [Post] says of the slots and the trace, open or not. *)
Lemma post_slots lb G (Q : option (list grpc_resolved_address) ->
                           option (list grpc_lb_address) -> Prop) ctx w :
  Post lb G (fun _ _ a l _ => Q a l) ctx w -> Q (addrs w) (lb_addrs w).
Proof.
  unfold Post, Kept, Ended. destruct (req w).
  - intros (_ & H & _). exact H.
  - intros (t0 & r1 & _ & _ & H). exact H.
Qed.

(** ** The slot of the other mode *)

Lemma preserved_other_slot E lb a0 l0 :
  Preserved E lb any_request (other_slot_kept lb a0 l0).
Proof.
  constructor; unfold other_slot_kept, any_request; auto.
  intros s e a l t hr status he _ _ H. unfold next_addrs, next_lb_addrs.
  destruct lb, he; cbn [negb]; rewrite ?andb_false_r; exact H.
Qed.

Lemma reachable_other_slot E name default_port ip cb lb a l w :
  reachable E name default_port ip cb lb a l w ->
  if lb then addrs w = a else lb_addrs w = l.
Proof.
  intros R. destruct (creates_request_dec E name default_port ip) as [Hc|Hn].
  - destruct (reachable_kept E lb any_request (other_slot_kept lb a l)
                name default_port ip cb a l w
                (preserved_other_slot E lb a l) Hc (fun _ _ _ _ => I))
      as (ctx & T); [destruct lb; reflexivity | exact R |].
    apply (post_slots lb any_request
             (fun a' l' => if lb then a' = a else l' = l) ctx w T).
  - destruct (reachable_refused _ _ _ _ _ _ _ _ _ Hn R) as (e & -> & _).
    destruct lb; reflexivity.
Qed.

(** X5.  Each of the two public resolve operations leaves the output slot
    of the other one as the caller had it, whatever c-ares answers and in
    whatever order: the plain operation never writes a load-balancer list,
    the load-balancer operation never writes a plain list. *)
Theorem X5_other_slot_untouched E name default_port ip cb a l w1 cs w :
  run E w1 cs = Some w ->
  (grpc_resolve_address_ares_impl E name default_port ip cb (fresh_world a l)
   = Some w1 -> lb_addrs w = l) /\
  (grpc_resolve_grpclb_address_ares E name default_port ip cb
     (fresh_world a l) = Some w1 -> addrs w = a).
Proof.
  intros Hrun. split; intros H1.
  - apply (reachable_other_slot E name default_port ip cb false a l w).
    exists w1, cs. auto.
  - apply (reachable_other_slot E name default_port ip cb true a l w).
    exists w1, cs. auto.
Qed.

Lemma X5_other_slot_untouched_witness :
  exists w,
    complete example_library example_open_world
      (1%nat, OHost (HostSuccess example_hostent)) = Some w /\
    addrs w = None.
Proof.
  destruct (complete example_library example_open_world
              (1%nat, OHost (HostSuccess example_hostent))) as [w|] eqn:Hc;
    [|vm_compute in Hc; discriminate].
  exists w. split; [reflexivity|].
  assert (Hrun : run example_library example_open_world
                   [(1%nat, OHost (HostSuccess example_hostent))] = Some w)
    by (cbn [run]; rewrite Hc; reflexivity).
  apply (proj2 (X5_other_slot_untouched example_library
                  "svc.example.com:443" None 0%nat 5%nat None None
                  example_open_world _ w Hrun)).
  vm_compute. reflexivity.
Defined.

(** ** A plain call never looks for balancers *)

Lemma preserved_plain E : Preserved E false not_balancer plain_trace.
Proof.
  constructor; unfold plain_trace, not_balancer.
  - intros s e a l t ev Hev H. rewrite forallb_app, H.
    destruct ev; try discriminate; reflexivity.
  - intros s e a l t hr fam Hg H. rewrite forallb_app, H. cbn.
    rewrite Hg. reflexivity.
  - discriminate.
  - intros s e a l t hr status he Hg _ H. rewrite forallb_app, H. cbn.
    rewrite Hg. reflexivity.
  - discriminate.
  - discriminate.
Qed.

Lemma plain_queries qs :
  Forall (Gq false not_balancer) qs -> forallb is_plain_query qs = true.
Proof.
  induction 1 as [|q qs Hq _ IH]; [reflexivity|]. cbn [forallb].
  rewrite IH, andb_true_r. destruct q as [hr fam|nm]; cbn in *;
    [|discriminate].
  unfold not_balancer in Hq. rewrite Hq. reflexivity.
Qed.

(** X6.  The plain resolve operation stays clear of balancer discovery for
    the whole life of its request: no SRV query, no SRV callback, no parse
    or release of an SRV reply, and every hostname sub-request, issued,
    held by c-ares or completed, is marked as no balancer. *)
Theorem X6_plain_call_never_looks_for_balancers
    E name default_port ip cb a l w1 cs w :
  grpc_resolve_address_ares_impl E name default_port ip cb (fresh_world a l)
  = Some w1 ->
  run E w1 cs = Some w ->
  forallb is_plain_event (trace w) = true /\
  forallb is_plain_query (inflight w) = true.
Proof.
  intros H1 Hrun.
  assert (R : reachable E name default_port ip cb false a l w)
    by (exists w1, cs; auto).
  destruct (creates_request_dec E name default_port ip) as [Hc|Hn].
  - destruct (reachable_kept E false not_balancer plain_trace
                name default_port ip cb a l w
                (preserved_plain E) Hc (fun _ _ _ _ => eq_refl) eq_refl R)
      as (ctx & T).
    unfold Post in T. destruct (req w) as [r|] eqn:Hr.
    + destruct T as (_ & Ht & Hq). split; [exact Ht|].
      apply plain_queries. exact Hq.
    + destruct T as (t0 & r1 & Ht & _ & H0). split.
      * rewrite Ht, forallb_app. unfold plain_trace in H0. rewrite H0.
        destruct ctx; reflexivity.
      * destruct (reachable_quiescent _ _ _ _ _ _ _ _ _ R Hc)
          as [(r & C & _)|(_ & Hq & _)].
        -- destruct C. congruence.
        -- rewrite Hq. reflexivity.
  - destruct (reachable_refused _ _ _ _ _ _ _ _ _ Hn R) as (e & -> & He).
    split; [|reflexivity]. cbn. destruct e; try discriminate; reflexivity.
Qed.

Lemma X6_plain_call_never_looks_for_balancers_witness :
  exists w1,
    grpc_resolve_address_ares_impl example_library "svc.example.com:443" None
      0%nat 5%nat (fresh_world None None) = Some w1 /\
    forallb is_plain_event (trace w1) = true /\
    forallb is_plain_query (inflight w1) = true.
Proof.
  destruct (grpc_resolve_address_ares_impl example_library
              "svc.example.com:443" None 0%nat 5%nat (fresh_world None None))
    as [w1|] eqn:H1; [|vm_compute in H1; discriminate].
  exists w1. split; [reflexivity|].
  apply (X6_plain_call_never_looks_for_balancers example_library
           "svc.example.com:443" None 0%nat 5%nat None None w1 [] w1 H1
           eq_refl).
Defined.

(** ** Lists only grow *)

Lemma extends_refl {A} (x : option (list A)) : extends x x.
Proof. split; [exists []; now rewrite app_nil_r | auto]. Qed.

Lemma extends_trans {A} (x y z : option (list A)) :
  extends x y -> extends y z -> extends x z.
Proof.
  intros ((t1 & H1) & N1) ((t2 & H2) & N2). split; [|auto].
  exists (t1 ++ t2). rewrite H2, H1, app_assoc. reflexivity.
Qed.

Lemma extends_next_addrs lb hr status he a :
  extends a (next_addrs lb hr status he a).
Proof.
  unfold next_addrs. destruct he as [h|]; [|apply extends_refl].
  destruct ((status =? ARES_SUCCESS) && negb lb); [|apply extends_refl].
  split; [eexists; reflexivity | discriminate].
Qed.

Lemma extends_next_lb_addrs lb hr status he l :
  extends l (next_lb_addrs lb hr status he l).
Proof.
  unfold next_lb_addrs. destruct he as [h|]; [|apply extends_refl].
  destruct ((status =? ARES_SUCCESS) && lb); [|apply extends_refl].
  split; [eexists; reflexivity | discriminate].
Qed.

Lemma preserved_extend E lb a0 l0 :
  Preserved E lb any_request (slots_extend a0 l0).
Proof.
  constructor; unfold slots_extend, any_request; auto.
  intros s e a l t hr status he _ _ (Ha & Hl). split.
  - apply (extends_trans _ _ _ Ha), extends_next_addrs.
  - apply (extends_trans _ _ _ Hl), extends_next_lb_addrs.
Qed.

(** X7.  Completions only ever add to the output lists.  From any world a
    resolve call has led to, whatever further completions c-ares delivers,
    each slot still holds the entries it held, unchanged and at the same
    positions, followed by the new ones, and a list that was there is
    still there. *)
Theorem X7_entries_are_never_lost E name default_port ip cb lb a l w cs w' :
  reachable E name default_port ip cb lb a l w ->
  run E w cs = Some w' ->
  extends (addrs w) (addrs w') /\ extends (lb_addrs w) (lb_addrs w').
Proof.
  intros R Hrun. destruct (req w) as [r|] eqn:Hr.
  - destruct (creates_request_dec E name default_port ip) as [Hc|Hn].
    + destruct (reachable_kept E lb any_request any_state
                  name default_port ip cb a l w
                  (preserved_any E lb) Hc (fun _ _ _ _ => I) I R)
        as (ctx & T).
      unfold Post in T. rewrite Hr in T. destruct T as (Hlb & _ & Hq).
      assert (K : Kept lb any_request
                    (slots_extend (addrs w) (lb_addrs w)) w r).
      { split; [exact Hlb|]. split; [|exact Hq].
        split; apply extends_refl. }
      pose proof (kept_run E lb any_request _
                    (preserved_extend E lb (addrs w) (lb_addrs w))
                    cs w r w' K Hr Hrun) as T.
      apply (post_slots lb any_request
               (fun a' l' => extends (addrs w) a' /\ extends (lb_addrs w) l')
               StackCtx w' T).
    + destruct (reachable_refused _ _ _ _ _ _ _ _ _ Hn R) as (e & -> & _).
      discriminate.
  - rewrite (run_without_request E cs w w' Hr Hrun).
    split; apply extends_refl.
Qed.

Lemma X7_entries_are_never_lost_witness :
  exists w',
    complete example_library example_open_world
      (1%nat, OHost (HostSuccess example_hostent)) = Some w' /\
    extends (lb_addrs example_open_world) (lb_addrs w').
Proof.
  assert (R : reachable example_library "svc.example.com:443" None 0%nat
                5%nat true None None example_open_world).
  { exists example_open_world, []. split; [vm_compute|]; reflexivity. }
  destruct (complete example_library example_open_world
              (1%nat, OHost (HostSuccess example_hostent))) as [w'|] eqn:Hc;
    [|vm_compute in Hc; discriminate].
  exists w'. split; [reflexivity|].
  assert (Hrun : run example_library example_open_world
                   [(1%nat, OHost (HostSuccess example_hostent))] = Some w')
    by (cbn [run]; rewrite Hc; reflexivity).
  apply (proj2 (X7_entries_are_never_lost example_library
                  "svc.example.com:443" None 0%nat 5%nat true None None
                  example_open_world _ w' R Hrun)).
Defined.

(** ** The shape of the entries *)

Lemma wf_address_of hr h bytes : wf_address (address_of hr h bytes).
Proof.
  unfold wf_address, address_of, to_sa_family_t.
  pose proof (Z.mod_pos_bound (h_addrtype h) 65536 ltac:(lia)) as Hb.
  destruct (Z.eqb_spec (h_addrtype h) AF_INET6) as [Hf|Hf];
    cbn [addr len sa_family sa_addr]; (split; [exact Hb|]).
  - left. rewrite Hf. split; [reflexivity|]. split; [reflexivity|].
    rewrite length_firstn. apply Nat.le_min_l.
  - right. split; [reflexivity|]. rewrite length_firstn. apply Nat.le_min_l.
Qed.

Lemma wf_lb_address_of hr h bytes : wf_lb_address (lb_address_of hr h bytes).
Proof.
  unfold wf_lb_address, lb_address_of.
  cbn [address user_data balancer_name is_balancer].
  split; [apply wf_address_of|]. split; [reflexivity|].
  destruct (hr_is_balancer hr); split; auto; discriminate.
Qed.

Lemma Forall_map_all {A B} (Q : B -> Prop) (f : A -> B) (xs : list A) :
  (forall x, Q (f x)) -> Forall Q (map f xs).
Proof. intros H. induction xs; cbn; constructor; auto. Qed.

Lemma preserved_wf E lb : Preserved E lb any_request entries_wf.
Proof.
  constructor; unfold entries_wf, any_request; auto.
  intros s e a l t hr status he _ _ (Ha & Hl).
  unfold next_addrs, next_lb_addrs. destruct he as [h|]; [|auto]. split.
  - destruct ((status =? ARES_SUCCESS) && negb lb); [|exact Ha].
    cbn [stored]. apply Forall_app. split; [exact Ha|].
    apply Forall_map_all. apply wf_address_of.
  - destruct ((status =? ARES_SUCCESS) && lb); [|exact Hl].
    cbn [stored]. apply Forall_app. split; [exact Hl|].
    apply Forall_map_all. apply wf_lb_address_of.
Qed.

(** X8.  Every entry the callbacks write is a complete socket address.  If
    the lists the caller passes in are well formed, then at every moment
    of the request every entry of both lists has the size of a
    [sockaddr_in6], with the IPv6 family and at most 16 address bytes, or
    the size of a [sockaddr_in] with at most 4; each load-balancer entry
    has no user data, and a balancer name exactly when it is marked as a
    balancer. *)
Theorem X8_entries_are_well_formed E name default_port ip cb lb a l w :
  Forall wf_address (stored a) -> Forall wf_lb_address (stored l) ->
  reachable E name default_port ip cb lb a l w ->
  Forall wf_address (stored (addrs w)) /\
  Forall wf_lb_address (stored (lb_addrs w)).
Proof.
  intros Ha Hl R.
  destruct (creates_request_dec E name default_port ip) as [Hc|Hn].
  - destruct (reachable_kept E lb any_request entries_wf
                name default_port ip cb a l w
                (preserved_wf E lb) Hc (fun _ _ _ _ => I) (conj Ha Hl) R)
      as (ctx & T).
    apply (post_slots lb any_request
             (fun a' l' => Forall wf_address (stored a') /\
                           Forall wf_lb_address (stored l')) ctx w T).
  - destruct (reachable_refused _ _ _ _ _ _ _ _ _ Hn R) as (e & -> & _).
    auto.
Qed.

Lemma X8_entries_are_well_formed_witness :
  exists w,
    complete example_library example_open_world
      (1%nat, OHost (HostSuccess example_hostent)) = Some w /\
    Forall wf_lb_address (stored (lb_addrs w)).
Proof.
  destruct (complete example_library example_open_world
              (1%nat, OHost (HostSuccess example_hostent))) as [w|] eqn:Hc;
    [|vm_compute in Hc; discriminate].
  exists w. split; [reflexivity|].
  assert (R : reachable example_library "svc.example.com:443" None 0%nat
                5%nat true None None w).
  { exists example_open_world, [(1%nat, OHost (HostSuccess example_hostent))].
    split; [vm_compute; reflexivity|]. cbn [run]. rewrite Hc. reflexivity. }
  apply (proj2 (X8_entries_are_well_formed example_library
                  "svc.example.com:443" None 0%nat 5%nat true None None w
                  (Forall_nil _) (Forall_nil _) R)).
Defined.

(** ** Where ports and balancer names come from *)

Lemma preserved_origin E lb direct_port :
  Preserved E lb (request_origin E lb direct_port)
    (entries_origin E lb direct_port).
Proof.
  constructor; unfold entries_origin; auto.
  - intros s e a l t hr status he (Hplain & Hg) _ H.
    unfold next_addrs, next_lb_addrs. destruct he as [h|]; [|exact H].
    destruct lb; cbn [negb]; rewrite ?andb_false_r, ?andb_true_r.
    + destruct (status =? ARES_SUCCESS); [|exact H].
      cbn [stored]. apply Forall_app. split; [exact H|].
      apply Forall_map_all. intros bytes.
      unfold entry_origin, lb_address_of.
      cbn [is_balancer balancer_name address].
      assert (Hport : sa_port (addr (address_of hr h bytes)) = hr_port hr)
        by (unfold address_of; destruct (h_addrtype h =? AF_INET6);
            reflexivity).
      rewrite Hport. destruct (hr_is_balancer hr); [|auto].
      exists (hr_host hr). auto.
    + destruct (status =? ARES_SUCCESS); [|exact H].
      cbn [stored]. apply Forall_app. split; [exact H|].
      apply Forall_map_all. intros bytes.
      rewrite (Hplain eq_refl) in Hg. rewrite <- Hg.
      unfold address_of; destruct (h_addrtype h =? AF_INET6); reflexivity.
  - intros abuf s Hlb Hps Hin. split; [congruence|].
    cbn [hr_is_balancer hr_host hr_port]. exists abuf, s. auto.
Qed.

(** X9.  The port and the balancer name of every entry are accounted for.
    When the caller passes an absent slot, then at every moment of the
    request: in plain mode every entry carries the port of the call, that
    is [strhtons] of the port in the name or else of the default port; in
    load-balancer mode an entry that is not marked as a balancer carries
    that port and no name, and an entry that is marked carries the host
    name and the port field, as the parser gave it, of one target record of
    an SRV reply that the parser accepted. *)
Theorem X9_ports_and_names_are_accounted_for
    E name default_port ip cb lb a l host port w :
  fst (gpr_split_host_port E name) = Some host ->
  governing_port (snd (gpr_split_host_port E name)) default_port
  = Some port ->
  slot_absent lb a l ->
  reachable E name default_port ip cb lb a l w ->
  if lb then Forall (entry_origin E (strhtons E port)) (stored (lb_addrs w))
  else Forall (fun x => sa_port (addr x) = strhtons E port)
         (stored (addrs w)).
Proof.
  intros Hh Hp Hs R.
  assert (H0 : entries_origin E lb (strhtons E port) false GRPC_ERROR_NONE
                 a l [EvRefInit 1]).
  { unfold entries_origin, slot_absent in *. destruct lb; subst;
      constructor. }
  destruct (creates_request_dec E name default_port ip) as [Hc|Hn].
  - destruct (reachable_kept E lb (request_origin E lb (strhtons E port))
                (entries_origin E lb (strhtons E port))
                name default_port ip cb a l w
                (preserved_origin E lb (strhtons E port)) Hc) as (ctx & T);
      [|exact H0|exact R|].
    + intros host' port' Hh' Hp'. split; [reflexivity|].
      cbn [hr_is_balancer hr_port]. congruence.
    + apply (post_slots lb _
               (fun a' l' =>
                  if lb
                  then Forall (entry_origin E (strhtons E port)) (stored l')
                  else Forall (fun x => sa_port (addr x) = strhtons E port)
                         (stored a')) ctx w T).
  - destruct (reachable_refused _ _ _ _ _ _ _ _ _ Hn R) as (e & -> & _).
    exact H0.
Qed.

Lemma X9_ports_and_names_are_accounted_for_witness :
  exists w,
    complete example_library example_open_world
      (1%nat, OHost (HostSuccess example_hostent)) = Some w /\
    Forall (entry_origin example_library (strhtons example_library "443"))
      (stored (lb_addrs w)).
Proof.
  destruct (complete example_library example_open_world
              (1%nat, OHost (HostSuccess example_hostent))) as [w|] eqn:Hc;
    [|vm_compute in Hc; discriminate].
  exists w. split; [reflexivity|].
  assert (R : reachable example_library "svc.example.com:443" None 0%nat
                5%nat true None None w).
  { exists example_open_world, [(1%nat, OHost (HostSuccess example_hostent))].
    split; [vm_compute; reflexivity|]. cbn [run]. rewrite Hc. reflexivity. }
  assert (Hh : fst (gpr_split_host_port example_library
                      "svc.example.com:443") = Some "svc.example.com"%string)
    by (vm_compute; reflexivity).
  assert (Hp : governing_port
                 (snd (gpr_split_host_port example_library
                         "svc.example.com:443")) None = Some "443"%string)
    by (vm_compute; reflexivity).
  apply (X9_ports_and_names_are_accounted_for example_library
           "svc.example.com:443" None 0%nat 5%nat true None None
           "svc.example.com" "443" w Hh Hp eq_refl R).
Defined.

(** ** The chain of failures *)







(** ** The context of the callback *)

(** X11.  [on_done] is scheduled on the execution context of the caller
    exactly when the request ends inside the resolve call, by the last
    release there; when a completion that c-ares delivers later ends the
    request, either callback schedules it on an execution context of its
    own. *)
Theorem X11_callback_context E name default_port ip cb lb a l w1 :
  creates_request E name default_port ip ->
  resolve_address_ares_impl E name default_port ip cb lb (fresh_world a l)
  = Some w1 ->
  match req w1 with
  | None =>
      exists t0 c e drv,
        trace w1 = t0 ++ [EvUnref 1; EvClosureSched CallerCtx c e;
                          EvMuDestroy; EvDriverDestroy drv; EvFree]
  | Some _ =>
      forall cs w, run E w1 cs = Some w -> req w = None ->
        exists t0 c e drv,
          trace w = t0 ++ [EvUnref 1; EvClosureSched StackCtx c e;
                           EvMuDestroy; EvDriverDestroy drv; EvFree]
  end.
Proof.
  intros Hc H1.
  pose proof (kept_resolve E lb any_request any_state (preserved_any E lb)
                name default_port ip cb a l w1 Hc (fun _ _ _ _ => I) I H1)
    as T.
  unfold Post in T. destruct (req w1) as [r1|] eqn:Hr1.
  - intros cs w Hrun Hr.
    pose proof (kept_run E lb any_request any_state (preserved_any E lb)
                  cs w1 r1 w T Hr1 Hrun) as T'.
    unfold Post in T'. rewrite Hr in T'.
    destruct T' as (t0 & r2 & Ht & _).
    exists t0, (on_done r2), (error r2), (ev_driver r2). exact Ht.
  - destruct T as (t0 & r2 & Ht & _).
    exists t0, (on_done r2), (error r2), (ev_driver r2). exact Ht.
Qed.


Lemma X11_callback_context_witness :
  exists t0 c e drv,
    trace example_closed_world
    = t0 ++ [EvUnref 1; EvClosureSched StackCtx c e; EvMuDestroy;
             EvDriverDestroy drv; EvFree].
Proof.
  assert (Hc : creates_request example_library "svc.example.com:443" None
                 0%nat).
  { repeat split; [discriminate | left; discriminate]. }
  assert (H1 : resolve_address_ares_impl example_library
                 "svc.example.com:443" None 0%nat 5%nat true
                 (fresh_world None None) = Some example_open_world)
    by (vm_compute; reflexivity).
  pose proof (X11_callback_context example_library "svc.example.com:443"
                None 0%nat 5%nat true None None example_open_world Hc H1)
    as T.
  apply (T [(2%nat, OSrv (SrvFailure 4)); (0%nat, OHost (HostFailure 11));
            (0%nat, OHost (HostSuccess example_hostent))]
           example_closed_world);
    vm_compute; reflexivity.
Defined.

(** ** Small facts about the callbacks *)

(** X12.  A callback looks at what c-ares resolved only when the status is
    [ARES_SUCCESS].  On any other status the hostname callback does the
    same whatever host entry it is given and the SRV callback the same
    whatever answer buffer; on [ARES_SUCCESS] the hostname callback reads
    the host entry without a null check, so that a null one has no defined
    result. *)
Theorem X12_answer_is_read_only_on_success E hr status he abuf w :
  (status <> ARES_SUCCESS ->
   on_hostbyname_done_cb E hr status he w
   = on_hostbyname_done_cb E hr status None w /\
   on_srv_query_done_cb E status abuf w
   = on_srv_query_done_cb E status [] w) /\
  on_hostbyname_done_cb E hr ARES_SUCCESS None w = None.
Proof.
  split.
  - intros Hs. unfold on_hostbyname_done_cb, on_srv_query_done_cb.
    destruct (Z.eqb_spec status ARES_SUCCESS); [contradiction|].
    split; reflexivity.
  - destruct (on_hostbyname_done_cb E hr ARES_SUCCESS None w) as [w'|] eqn:H;
      [|reflexivity].
    destruct (host_cb_runs _ _ _ _ _ _ H) as (_ & _ & _ & Hhe).
    now destruct (Hhe eq_refl).
Qed.

Lemma X12_answer_is_read_only_on_success_witness :
  on_hostbyname_done_cb example_library
    (mkHostRequest "svc.example.com" 47873 false) 4 (Some example_hostent)
    example_open_world
  = on_hostbyname_done_cb example_library
      (mkHostRequest "svc.example.com" 47873 false) 4 None example_open_world.
Proof.
  apply (proj1 (X12_answer_is_read_only_on_success example_library
                  (mkHostRequest "svc.example.com" 47873 false) 4
                  (Some example_hostent) [] example_open_world)).
  discriminate.
Defined.

(** X13.  Creating a hostname sub-request and destroying it again is
    neutral.  On an open request whose count is not 0 the pair leaves the
    request, the slots and the queries as they were, and adds to the trace
    one increment and one decrement and no teardown. *)
Theorem X13_create_then_destroy_is_neutral host port bal ctx w r :
  req w = Some r -> pending_queries r <> 0 ->
  exists hr w1 w2,
    create_hostbyname_request host port bal w = Some (hr, w1) /\
    destroy_hostbyname_request ctx hr w1 = Some w2 /\
    hr = mkHostRequest host port bal /\
    w2 = mkWorld (Some r) (addrs w) (lb_addrs w) (inflight w)
           (trace w ++ [EvRef (pending_queries r);
                        EvUnref (pending_queries r + 1)])
           (accesses w).
Proof.
  intros Hr Hp.
  set (w1 := emit (EvRef (pending_queries r))
               (set_req (Some (with_pending (pending_queries r + 1) r)) w)).
  exists (mkHostRequest host port bal), w1. eexists.
  split; [|split; [|split; reflexivity]].
  - unfold create_hostbyname_request, grpc_ares_request_ref. rewrite Hr.
    reflexivity.
  - unfold destroy_hostbyname_request.
    rewrite (unref_more ctx w1 (with_pending (pending_queries r + 1) r)
               eq_refl) by (cbn; lia).
    cbn. rewrite <- app_assoc. destruct r as [cb lb dr p mu s e]. cbn.
    replace (p + 1 - 1) with p by lia. reflexivity.
Qed.

Lemma X13_create_then_destroy_is_neutral_witness :
  exists hr w1,
    create_hostbyname_request "lb.example.com" 443 true example_open_world
    = Some (hr, w1) /\
    exists w2, destroy_hostbyname_request None hr w1 = Some w2 /\
               req w2 = req example_open_world.
Proof.
  assert (Hr : exists r, req example_open_world = Some r /\
                         pending_queries r <> 0).
  { eexists. split; [reflexivity|]. vm_compute. discriminate. }
  destruct Hr as (r & Hr & Hp).
  destruct (X13_create_then_destroy_is_neutral "lb.example.com" 443 true None
              example_open_world r Hr Hp)
    as (hr & w1 & w2 & Hc & Hd & _ & Hw).
  exists hr, w1. split; [exact Hc|]. exists w2. split; [exact Hd|].
  rewrite Hw, Hr. reflexivity.
Defined.

(** ** The mutex between callbacks *)

(** X14.  The hostname callback releases the mutex of the request on each
    of its paths, success, chained failure and ignored failure alike:
    whenever a resolve call or a callback has returned and the request is
    still open, its mutex is free. *)
Theorem X14_mutex_is_free_between_callbacks
    E name default_port ip cb lb a l w r :
  reachable E name default_port ip cb lb a l w ->
  req w = Some r ->
  mu_locked r = false.
Proof.
  intros R Hr.
  destruct (creates_request_dec E name default_port ip) as [Hc|Hn].
  - destruct (reachable_quiescent _ _ _ _ _ _ _ _ _ R Hc)
      as [(r' & C & _)|(Hn & _)]; [|congruence].
    destruct C. congruence.
  - destruct (reachable_refused _ _ _ _ _ _ _ _ _ Hn R) as (e & -> & _).
    discriminate.
Qed.

Lemma X14_mutex_is_free_between_callbacks_witness :
  exists r, req example_failed_world = Some r /\ mu_locked r = false.
Proof.
  assert (R : reachable example_library "svc.example.com:443" None 0%nat
                5%nat true None None example_failed_world).
  { exists example_open_world,
      [(2%nat, OSrv (SrvFailure 4)); (0%nat, OHost (HostFailure 11))].
    split; vm_compute; reflexivity. }
  eexists. split; [reflexivity|].
  apply (X14_mutex_is_free_between_callbacks example_library
           "svc.example.com:443" None 0%nat 5%nat true None None
           example_failed_world _ R eq_refl).
Defined.

(** ** Counting addresses *)

Lemma issue_deferred E host port bal fam w hr w1 w' :
  hostnames_deferred E ->
  create_hostbyname_request host port bal w = Some (hr, w1) ->
  ares_gethostbyname E hr fam w1 = Some w' ->
  addrs w' = addrs w /\ lb_addrs w' = lb_addrs w.
Proof.
  intros Hd. unfold create_hostbyname_request, grpc_ares_request_ref.
  destruct (req w) as [r|]; [|discriminate].
  intros H. inversion H; subst hr w1; clear H.
  unfold ares_gethostbyname. cbn [hr_host]. rewrite (Hd host fam).
  intros H. inversion H; subst w'. split; reflexivity.
Qed.

Lemma srv_loop_deferred E reply : forall w w',
  hostnames_deferred E ->
  srv_reply_loop E reply w = Some w' ->
  addrs w' = addrs w /\ lb_addrs w' = lb_addrs w.
Proof.
  induction reply as [|s next IH]; intros w w' Hd H.
  - inversion H; subst w'. split; reflexivity.
  - cbn [srv_reply_loop] in H.
    destruct (if grpc_ipv6_loopback_available E then _ else Some w)
      as [w6|] eqn:E6; [|discriminate].
    assert (H6 : addrs w6 = addrs w /\ lb_addrs w6 = lb_addrs w).
    { destruct (grpc_ipv6_loopback_available E).
      - destruct (create_hostbyname_request _ _ _ w) as [[hr w0]|] eqn:Hc;
          [|discriminate].
        apply (issue_deferred _ _ _ _ _ _ _ _ _ Hd Hc E6).
      - inversion E6; subst w6. split; reflexivity. }
    destruct (create_hostbyname_request _ _ _ w6) as [[hr w0]|] eqn:Hc;
      [|discriminate].
    destruct (ares_gethostbyname E hr AF_INET w0) as [w4|] eqn:H4;
      [|discriminate].
    destruct (req w4) as [r4|]; [|discriminate].
    destruct (issue_deferred _ _ _ _ _ _ _ _ _ Hd Hc H4) as (A4 & L4).
    destruct (IH _ _ Hd H) as (A & L). cbn [addrs lb_addrs emit] in A, L.
    destruct H6 as (A6 & L6). split; congruence.
Qed.

Lemma srv_cb_deferred E status abuf w w' :
  hostnames_deferred E ->
  on_srv_query_done_cb E status abuf w = Some w' ->
  addrs w' = addrs w /\ lb_addrs w' = lb_addrs w.
Proof.
  intros Hd H. destruct (srv_cb_runs _ _ _ _ _ H) as (r & Hr).
  destruct (Z.eqb_spec status ARES_SUCCESS) as [Hs|Hs].
  - subst status. rewrite srv_cb_success_unfold in H. cbv zeta in H.
    set (reply := snd (ares_parse_srv_reply E abuf)) in *.
    destruct (if fst (ares_parse_srv_reply E abuf) =? ARES_SUCCESS
              then _ else _) as [w1|] eqn:H1; [|discriminate].
    destruct (unref_effect _ _ _ H) as (_ & _ & _ & _ & _ & _ & A & L & _).
    assert (H1' : addrs w1 = addrs w /\ lb_addrs w1 = lb_addrs w).
    { destruct (fst (ares_parse_srv_reply E abuf) =? ARES_SUCCESS).
      - apply (srv_loop_deferred E reply _ _ Hd) in H1. exact H1.
      - inversion H1; subst w1. split; reflexivity. }
    destruct H1' as (A1 & L1).
    destruct reply; cbn [free_reply addrs lb_addrs emit] in A, L;
      split; congruence.
  - rewrite (srv_cb_failure_unfold E status abuf w r Hr Hs) in H.
    destruct (unref_effect _ _ _ H) as (_ & _ & _ & _ & _ & _ & A & L & _).
    cbn in A, L. auto.
Qed.

Lemma complete_slot_length E lb w r c w' :
  hostnames_deferred E -> req w = Some r -> lb_addrs_out r = lb ->
  complete E w c = Some w' ->
  slot_length lb w' = (slot_length lb w + addresses_returned [c])%nat.
Proof.
  intros Hd Hr Hlb H. destruct c as [i o]. unfold complete in H.
  destruct (nth_error (inflight w) i) as [[hr fam|nm]|];
    destruct o as [o|o]; try discriminate.
  - assert (H' : on_hostbyname_done_cb E hr
                   (match o with
                    | HostSuccess _ => ARES_SUCCESS
                    | HostFailure code => Z.pos code
                    end)
                   (match o with
                    | HostSuccess he => Some he
                    | HostFailure _ => None
                    end)
                   (set_inflight (remove_nth i (inflight w)) w) = Some w')
      by (destruct o; exact H).
    destruct (host_cb_effect _ _ _ _ _ _ H')
      as (r0 & d & Hr0 & _ & _ & _ & _ & A & L & _).
    cbn [req set_inflight] in Hr0. rewrite Hr in Hr0.
    inversion Hr0; subst r0; clear Hr0.
    destruct (fold_slots_fields hr
                (match o with
                 | HostSuccess _ => ARES_SUCCESS
                 | HostFailure code => Z.pos code
                 end)
                (match o with
                 | HostSuccess he => Some he
                 | HostFailure _ => None
                 end) r (set_inflight (remove_nth i (inflight w)) w))
      as (FA & FL).
    rewrite FA in A. rewrite FL in L. rewrite Hlb in A, L.
    cbn [addrs lb_addrs set_inflight] in A, L.
    unfold slot_length. rewrite A, L.
    unfold next_addrs, next_lb_addrs.
    destruct o as [he|code]; cbn [addresses_returned].
    + destruct lb; cbn [andb negb Z.eqb ARES_SUCCESS stored];
        rewrite length_app, length_map; lia.
    + destruct lb; lia.
  - rewrite deliver_srv_eq in H.
    destruct (srv_cb_deferred _ _ _ _ _ Hd H) as (A & L).
    cbn [addrs lb_addrs set_inflight] in A, L.
    unfold slot_length. rewrite A, L. cbn [addresses_returned].
    destruct lb; lia.
Qed.

Lemma run_slot_length E lb cs : forall w r w',
  hostnames_deferred E -> req w = Some r -> lb_addrs_out r = lb ->
  run E w cs = Some w' ->
  slot_length lb w' = (slot_length lb w + addresses_returned cs)%nat.
Proof.
  induction cs as [|c cs IH]; intros w r w' Hd Hr Hlb H; cbn [run] in H.
  - inversion H; subst w'. cbn. lia.
  - destruct (complete E w c) as [w1|] eqn:Hc; [|discriminate].
    pose proof (complete_slot_length E lb w r c w1 Hd Hr Hlb Hc) as H1.
    assert (Hsplit : addresses_returned (c :: cs)
                     = (addresses_returned [c] + addresses_returned cs)%nat).
    { destruct c as [i [[he|code]|o]]; cbn [addresses_returned]; lia. }
    destruct (req w1) as [r1|] eqn:Hr1.
    + destruct c as [i o].
      destruct (complete_effect E is_query w i o w1 quiet_query Hc)
        as (r0 & _ & Hr0 & _ & _ & Hst).
      rewrite Hr in Hr0. inversion Hr0; subst r0.
      destruct (Hst r1 Hr1) as (_ & _ & Hl).
      rewrite (IH w1 r1 w' Hd Hr1 (eq_trans Hl Hlb) H). lia.
    + rewrite (run_without_request E cs w1 w' Hr1 H) in *.
      destruct cs as [|c' cs].
      * lia.
      * exfalso. cbn [run] in H.
        destruct (complete E w1 c') as [w2|] eqn:Hc'; [|discriminate].
        destruct c' as [i' o'].
        destruct (complete_effect E is_query w1 i' o' w2 quiet_query Hc')
          as (r0 & _ & Hr0 & _).
        congruence.
Qed.

(** X15.  The list of the output mode holds one entry for each address
    that c-ares returned.  When c-ares keeps hostname queries for later,
    then from any world a resolve call has led to, a schedule of
    completions adds to the slot of the mode as many entries as there are
    addresses in the host entries of its successful hostname completions;
    failed completions and SRV completions add none. *)
Theorem X15_one_entry_for_each_address
    E name default_port ip cb lb a l w cs w' :
  hostnames_deferred E ->
  reachable E name default_port ip cb lb a l w ->
  run E w cs = Some w' ->
  slot_length lb w' = (slot_length lb w + addresses_returned cs)%nat.
Proof.
  intros Hd R Hrun. destruct (req w) as [r|] eqn:Hr.
  - destruct (creates_request_dec E name default_port ip) as [Hc|Hn].
    + destruct (reachable_kept E lb any_request any_state
                  name default_port ip cb a l w
                  (preserved_any E lb) Hc (fun _ _ _ _ => I) I R)
        as (ctx & T).
      unfold Post in T. rewrite Hr in T. destruct T as (Hlb & _).
      apply (run_slot_length E lb cs w r w' Hd Hr Hlb Hrun).
    + destruct (reachable_refused _ _ _ _ _ _ _ _ _ Hn R) as (e & -> & _).
      discriminate.
  - destruct cs as [|[i o] cs].
    + inversion Hrun; subst w'. cbn. lia.
    + exfalso. cbn [run] in Hrun.
      destruct (complete E w (i, o)) as [w1|] eqn:Hc; [|discriminate].
      destruct (complete_effect E is_query w i o w1 quiet_query Hc)
        as (r0 & _ & Hr0 & _).
      congruence.
Qed.

Lemma X15_one_entry_for_each_address_witness :
  slot_length true example_closed_world = 1%nat.
Proof.
  assert (R : reachable example_library "svc.example.com:443" None 0%nat
                5%nat true None None example_open_world).
  { exists example_open_world, []. split; [vm_compute|]; reflexivity. }
  assert (Hrun : run example_library example_open_world
                   [(2%nat, OSrv (SrvFailure 4));
                    (0%nat, OHost (HostFailure 11));
                    (0%nat, OHost (HostSuccess example_hostent))]
                 = Some example_closed_world)
    by (vm_compute; reflexivity).
  rewrite (X15_one_entry_for_each_address example_library
             "svc.example.com:443" None 0%nat 5%nat true None None
             example_open_world _ example_closed_world
             (fun _ _ => eq_refl) R Hrun).
  reflexivity.
Defined.

(** ** C7 and C2: what the callback is told *)





















